(** * local-vectordb: the three vector indexes and the collection

    A shallow embedding of [src/models/collection.py]
    ([BruteForceCosineSimilarityIndex], [Collection]),
    [src/models/ivf_index.py] ([IVFIndex]), [src/models/nsw_index.py]
    ([NSWIndex]) and of the chunk collection [src/main.py] sets up.

    - A Python [float] (numpy [float64]) is a primitive binary64 float; the
      comparisons are the IEEE ones, so [nan] is as unordered here as it is
      in Python.
    - A [dict] is an association list in insertion order: Python
      dictionaries iterate in insertion order, and assigning to a present
      key keeps its position.
    - A [set] of ids is a duplicate-free list.
    - An exception is a value of [exn].  A method that mutates [self]
      returns the state it leaves behind together with its outcome, because
      a method that raises half-way keeps the assignments already made.
    - The call a search makes to the embedding provider is explicit in the
      type [prog].
    - The [while] loop of [NSWIndex.search] takes a bound on its
      iterations; one iteration is shown to be all it ever runs.
    - scikit-learn's estimator and pydantic's models are outside the
      repository: the classes [Sklearn] and [Model] hold what the code
      uses of them.

    Part I is the program, Part II the notions the properties are stated
    with and the inputs of the examples, Part III the properties the
    specification claims, Part IV further properties of the indexes and of
    the collection. *)

From Stdlib Require Import List ZArith NArith Lia Bool Permutation Sorted Floats.
Import ListNotations.

Set Implicit Arguments.

(** ** Part I: the program *)

(** *** Python values *)

Definition UUID := N.
Definition vec := list float.
(** A [str] is its sequence of code points. *)
Definition str := list N.

Inductive exn : Set :=
| ValueError
| KeyError
| IndexError
| StopIteration
| RuntimeError
| NotFittedError
| AttributeError.

Inductive result (A : Type) : Type :=
| Ok (a : A)
| Raise (e : exn).
Arguments Raise {A} e.

Definition bind {A B} (r : result A) (k : A -> result B) : result B :=
  match r with
  | Ok a => k a
  | Raise e => Raise e
  end.

Notation "x <- r ;; k" := (bind r (fun x => k))
  (at level 61, r at next level, right associativity).

Fixpoint mapM {A B} (f : A -> result B) (l : list A) : result (list B) :=
  match l with
  | [] => Ok []
  | a :: l' => b <- f a ;; bs <- mapM f l' ;; Ok (b :: bs)
  end.

(** A search either answers at once or first asks the embedding provider
    ([get_embeddings_bulk([query])[0]]) and continues with its answer. *)
Inductive prog (A : Type) : Type :=
| Return (r : result A)
| Embed (text : str) (k : vec -> result A).
Arguments Return {A} r.

Definition run {A} (get_embedding : str -> vec) (p : prog A) : result A :=
  match p with
  | Return r => r
  | Embed text k => k (get_embedding text)
  end.

(** The texts sent to the provider. *)
Definition provider_calls {A} (p : prog A) : list str :=
  match p with
  | Return _ => []
  | Embed text _ => [text]
  end.

(** [l[:limit]] *)
Definition py_slice_to {A} (l : list A) (limit : Z) : list A :=
  if (0 <=? limit)%Z then firstn (Z.to_nat limit) l
  else firstn (length l - Z.to_nat (- limit)) l.

(** [str.isspace] on one code point, and [str.strip()]. *)
Definition py_isspace (c : N) : bool :=
  ((9 <=? c) && (c <=? 13) || (28 <=? c) && (c <=? 32) || (c =? 133)
   || (c =? 160) || (c =? 5760) || (8192 <=? c) && (c <=? 8202)
   || (c =? 8232) || (c =? 8233) || (c =? 8239) || (c =? 8287)
   || (c =? 12288))%N.

Fixpoint lstrip (s : str) : str :=
  match s with
  | [] => []
  | c :: s' => if py_isspace c then lstrip s' else s
  end.

Definition strip (s : str) : str := rev (lstrip (rev (lstrip s))).

(** Truth value of a container: [not x] is [is_empty x]. *)
Definition is_empty {A} (l : list A) : bool :=
  match l with [] => true | _ => false end.

(** *** Dictionaries and sets *)

Class Key (K : Type) := {
  key_eqb : K -> K -> bool;
  key_eqb_eq : forall a b, key_eqb a b = true <-> a = b
}.

#[export] Instance Key_N : Key N := {| key_eqb := N.eqb; key_eqb_eq := N.eqb_eq |}.
#[export] Instance Key_nat : Key nat := {| key_eqb := Nat.eqb; key_eqb_eq := Nat.eqb_eq |}.

Definition dict (K V : Type) := list (K * V).

Section Dict.
Context {K V : Type} `{Key K}.

Definition keys (d : dict K V) : list K := map fst d.
Definition values (d : dict K V) : list V := map snd d.

Fixpoint dict_get (d : dict K V) (k : K) : option V :=
  match d with
  | [] => None
  | (k', v) :: d' => if key_eqb k' k then Some v else dict_get d' k
  end.

Definition dict_mem (d : dict K V) (k : K) : bool :=
  match dict_get d k with Some _ => true | None => false end.

(** [d[k] = v] *)
Fixpoint dict_set (d : dict K V) (k : K) (v : V) : dict K V :=
  match d with
  | [] => [(k, v)]
  | (k', v') :: d' =>
      if key_eqb k' k then (k', v) :: d' else (k', v') :: dict_set d' k v
  end.

(** [del d[k]] for a present key *)
Fixpoint dict_del (d : dict K V) (k : K) : dict K V :=
  match d with
  | [] => []
  | (k', v') :: d' =>
      if key_eqb k' k then d' else (k', v') :: dict_del d' k
  end.

End Dict.

Section PySet.
Context {K : Type} `{Key K}.

Definition set_mem (s : list K) (x : K) : bool := existsb (key_eqb x) s.

Definition set_add (s : list K) (x : K) : list K :=
  if set_mem s x then s else s ++ [x].

Definition set_discard (s : list K) (x : K) : list K :=
  filter (fun y => negb (key_eqb y x)) s.

(** [set(xs)] *)
Definition to_set (xs : list K) : list K := fold_left set_add xs [].

(** [list.remove(x)]: the first occurrence goes. *)
Fixpoint list_remove (l : list K) (x : K) : list K :=
  match l with
  | [] => []
  | y :: l' => if key_eqb y x then l' else y :: list_remove l' x
  end.

End PySet.

(** *** numpy *)

Open Scope float_scope.

(** [np.dot] of two one-dimensional arrays; shapes that differ raise.  The
    products are summed from left to right; numpy leaves the order of the
    partial sums to its BLAS, which the properties below do not depend
    on (the sums of the examples are exact in any order). *)
Definition np_dot (a b : vec) : result float :=
  if Nat.eqb (length a) (length b)
  then Ok (fold_left (fun s xy => s + fst xy * snd xy) (combine a b) 0)
  else Raise ValueError.

(** [np.linalg.norm] of a one-dimensional array: [sqrt(dot(x, x))]. *)
Definition np_linalg_norm (a : vec) : float :=
  sqrt (fold_left (fun s x => s + x * x) a 0).

(** [np.linalg.norm(c - q)] for one row [c] of the centroid matrix. *)
Definition np_dist (c q : vec) : result float :=
  if Nat.eqb (length c) (length q)
  then Ok (np_linalg_norm (map (fun xy => fst xy - snd xy) (combine c q)))
  else Raise ValueError.

(** numpy's order on floats when sorting: [a < b], with [nan] last. *)
Definition np_lt (a b : float) : bool :=
  (a <? b) || (PrimFloat.is_nan b && negb (PrimFloat.is_nan a)).

(** [np.argsort]: the indices in ascending order of their values (equal
    values keep their order here; numpy leaves that order open). *)
Fixpoint argsort_insert (x : nat * float) (l : list (nat * float)) :=
  match l with
  | [] => [x]
  | y :: l' => if np_lt (snd y) (snd x) then y :: argsort_insert x l' else x :: l
  end.

Definition np_argsort (l : list float) : list nat :=
  map fst (fold_right argsort_insert [] (combine (seq 0 (length l)) l)).

(** *** Records and search results *)

Inductive DataRecord : Type :=
| Chunk (id : UUID) (embedding : option vec)
| Document (id : UUID)
| Library (id : UUID).

Arguments Chunk id%_N embedding.
Arguments Document id%_N.
Arguments Library id%_N.

Definition item_id (item : DataRecord) : UUID :=
  match item with
  | Chunk id _ | Document id | Library id => id
  end.

(** [hasattr(item, "embedding") and isinstance(item.embedding, list)], which
    is also [isinstance(item, Chunk) and item.embedding is not None]: only a
    [Chunk] has the attribute, and it holds a list or [None]. *)
Definition valid_embedding (item : DataRecord) : option vec :=
  match item with
  | Chunk _ (Some e) => Some e
  | _ => None
  end.

Record SearchResult : Type := mkSearchResult {
  id : UUID;
  confidence : float
}.

Arguments mkSearchResult id%_N confidence.

(** [key=lambda x: x.confidence or 0.0] *)
Definition sort_key (x : SearchResult) : float :=
  if confidence x =? 0 then 0 else confidence x.

(** [list.sort(key=..., reverse=True)]: a stable sort on [<] between keys,
    written as the insertion sort that keeps equal keys in their order.
    When the keys are totally ordered this is the list timsort returns;
    with a [nan] key it is on the inputs of the examples below, where
    timsort finds the whole reversed list to be one ascending run and
    moves nothing. *)
Fixpoint insert_desc (x : SearchResult) (l : list SearchResult) :=
  match l with
  | [] => [x]
  | y :: l' => if sort_key x <? sort_key y then y :: insert_desc x l' else x :: l
  end.

Definition sort_desc (l : list SearchResult) : list SearchResult :=
  fold_right insert_desc [] l.

(** The score both [BruteForceCosineSimilarityIndex.search] and
    [NSWIndex._find_nearest_neighbors] compute for a stored vector. *)
Definition guarded_cosine (query_vec item_vec : vec) : result float :=
  dot_product <- np_dot query_vec item_vec ;;
  let norm_product := np_linalg_norm query_vec * np_linalg_norm item_vec in
  Ok (if norm_product =? 0 then 0 else dot_product / norm_product).

(** *** collection.py: BruteForceCosineSimilarityIndex *)

Module BruteForceCosineSimilarityIndex.

Record t : Type := mk { embeddings : dict UUID vec }.

Definition init : t := mk [].

Definition add_embedding (d : dict UUID vec) (item : DataRecord) :=
  match valid_embedding item with
  | Some e => dict_set d (item_id item) e
  | None => d
  end.

Definition rebuild (self : t) (items : list DataRecord) : t * result unit :=
  (mk (fold_left add_embedding items []), Ok tt).

Definition add (self : t) (item : DataRecord) : t * result unit :=
  (mk (add_embedding (embeddings self) item), Ok tt).

Definition remove (self : t) (item_id : UUID) : t * result unit :=
  (mk (if dict_mem (embeddings self) item_id
       then dict_del (embeddings self) item_id
       else embeddings self), Ok tt).

(** The scan loop of [search]. *)
Fixpoint similarities (query_vec : vec) (items : dict UUID vec)
  : result (list SearchResult) :=
  match items with
  | [] => Ok []
  | (item_id, item_vec) :: rest =>
      if np_linalg_norm item_vec =? 0 then similarities query_vec rest
      else
        confidence <- guarded_cosine query_vec item_vec ;;
        sims <- similarities query_vec rest ;;
        Ok (mkSearchResult item_id confidence :: sims)
  end.

Definition search (self : t) (query : str) (limit : Z)
  : prog (list SearchResult) :=
  if is_empty (embeddings self) then Return (Ok [])
  else Embed query (fun query_vec =>
    if np_linalg_norm query_vec =? 0 then Ok []
    else
      sims <- similarities query_vec (embeddings self) ;;
      Ok (py_slice_to (sort_desc sims) limit)).

End BruteForceCosineSimilarityIndex.

(** *** sklearn.cluster.KMeans

    The estimator is a library outside the repository.  Its input checks
    are written out; the numerical training and the nearest-centre rule are
    the two operations of the class [Sklearn]. *)

Class Sklearn : Type := {
  (** [KMeans(n_clusters=n, random_state=42)] trained on the rows [X]:
      the centres and the label of every row. *)
  lloyd : nat -> list vec -> list vec * list nat;
  (** the index [predict] answers for one row *)
  nearest_center : list vec -> vec -> nat
}.

(** An estimator is [Unfitted] while it has no fitted attribute,
    [HalfFitted] when a [fit] that raised has left it [n_features_in_] and
    nothing else, and [Fitted] with its centres. *)
Inductive KMeans : Type :=
| Unfitted
| HalfFitted (n_features_in : nat)
| Fitted (cluster_centers : list vec) (n_features_in : nat).

(** sklearn's [check_array]: a non-empty matrix with at least one column
    and finite entries; the answer is the number of columns. *)
Definition check_array (X : list vec) : result nat :=
  match X with
  | [] => Raise ValueError
  | x :: _ =>
      if Nat.ltb 0 (length x)
         && forallb (fun y => Nat.eqb (length y) (length x)
                              && forallb PrimFloat.is_finite y) X
      then Ok (length x)
      else Raise ValueError
  end.

(** The estimator a raising [fit] leaves behind: [fit] validates its
    parameters, then the rows, setting [n_features_in_] when they pass, and
    only then compares the number of rows with [n_clusters]. *)
Definition KMeans_fit_raised (n_clusters : Z) (X : list vec) : KMeans :=
  if (n_clusters <? 1)%Z then Unfitted
  else
    match check_array X with
    | Ok d => HalfFitted d
    | Raise _ => Unfitted
    end.

Section KMeansOps.
Context `{Sklearn}.

(** [KMeans(n_clusters=n_clusters, random_state=42).fit(X)], with the labels
    [fit_predict] returns.  [n_clusters] must be at least 1 and at most the
    number of rows ("n_samples=... should be >= n_clusters=..."). *)
Definition KMeans_fit (n_clusters : Z) (X : list vec)
  : result (KMeans * list nat) :=
  if (n_clusters <? 1)%Z then Raise ValueError
  else
    d <- check_array X ;;
    if Nat.ltb (length X) (Z.to_nat n_clusters) then Raise ValueError
    else
      let (centers, labels) := lloyd (Z.to_nat n_clusters) X in
      Ok (Fitted centers d, labels).

(** [kmeans.predict(x.reshape(1, -1))[0]]: [check_is_fitted] asks for some
    fitted attribute, the row is checked against [n_features_in_], and the
    centres are read last. *)
Definition KMeans_predict (kmeans : KMeans) (x : vec) : result nat :=
  match kmeans with
  | Unfitted => Raise NotFittedError
  | HalfFitted d =>
      _ <- check_array [x] ;;
      if Nat.eqb (length x) d then Raise AttributeError
      else Raise ValueError
  | Fitted centers d =>
      _ <- check_array [x] ;;
      if Nat.eqb (length x) d then Ok (nearest_center centers x)
      else Raise ValueError
  end.

End KMeansOps.

(** *** ivf_index.py: IVFIndex *)

Module IVFIndex.

Record t : Type := mk {
  n_clusters : Z;
  kmeans : option KMeans;
  cluster_assignments : dict nat (list UUID);
  embeddings : dict UUID vec
}.

Definition init (n_clusters : Z) : t := mk n_clusters None [] [].

(** [self.cluster_assignments[cluster_id].append(item_id)], the list being
    created when the key is new. *)
Definition assign (ca : dict nat (list UUID)) (cluster_id : nat) (item_id : UUID) :=
  match dict_get ca cluster_id with
  | Some members => dict_set ca cluster_id (members ++ [item_id])
  | None => dict_set ca cluster_id [item_id]
  end.

Section Methods.
Context `{Sklearn}.

(** The last loop of [rebuild]; [i] is the position [enumerate] gives. *)
Fixpoint assign_all (self : t) (cluster_ids : list nat) (i : nat)
  (items : list (UUID * vec)) : t * result unit :=
  match items with
  | [] => (self, Ok tt)
  | (item_id, embedding) :: rest =>
      match nth_error cluster_ids i with
      | None => (self, Raise IndexError)
      | Some cluster_id =>
          assign_all
            (mk (n_clusters self) (kmeans self)
                (assign (cluster_assignments self) cluster_id item_id)
                (dict_set (embeddings self) item_id embedding))
            cluster_ids (S i) rest
      end
  end.

Definition valid_items (items : list DataRecord) : list (UUID * vec) :=
  flat_map (fun item => match valid_embedding item with
                        | Some e => [(item_id item, e)]
                        | None => []
                        end) items.

(** [np.array(embeddings)] needs rows of one length. *)
Definition np_array_2d (rows : list vec) : result (list vec) :=
  match rows with
  | [] => Ok []
  | x :: _ =>
      if forallb (fun y => Nat.eqb (length y) (length x)) rows then Ok rows
      else Raise ValueError
  end.

Definition rebuild (self : t) (items : list DataRecord) : t * result unit :=
  let cleared := mk (n_clusters self) (kmeans self) [] [] in
  let valid := valid_items items in
  if is_empty valid then (cleared, Ok tt)
  else
    match np_array_2d (map snd valid) with
    | Raise e => (cleared, Raise e)
    | Ok embeddings_array =>
        let n := Z.min (n_clusters self) (Z.of_nat (length valid)) in
        match KMeans_fit n embeddings_array with
        | Raise e =>
            (mk (n_clusters self) (Some (KMeans_fit_raised n embeddings_array))
                [] [], Raise e)
        | Ok (km, cluster_ids) =>
            assign_all (mk (n_clusters self) (Some km) [] [])
                       cluster_ids 0 (combine (map fst valid) embeddings_array)
        end
    end.

Definition add (self : t) (item : DataRecord) : t * result unit :=
  match valid_embedding item with
  | None => (self, Ok tt)
  | Some embedding =>
      (* "Initialize KMeans if needed": [self.kmeans] is assigned before
         [fit] runs *)
      let fitted :=
        match kmeans self with
        | None =>
            match KMeans_fit (n_clusters self) [embedding] with
            | Ok (km, _) => (km, Ok tt)
            | Raise e =>
                (KMeans_fit_raised (n_clusters self) [embedding], Raise e)
            end
        | Some km => (km, Ok tt)
        end in
      let self1 := mk (n_clusters self) (Some (fst fitted))
                      (cluster_assignments self) (embeddings self) in
      match snd fitted with
      | Raise e => (self1, Raise e)
      | Ok _ =>
          match KMeans_predict (fst fitted) embedding with
          | Raise e => (self1, Raise e)
          | Ok cluster_id =>
              (mk (n_clusters self) (Some (fst fitted))
                  (assign (cluster_assignments self) cluster_id (item_id item))
                  (dict_set (embeddings self) (item_id item) embedding),
               Ok tt)
          end
      end
  end.

(** The loop of [remove] over [self.cluster_assignments.values()]: the
    first list that holds the id loses its first occurrence. *)
Fixpoint remove_from_clusters (ca : dict nat (list UUID)) (item_id : UUID) :=
  match ca with
  | [] => []
  | (cluster_id, cluster_ids) :: rest =>
      if set_mem cluster_ids item_id
      then (cluster_id, list_remove cluster_ids item_id) :: rest
      else (cluster_id, cluster_ids) :: remove_from_clusters rest item_id
  end.

Definition remove (self : t) (item_id : UUID) : t * result unit :=
  if negb (dict_mem (embeddings self) item_id) then (self, Ok tt)
  else
    (mk (n_clusters self) (kmeans self)
        (remove_from_clusters (cluster_assignments self) item_id)
        (dict_del (embeddings self) item_id),
     Ok tt).

Definition n_probe (self : t) : nat :=
  Nat.min 3 (length (cluster_assignments self)).

(** [np.argsort(cluster_dists)[:n_probe]] *)
Definition nearest_clusters (self : t) (cluster_dists : list float) : list nat :=
  firstn (n_probe self) (np_argsort cluster_dists).

(** The members of the probed clusters, in probing order. *)
Definition candidates (self : t) (clusters : list nat) : list UUID :=
  flat_map (fun cluster_id =>
              match dict_get (cluster_assignments self) cluster_id with
              | Some members => members
              | None => []
              end) clusters.

(** The similarity [search] computes: no guard on the norms. *)
Definition cosine (query_vector vector : vec) : result float :=
  d <- np_dot query_vector vector ;;
  Ok (d / (np_linalg_norm query_vector * np_linalg_norm vector)).

Fixpoint results (self : t) (query_vector : vec) (candidates : list UUID)
  : result (list SearchResult) :=
  match candidates with
  | [] => Ok []
  | item_id :: rest =>
      match dict_get (embeddings self) item_id with
      | Some vector =>
          similarity <- cosine query_vector vector ;;
          rs <- results self query_vector rest ;;
          Ok (mkSearchResult item_id similarity :: rs)
      | None => results self query_vector rest
      end
  end.

(** [self.kmeans.cluster_centers_] *)
Definition cluster_centers (km : KMeans) : result (list vec) :=
  match km with
  | Fitted centers _ => Ok centers
  | Unfitted | HalfFitted _ => Raise AttributeError
  end.

Definition search (self : t) (query : str) (limit : Z)
  : prog (list SearchResult) :=
  match kmeans self with
  | None => Return (Ok [])
  | Some km =>
      if is_empty (strip query) || is_empty (embeddings self)
      then Return (Ok [])
      else Embed query (fun query_vector =>
        _ <- KMeans_predict km query_vector ;;
        centers <- cluster_centers km ;;
        cluster_dists <- mapM (fun c => np_dist c query_vector) centers ;;
        let cands := candidates self (nearest_clusters self cluster_dists) in
        if is_empty cands then Ok []
        else
          rs <- results self query_vector cands ;;
          Ok (py_slice_to (sort_desc rs) limit))
  end.

End Methods.
End IVFIndex.

(** *** nsw_index.py: NSWIndex *)

Module NSWIndex.

Record t : Type := mk {
  embeddings : dict UUID vec;
  graph : dict UUID (list UUID);
  n_neighbors : Z;
  ef_construction : Z
}.

Definition init (n_neighbors ef_construction : Z) : t :=
  mk [] [] n_neighbors ef_construction.

(** The scan loop of [_find_nearest_neighbors]. *)
Fixpoint similarities (item_id : UUID) (embedding : vec) (items : dict UUID vec)
  : result (list SearchResult) :=
  match items with
  | [] => Ok []
  | (other_id, other_vec) :: rest =>
      if N.eqb other_id item_id then similarities item_id embedding rest
      else if np_linalg_norm other_vec =? 0 then similarities item_id embedding rest
      else
        confidence <- guarded_cosine embedding other_vec ;;
        sims <- similarities item_id embedding rest ;;
        Ok (mkSearchResult other_id confidence :: sims)
  end.

Definition _find_nearest_neighbors (embeddings : dict UUID vec)
  (item_id : UUID) (embedding : vec) (k : Z) : result (list SearchResult) :=
  sims <- similarities item_id embedding embeddings ;;
  Ok (py_slice_to (sort_desc sims) k).

(** [_cosine_similarity] *)
Definition _cosine_similarity (vec1 vec2 : vec) : result float :=
  if (np_linalg_norm vec1 =? 0) || (np_linalg_norm vec2 =? 0) then Ok 0
  else
    d <- np_dot vec1 vec2 ;;
    Ok (d / (np_linalg_norm vec1 * np_linalg_norm vec2)).

(** The second loop of [rebuild], over [self.embeddings.items()]. *)
Fixpoint build_graph (embeddings : dict UUID vec) (k : Z)
  (items : dict UUID vec) (graph : dict UUID (list UUID))
  : dict UUID (list UUID) * result unit :=
  match items with
  | [] => (graph, Ok tt)
  | (item_id, embedding) :: rest =>
      match _find_nearest_neighbors embeddings item_id embedding k with
      | Raise e => (graph, Raise e)
      | Ok neighbors =>
          build_graph embeddings k rest
            (dict_set graph item_id (to_set (map id neighbors)))
      end
  end.

Definition add_embedding (d : dict UUID vec) (item : DataRecord) :=
  match valid_embedding item with
  | Some e => dict_set d (item_id item) e
  | None => d
  end.

Definition rebuild (self : t) (items : list DataRecord) : t * result unit :=
  let embeddings := fold_left add_embedding items [] in
  let (graph, r) := build_graph embeddings (n_neighbors self) embeddings [] in
  (mk embeddings graph (n_neighbors self) (ef_construction self), r).

(** "Add bidirectional connections" *)
Definition connect_back (graph : dict UUID (list UUID)) (item_id : UUID)
  (neighbors : list SearchResult) : dict UUID (list UUID) :=
  fold_left (fun g neighbor =>
               match dict_get g (id neighbor) with
               | Some s => dict_set g (id neighbor) (set_add s item_id)
               | None => g
               end) neighbors graph.

Definition add (self : t) (item : DataRecord) : t * result unit :=
  match valid_embedding item with
  | None => (self, Ok tt)
  | Some embedding =>
      let embeddings := dict_set (embeddings self) (item_id item) embedding in
      match _find_nearest_neighbors embeddings (item_id item) embedding
                                    (n_neighbors self) with
      | Raise e =>
          (mk embeddings (graph self) (n_neighbors self) (ef_construction self),
           Raise e)
      | Ok neighbors =>
          let graph := dict_set (graph self) (item_id item)
                                (to_set (map id neighbors)) in
          (mk embeddings (connect_back graph (item_id item) neighbors)
              (n_neighbors self) (ef_construction self),
           Ok tt)
      end
  end.

(** The loop of [remove] over [self.graph[item_id]].  Discarding the id
    from the very set being iterated (a self-loop) makes the next step of
    the iteration raise. *)
Fixpoint disconnect (graph : dict UUID (list UUID)) (item_id : UUID)
  (neighbor_ids : list UUID) : dict UUID (list UUID) * result unit :=
  match neighbor_ids with
  | [] => (graph, Ok tt)
  | neighbor_id :: rest =>
      let graph' :=
        match dict_get graph neighbor_id with
        | Some s => dict_set graph neighbor_id (set_discard s item_id)
        | None => graph
        end in
      if N.eqb neighbor_id item_id then (graph', Raise RuntimeError)
      else disconnect graph' item_id rest
  end.

Definition remove (self : t) (item_id : UUID) : t * result unit :=
  let embeddings :=
    if dict_mem (embeddings self) item_id
    then dict_del (embeddings self) item_id
    else embeddings self in
  match dict_get (graph self) item_id with
  | None => (mk embeddings (graph self) (n_neighbors self) (ef_construction self),
             Ok tt)
  | Some neighbor_ids =>
      match disconnect (graph self) item_id neighbor_ids with
      | (graph, Raise e) =>
          (mk embeddings graph (n_neighbors self) (ef_construction self), Raise e)
      | (graph, Ok _) =>
          (mk embeddings (dict_del graph item_id)
              (n_neighbors self) (ef_construction self),
           Ok tt)
      end
  end.

(** *** The traversal of [search] *)

Definition candidate := (float * UUID)%type.

(** [max(candidates, key=lambda x: x[0])]: the first maximal element. *)
Fixpoint py_max (best : candidate) (rest : list candidate) : candidate :=
  match rest with
  | [] => best
  | c :: rest' => py_max (if fst best <? fst c then c else best) rest'
  end.

(** Equality of candidate tuples as [list.remove] tests it (the chosen
    tuple is an element of the list, and identical objects are equal). *)
Definition same_candidate (a b : candidate) : bool :=
  N.eqb (snd a) (snd b)
  && ((fst a =? fst b) || (PrimFloat.is_nan (fst a) && PrimFloat.is_nan (fst b))).

Fixpoint remove_candidate (l : list candidate) (c : candidate) : list candidate :=
  match l with
  | [] => []
  | x :: l' => if same_candidate x c then l' else x :: remove_candidate l' c
  end.

(** [... if candidates else True], the test before [break]. *)
Definition stop_now (best_candidates : list SearchResult) (limit : Z)
  (similarity : float) (candidates : list candidate) : bool :=
  match candidates with
  | [] => true
  | c0 :: _ =>
      (limit <=? Z.of_nat (length best_candidates))%Z && (similarity <? fst c0)
  end.

(** "Explore neighbors" *)
Fixpoint explore (self : t) (query_vec : vec) (neighbor_ids : list UUID)
  (visited : list UUID) (candidates : list candidate)
  : result (list UUID * list candidate) :=
  match neighbor_ids with
  | [] => Ok (visited, candidates)
  | neighbor_id :: rest =>
      if set_mem visited neighbor_id
      then explore self query_vec rest visited candidates
      else
        match dict_get (embeddings self) neighbor_id with
        | None => Raise KeyError
        | Some v =>
            neighbor_sim <- _cosine_similarity query_vec v ;;
            explore self query_vec rest (set_add visited neighbor_id)
                    (candidates ++ [(neighbor_sim, neighbor_id)])
        end
  end.

(** The [while candidates:] loop; [None] when [fuel] iterations were not
    enough. *)
Fixpoint traverse (fuel : nat) (self : t) (query_vec : vec) (limit : Z)
  (visited : list UUID) (candidates : list candidate)
  (best_candidates : list SearchResult) : option (result (list SearchResult)) :=
  match candidates with
  | [] => Some (Ok best_candidates)
  | c :: cs =>
      match fuel with
      | O => None
      | S fuel' =>
          let (similarity, current_id) := py_max c cs in
          let candidates := remove_candidate candidates (similarity, current_id) in
          let best_candidates :=
            best_candidates ++ [mkSearchResult current_id similarity] in
          if stop_now best_candidates limit similarity candidates
          then Some (Ok best_candidates)
          else
            let neighbor_ids :=
              match dict_get (graph self) current_id with
              | Some s => s
              | None => []
              end in
            match explore self query_vec neighbor_ids visited candidates with
            | Raise e => Some (Raise e)
            | Ok (visited, candidates) =>
                traverse fuel' self query_vec limit visited candidates
                         best_candidates
            end
      end
  end.

Definition search (fuel : nat) (self : t) (query : str) (limit : Z)
  : prog (option (list SearchResult)) :=
  if is_empty (embeddings self) then Return (Ok (Some []))
  else Embed query (fun query_vec =>
    if np_linalg_norm query_vec =? 0 then Ok (Some [])
    else
      match keys (graph self) with
      | [] => Raise StopIteration
      | entry_point :: _ =>
          match dict_get (embeddings self) entry_point with
          | None => Raise KeyError
          | Some v =>
              s <- _cosine_similarity query_vec v ;;
              match traverse fuel self query_vec limit
                             [entry_point] [(s, entry_point)] [] with
              | None => Ok None
              | Some r =>
                  best_candidates <- r ;;
                  Ok (Some (py_slice_to (sort_desc best_candidates) limit))
              end
          end
      end).

End NSWIndex.

(** *** datarecord.py, search.py: records as pydantic models

    pydantic and json are libraries outside the repository.  A record
    class is seen through the operations [Collection] and the indexes use:
    the attributes the indexes read ([record_of]: the class, [id] and
    [embedding]), [record.content if hasattr(record, "content") else ""]
    ([content_of]), [model_dump] and [model_validate], with the two facts
    about [id] that [update] relies on.  pydantic's [ValidationError] is a
    [ValueError]. *)

Inductive field : Set :=
| f_id | f_metadata | f_created_at | f_updated_at
| f_name | f_library_id | f_content | f_embedding | f_document_id.

Definition field_eqb (a b : field) : bool :=
  match a, b with
  | f_id, f_id | f_metadata, f_metadata | f_created_at, f_created_at
  | f_updated_at, f_updated_at | f_name, f_name | f_library_id, f_library_id
  | f_content, f_content | f_embedding, f_embedding
  | f_document_id, f_document_id => true
  | _, _ => false
  end.

#[export] Instance Key_field : Key field := {|
  key_eqb := field_eqb;
  key_eqb_eq := ltac:(intros [] []; simpl; split; (reflexivity || discriminate))
|}.

(** A [datetime] is a point on the clock; [metadata] is a
    [dict[str, str | int]]. *)
Definition datetime := Z.
Definition Metadata := dict str (str + Z).

(** The values of the fields, as [model_dump] gives them. *)
Inductive value : Type :=
| VNone
| VStr (s : str)
| VUUID (u : UUID)
| VFloats (l : vec)
| VMetadata (m : Metadata)
| VDatetime (t : datetime).

Definition is_None (v : value) : bool :=
  match v with VNone => true | _ => false end.

Class Model (T : Type) : Type := {
  record_of : T -> DataRecord;
  content_of : T -> str;
  model_dump : T -> dict field value;
  model_validate : dict field value -> result T;
  model_dump_id : forall x,
    dict_get (model_dump x) f_id = Some (VUUID (item_id (record_of x)));
  model_validate_id : forall d x u,
    model_validate d = Ok x -> dict_get d f_id = Some (VUUID u) ->
    item_id (record_of x) = u
}.

(** [Chunk], with the fields [DataRecord] gives it. *)
Module ChunkModel.

Record t : Type := mk {
  id : UUID;
  metadata : Metadata;
  created_at : datetime;
  updated_at : datetime;
  content : str;
  embedding : option vec;
  document_id : UUID
}.

Definition dump (c : t) : dict field value :=
  [(f_id, VUUID (id c)); (f_metadata, VMetadata (metadata c));
   (f_created_at, VDatetime (created_at c));
   (f_updated_at, VDatetime (updated_at c));
   (f_content, VStr (content c));
   (f_embedding, match embedding c with Some e => VFloats e | None => VNone end);
   (f_document_id, VUUID (document_id c))].

(** [Chunk.model_validate] on a dictionary that has the fields of a dump,
    each with a value of its declared type; keys that are no field of the
    class are ignored.  (The defaults pydantic draws for a missing [id] or
    timestamp, and its conversions from other types, are left out:
    [update] validates a dump with some values replaced.) *)
Definition validate (d : dict field value) : result t :=
  match dict_get d f_id, dict_get d f_metadata, dict_get d f_created_at,
        dict_get d f_updated_at, dict_get d f_content, dict_get d f_document_id
  with
  | Some (VUUID i), Some (VMetadata m), Some (VDatetime c), Some (VDatetime u),
    Some (VStr s), Some (VUUID doc) =>
      match dict_get d f_embedding with
      | Some (VFloats e) => Ok (mk i m c u s (Some e) doc)
      | Some VNone | None => Ok (mk i m c u s None doc)
      | Some _ => Raise ValueError
      end
  | _, _, _, _, _, _ => Raise ValueError
  end.

End ChunkModel.

#[export] Instance Model_Chunk : Model ChunkModel.t := {|
  record_of := fun c => Chunk (ChunkModel.id c) (ChunkModel.embedding c);
  content_of := ChunkModel.content;
  model_dump := ChunkModel.dump;
  model_validate := ChunkModel.validate;
  model_dump_id := fun x => eq_refl;
  model_validate_id := ltac:(
    unfold ChunkModel.validate; intros d x u Hv Hid; rewrite Hid in Hv;
    repeat match type of Hv with
           | match ?a with _ => _ end = _ => destruct a; try discriminate
           end;
    injection Hv as <-; reflexivity)
|}.

(** [FullSearchResult] *)
Module FullSearchResult.
Record t : Type := mk { id : UUID; content : str; confidence : float }.
End FullSearchResult.

(** *** collection.py: IndexType, Index, Collection *)

Module IndexType.
Inductive t : Set := COSINE | IVF | NSW.

Definition eqb (a b : t) : bool :=
  match a, b with
  | COSINE, COSINE | IVF, IVF | NSW, NSW => true
  | _, _ => false
  end.
End IndexType.

#[export] Instance Key_IndexType : Key IndexType.t := {|
  key_eqb := IndexType.eqb;
  key_eqb_eq := ltac:(intros [] []; simpl; split; (reflexivity || discriminate))
|}.

(** An index object is an instance of one of the three subclasses of
    [Index]; the base class, whose four methods raise
    [NotImplementedError], is never instantiated. *)
Inductive Index : Type :=
| Cosine (index : BruteForceCosineSimilarityIndex.t)
| Ivf (index : IVFIndex.t)
| Nsw (index : NSWIndex.t).

(** A search followed by what the caller does with its answer. *)
Definition prog_bind {A B} (p : prog A) (k : A -> result B) : prog B :=
  match p with
  | Return r => Return (bind r k)
  | Embed text f => Embed text (fun v => bind (f v) k)
  end.

Section IndexMethods.
Context `{Sklearn}.

Definition Index_rebuild (index : Index) (items : list DataRecord)
  : Index * result unit :=
  match index with
  | Cosine i =>
      let (i', r) := BruteForceCosineSimilarityIndex.rebuild i items in (Cosine i', r)
  | Ivf i => let (i', r) := IVFIndex.rebuild i items in (Ivf i', r)
  | Nsw i => let (i', r) := NSWIndex.rebuild i items in (Nsw i', r)
  end.

Definition Index_add (index : Index) (item : DataRecord) : Index * result unit :=
  match index with
  | Cosine i =>
      let (i', r) := BruteForceCosineSimilarityIndex.add i item in (Cosine i', r)
  | Ivf i => let (i', r) := IVFIndex.add i item in (Ivf i', r)
  | Nsw i => let (i', r) := NSWIndex.add i item in (Nsw i', r)
  end.

Definition Index_remove (index : Index) (item_id : UUID) : Index * result unit :=
  match index with
  | Cosine i =>
      let (i', r) := BruteForceCosineSimilarityIndex.remove i item_id in
      (Cosine i', r)
  | Ivf i => let (i', r) := IVFIndex.remove i item_id in (Ivf i', r)
  | Nsw i => let (i', r) := NSWIndex.remove i item_id in (Nsw i', r)
  end.

(** [None] when the loop of the NSW search was given too little fuel. *)
Definition Index_search (fuel : nat) (index : Index) (query : str) (limit : Z)
  : prog (option (list SearchResult)) :=
  match index with
  | Cosine i =>
      prog_bind (BruteForceCosineSimilarityIndex.search i query limit)
                (fun rs => Ok (Some rs))
  | Ivf i => prog_bind (IVFIndex.search i query limit) (fun rs => Ok (Some rs))
  | Nsw i => NSWIndex.search fuel i query limit
  end.

(** [for index in self.indexes.values(): ...]: the indexes are updated in
    the order of the dictionary; an exception leaves the loop, the indexes
    after the raising one untouched. *)
Fixpoint for_indexes (body : Index -> Index * result unit)
  (indexes : dict IndexType.t Index) : dict IndexType.t Index * result unit :=
  match indexes with
  | [] => ([], Ok tt)
  | (index_type, index) :: rest =>
      match body index with
      | (index', Raise e) => ((index_type, index') :: rest, Raise e)
      | (index', Ok _) =>
          let (rest', r) := for_indexes body rest in
          ((index_type, index') :: rest', r)
      end
  end.

End IndexMethods.

(** The directory [storage_path] is the map from the ids in the file
    names to the records the files hold: [_save_record] writes
    [json.dump(item.model_dump())], and [_load_record] validates what
    [json.load] reads back, giving the record that was saved.  Files that
    are no JSON are not part of the model.  The order in which
    [storage_path.glob("*.json")] yields the files is the file system's:
    [scandir] stands for it. *)
Module Collection.

Record t (T : Type) : Type := mk {
  files : dict UUID T;
  indexes : dict IndexType.t Index
}.
Arguments mk {T} files indexes.
Arguments files {T} self : rename.
Arguments indexes {T} self : rename.

Section Methods.
Context {T : Type} `{Model T} `{Sklearn}.
Variable scandir : list UUID -> list UUID.

(** [Collection(storage_path, record_class)] on a directory holding [files]. *)
Definition init (files : dict UUID T) : t T := mk files [].

Definition _load_record (self : t T) (item_id : UUID) : option T :=
  dict_get (files self) item_id.

Definition _save_record (self : t T) (item : T) : dict UUID T :=
  dict_set (files self) (item_id (record_of item)) item.

Definition get (self : t T) (item_id : UUID) : option T :=
  _load_record self item_id.

Definition exists_ (self : t T) (item_id : UUID) : bool :=
  dict_mem (files self) item_id.

Definition list_all (self : t T) : list T :=
  flat_map (fun file_path =>
              match _load_record self file_path with
              | Some item => [item]
              | None => []
              end) (scandir (keys (files self))).

Definition add_index (self : t T) (index_type : IndexType.t) (index : Index)
  : t T * result unit :=
  let (index', r) := Index_rebuild index (map record_of (list_all self)) in
  (mk (files self) (dict_set (indexes self) index_type index'), r).

Definition add (self : t T) (item : T) : t T * result T :=
  let files := _save_record self item in
  if negb (dict_mem files (item_id (record_of item)))
  then (mk files (indexes self), Ok item)
  else
    let (indexes, r) :=
      for_indexes (fun index => Index_add index (record_of item)) (indexes self) in
    (mk files indexes, _ <- r ;; Ok item).

(** The loop of [update] over [update_data.items()]. *)
Definition apply_updates (item_dict update_data : dict field value)
  : dict field value :=
  fold_left (fun item_dict kv =>
               let (key, value) := kv : field * value in
               if existsb (key_eqb key) [f_id; f_created_at] then item_dict
               else if is_None value then item_dict
               else dict_set item_dict key value) update_data item_dict.

(** [utcnow] is what [datetime.utcnow()] answers during the call. *)
Definition update (utcnow : datetime) (self : t T) (item_id : UUID)
  (update_data : dict field value) : t T * result (option T) :=
  match get self item_id with
  | None => (self, Ok None)
  | Some existing_item =>
      let item_dict := apply_updates (model_dump existing_item) update_data in
      let item_dict := dict_set item_dict f_updated_at (VDatetime utcnow) in
      match model_validate item_dict with
      | Raise e => (self, Raise e)
      | Ok updated_item =>
          let files := _save_record self updated_item in
          let (indexes, r) :=
            for_indexes (fun index =>
                           match Index_remove index item_id with
                           | (index', Raise e) => (index', Raise e)
                           | (index', Ok _) =>
                               Index_add index' (record_of updated_item)
                           end) (indexes self) in
          (mk files indexes, _ <- r ;; Ok (Some updated_item))
      end
  end.

(** Only [FileNotFoundError], which [unlink] raises, is caught. *)
Definition delete (self : t T) (item_id : UUID) : t T * result bool :=
  let (indexes, r) :=
    for_indexes (fun index => Index_remove index item_id) (indexes self) in
  match r with
  | Raise e => (mk (files self) indexes, Raise e)
  | Ok _ =>
      if dict_mem (files self) item_id
      then (mk (dict_del (files self) item_id) indexes, Ok true)
      else (mk (files self) indexes, Ok false)
  end.

Definition full_results (self : t T) (search_results : list SearchResult)
  : list FullSearchResult.t :=
  flat_map (fun result =>
              match get self (id result) with
              | Some record =>
                  [FullSearchResult.mk (id result) (content_of record)
                                       (confidence result)]
              | None => []
              end) search_results.

Definition search (fuel : nat) (self : t T) (index_type : IndexType.t)
  (query : str) (limit : Z) : prog (option (list FullSearchResult.t)) :=
  match dict_get (indexes self) index_type with
  | None => Return (Raise KeyError)
  | Some index =>
      prog_bind (Index_search fuel index query limit)
                (fun search_results =>
                   Ok (option_map (full_results self) search_results))
  end.

End Methods.
End Collection.

(** *** main.py: the collections and the handlers

    [chunks] with the three calls of [add_index] that follow it, on a data
    directory holding [files]; an exception ends the start-up. *)
Definition chunks `{Sklearn} (scandir : list UUID -> list UUID)
  (files : dict UUID ChunkModel.t) : Collection.t ChunkModel.t * result unit :=
  let chunks := Collection.init files in
  match Collection.add_index scandir chunks IndexType.COSINE
          (Cosine BruteForceCosineSimilarityIndex.init) with
  | (chunks, Raise e) => (chunks, Raise e)
  | (chunks, Ok _) =>
      match Collection.add_index scandir chunks IndexType.IVF
              (Ivf (IVFIndex.init 100)) with
      | (chunks, Raise e) => (chunks, Raise e)
      | (chunks, Ok _) =>
          Collection.add_index scandir chunks IndexType.NSW
            (Nsw (NSWIndex.init 5 100))
      end
  end.

(** [Document] and [Library], which have no [content] and no [embedding]. *)
Module DocumentModel.

Record t : Type := mk {
  id : UUID;
  metadata : Metadata;
  created_at : datetime;
  updated_at : datetime;
  name : str;
  library_id : UUID
}.

Definition dump (x : t) : dict field value :=
  [(f_id, VUUID (id x)); (f_metadata, VMetadata (metadata x));
   (f_created_at, VDatetime (created_at x));
   (f_updated_at, VDatetime (updated_at x));
   (f_name, VStr (name x)); (f_library_id, VUUID (library_id x))].

Definition validate (d : dict field value) : result t :=
  match dict_get d f_id, dict_get d f_metadata, dict_get d f_created_at,
        dict_get d f_updated_at, dict_get d f_name, dict_get d f_library_id
  with
  | Some (VUUID i), Some (VMetadata m), Some (VDatetime c), Some (VDatetime u),
    Some (VStr n), Some (VUUID l) => Ok (mk i m c u n l)
  | _, _, _, _, _, _ => Raise ValueError
  end.

End DocumentModel.

#[export] Instance Model_Document : Model DocumentModel.t := {|
  record_of := fun x => Document (DocumentModel.id x);
  content_of := fun _ => [];
  model_dump := DocumentModel.dump;
  model_validate := DocumentModel.validate;
  model_dump_id := fun x => eq_refl;
  model_validate_id := ltac:(
    unfold DocumentModel.validate; intros d x u Hv Hid; rewrite Hid in Hv;
    repeat match type of Hv with
           | match ?a with _ => _ end = _ => destruct a; try discriminate
           end;
    injection Hv as <-; reflexivity)
|}.

Module LibraryModel.

Record t : Type := mk {
  id : UUID;
  metadata : Metadata;
  created_at : datetime;
  updated_at : datetime;
  name : str
}.

Definition dump (x : t) : dict field value :=
  [(f_id, VUUID (id x)); (f_metadata, VMetadata (metadata x));
   (f_created_at, VDatetime (created_at x));
   (f_updated_at, VDatetime (updated_at x)); (f_name, VStr (name x))].

Definition validate (d : dict field value) : result t :=
  match dict_get d f_id, dict_get d f_metadata, dict_get d f_created_at,
        dict_get d f_updated_at, dict_get d f_name
  with
  | Some (VUUID i), Some (VMetadata m), Some (VDatetime c), Some (VDatetime u),
    Some (VStr n) => Ok (mk i m c u n)
  | _, _, _, _, _ => Raise ValueError
  end.

End LibraryModel.

#[export] Instance Model_Library : Model LibraryModel.t := {|
  record_of := fun x => Library (LibraryModel.id x);
  content_of := fun _ => [];
  model_dump := LibraryModel.dump;
  model_validate := LibraryModel.validate;
  model_dump_id := fun x => eq_refl;
  model_validate_id := ltac:(
    unfold LibraryModel.validate; intros d x u Hv Hid; rewrite Hid in Hv;
    repeat match type of Hv with
           | match ?a with _ => _ end = _ => destruct a; try discriminate
           end;
    injection Hv as <-; reflexivity)
|}.

(** api.py: [CreateChunkRequest] *)
Module CreateChunkRequest.
Record t : Type := mk {
  content : str;
  embedding : option vec;
  metadata : Metadata;
  document_id : UUID
}.
End CreateChunkRequest.

(** What a handler does: it returns a body, raises an [HTTPException], or
    lets an exception through (FastAPI then answers 500). *)
Inductive response (A : Type) : Type :=
| Respond (body : A)
| HTTPException (status_code : Z)
| Uncaught (e : exn).
Arguments HTTPException {A} status_code.
Arguments Uncaught {A} e.

Definition respond {A} (r : result A) : response A :=
  match r with
  | Ok a => Respond a
  | Raise e => Uncaught e
  end.

(** The [collection] of a [QueryRequest]. *)
Inductive CollectionName : Set := name_chunks | name_documents | name_libraries.

(** The state of the application: the three data directories, and the
    indexes of the two [Collection] objects for chunks.  [collections]
    holds the object the module made when it was imported; the global
    [chunks] names the same object until [_reset] binds it to a new one,
    which has no index ([chunks_rebound]).  Both read and write the same
    directory.  The collections of documents and libraries never have an
    index.  What [uuid4()] and [datetime.utcnow()] answer when a handler
    builds a [Chunk] are arguments of the handler. *)
Module App.

Record t : Type := mk {
  data_chunks : dict UUID ChunkModel.t;
  data_documents : dict UUID DocumentModel.t;
  data_libraries : dict UUID LibraryModel.t;
  collections_chunks : dict IndexType.t Index;
  chunks_rebound : option (dict IndexType.t Index)
}.

Section Handlers.
Context `{Sklearn}.
Variable scandir : list UUID -> list UUID.
Variable get_embedding : str -> vec.

(** The lines of the module that run at import, on the directories as
    they are found. *)
Definition startup (files : dict UUID ChunkModel.t)
  (documents : dict UUID DocumentModel.t) (libraries : dict UUID LibraryModel.t)
  : t * result unit :=
  let (chunks, r) := chunks scandir files in
  (mk (Collection.files chunks) documents libraries (Collection.indexes chunks)
      None, r).

(** The object the global [chunks] names, and the state after a method
    of it has run. *)
Definition chunks_object (app : t) : Collection.t ChunkModel.t :=
  Collection.mk (data_chunks app)
    match chunks_rebound app with
    | Some indexes => indexes
    | None => collections_chunks app
    end.

Definition with_chunks (app : t) (chunks : Collection.t ChunkModel.t) : t :=
  match chunks_rebound app with
  | Some _ =>
      mk (Collection.files chunks) (data_documents app) (data_libraries app)
         (collections_chunks app) (Some (Collection.indexes chunks))
  | None =>
      mk (Collection.files chunks) (data_documents app) (data_libraries app)
         (Collection.indexes chunks) None
  end.

Definition documents_object (app : t) : Collection.t DocumentModel.t :=
  Collection.mk (data_documents app) [].

Definition libraries_object (app : t) : Collection.t LibraryModel.t :=
  Collection.mk (data_libraries app) [].

(** [_reset], which [reset] calls: the data directory is removed and made
    anew, and the three globals are bound to new collections. *)
Definition reset (app : t) : t * response unit :=
  (mk [] [] [] (collections_chunks app) (Some []), Respond tt).

Definition create_library (app : t) (library : LibraryModel.t)
  : t * response LibraryModel.t :=
  if Collection.exists_ (libraries_object app) (LibraryModel.id library)
  then (app, HTTPException 409)
  else
    let (libraries, r) := Collection.add (libraries_object app) library in
    (mk (data_chunks app) (data_documents app) (Collection.files libraries)
        (collections_chunks app) (chunks_rebound app), respond r).

Definition create_document (app : t) (document : DocumentModel.t)
  : t * response DocumentModel.t :=
  if negb (Collection.exists_ (libraries_object app)
             (DocumentModel.library_id document))
  then (app, HTTPException 404)
  else if Collection.exists_ (documents_object app) (DocumentModel.id document)
  then (app, HTTPException 409)
  else
    let (documents, r) := Collection.add (documents_object app) document in
    (mk (data_chunks app) (Collection.files documents) (data_libraries app)
        (collections_chunks app) (chunks_rebound app), respond r).

Definition create_chunk (uuid4 : UUID) (created_at updated_at : datetime)
  (app : t) (chunk_request : CreateChunkRequest.t)
  : t * response ChunkModel.t :=
  match Collection.get (documents_object app)
          (CreateChunkRequest.document_id chunk_request) with
  | None => (app, HTTPException 404)
  | Some document =>
      if negb (Collection.exists_ (libraries_object app)
                 (DocumentModel.library_id document))
      then (app, HTTPException 404)
      else
        let embedding :=
          match CreateChunkRequest.embedding chunk_request with
          | Some embedding => embedding
          | None => get_embedding (CreateChunkRequest.content chunk_request)
          end in
        let chunk :=
          ChunkModel.mk uuid4 (CreateChunkRequest.metadata chunk_request)
            created_at updated_at (CreateChunkRequest.content chunk_request)
            (Some embedding) (CreateChunkRequest.document_id chunk_request) in
        let (chunks, r) := Collection.add (chunks_object app) chunk in
        (with_chunks app chunks, respond r)
  end.

Definition delete_chunk (app : t) (chunk_id : UUID) : t * response unit :=
  let (chunks, r) := Collection.delete (chunks_object app) chunk_id in
  (with_chunks app chunks,
   match r with
   | Ok true => Respond tt
   | Ok false => HTTPException 404
   | Raise e => Uncaught e
   end).

(** [for chunk_id in chunks_to_delete: chunks.delete(chunk_id)] *)
Fixpoint delete_chunks (app : t) (chunks_to_delete : list UUID)
  : t * result unit :=
  match chunks_to_delete with
  | [] => (app, Ok tt)
  | chunk_id :: rest =>
      let (chunks, r) := Collection.delete (chunks_object app) chunk_id in
      match r with
      | Raise e => (with_chunks app chunks, Raise e)
      | Ok _ => delete_chunks (with_chunks app chunks) rest
      end
  end.

Definition delete_document (app : t) (document_id : UUID) : t * response unit :=
  let (documents, r) := Collection.delete (documents_object app) document_id in
  let app := mk (data_chunks app) (Collection.files documents)
                (data_libraries app) (collections_chunks app)
                (chunks_rebound app) in
  match r with
  | Raise e => (app, Uncaught e)
  | Ok false => (app, HTTPException 404)
  | Ok true =>
      let chunks_to_delete :=
        map ChunkModel.id
            (filter (fun chunk =>
                       N.eqb (ChunkModel.document_id chunk) document_id)
                    (Collection.list_all scandir (chunks_object app))) in
      let (app, r) := delete_chunks app chunks_to_delete in
      (app, respond r)
  end.

(** [query]: [collections] still holds the collections made at import.
    The answer is [None] when the loop of the NSW search was given too
    little fuel. *)
Definition query (fuel : nat) (app : t) (collection : CollectionName)
  (index_type : IndexType.t) (text : str) (limit : Z)
  : response (option (list FullSearchResult.t)) :=
  match collection with
  | name_chunks =>
      let collection := Collection.mk (data_chunks app) (collections_chunks app) in
      if negb (dict_mem (Collection.indexes collection) index_type)
      then HTTPException 400
      else respond (run get_embedding
                        (Collection.search fuel collection index_type text limit))
  | name_documents | name_libraries => HTTPException 400
  end.

End Handlers.
End App.

(** ** Part II: the notions the properties are stated with

    The claims of the specification as propositions, what they are
    measured against, and the indexes and records of the examples. *)

Unset Implicit Arguments.

Module BF := BruteForceCosineSimilarityIndex.
Module IVF := IVFIndex.
Module NSW := NSWIndex.

(** *** Orders *)

(** [a] ranks no lower than [b]. *)
Definition ranks_before (a b : SearchResult) : Prop :=
  (confidence b <=? confidence a) = true.

Definition no_nan (l : list SearchResult) : Prop :=
  forall x, In x l -> PrimFloat.is_nan (confidence x) = false.

Definition dist_le (x y : nat * float) : Prop := (snd x <=? snd y) = true.

Definition argsort_pairs (ps : list (nat * float)) : list (nat * float) :=
  fold_right argsort_insert [] ps.

(** *** Brute force *)

(** The stored vectors the scan does not skip. *)
Definition nonzero_norm (d : dict UUID vec) : dict UUID vec :=
  filter (fun p => negb (np_linalg_norm (snd p) =? 0)) d.

(** The [(id, similarity)] pair of one stored vector. *)
Definition score (q : vec) (p : UUID * vec) : result SearchResult :=
  c <- guarded_cosine q (snd p) ;; Ok (mkSearchResult (fst p) c).

(** The claim of the specification at one search: the provider is asked
    once, and the answer is the first [min(k, n)] entries of the
    [(id, similarity)] pairs of the [n] stored vectors of non-zero norm,
    ranked by non-increasing similarity, so that no pair left out ranks
    above a returned one. *)
Definition BF_search_exact_at (self : BF.t) (get_embedding : str -> vec)
  (query : str) (limit : Z) : Prop :=
  let q := get_embedding query in
  let stored := nonzero_norm (BF.embeddings self) in
  let n := Nat.min (Z.to_nat limit) (length stored) in
  exists scored ranked,
    mapM (score q) stored = Ok scored /\
    Permutation ranked scored /\
    StronglySorted ranks_before ranked /\
    provider_calls (BF.search self query limit) = [query] /\
    run get_embedding (BF.search self query limit) = Ok (firstn n ranked) /\
    (forall a b, In a (firstn n ranked) -> In b (skipn n ranked) ->
                 ranks_before a b).

(** Scenario S1 of the specification: A, B, C and the query [1, 0, 0]. *)
Definition s1_index : BF.t :=
  BF.mk [(1%N, [1; 0; 0]); (2%N, [0; 1; 0]);
         (3%N, [0.5; 0.5; 0])].

Definition s1_provider (_ : str) : vec := [1; 0; 0].

(** An index holding a vector of dimension 2, queried in dimension 3. *)
Definition bf_two_dim : BF.t := BF.mk [(1%N, [1; 0])].

(** An index holding a vector with an infinite component. *)
Definition bf_with_inf : BF.t :=
  BF.mk [(1%N, [1; 1]); (2%N, [infinity; 0]); (3%N, [1; 0])].

Definition unit_x (_ : str) : vec := [1; 0].

(** *** An estimator to run the examples with

    Centres are the first [n] rows, a row is labelled by its nearest centre
    (the first one among equally near centres).  On the inputs of the
    examples below, where there are as many distinct rows as clusters, this
    is the partition k-means converges to, up to the numbering of the
    clusters. *)

Definition sq_dist (c x : vec) : float :=
  fold_left (fun s ab => s + (fst ab - snd ab) * (fst ab - snd ab)) (combine c x) 0.

Fixpoint argmin_from (best : nat) (best_d : float) (i : nat) (ds : list float) : nat :=
  match ds with
  | [] => best
  | d :: ds' =>
      if d <? best_d then argmin_from i d (S i) ds'
      else argmin_from best best_d (S i) ds'
  end.

Definition np_argmin (ds : list float) : nat :=
  match ds with
  | [] => 0%nat
  | d :: ds' => argmin_from 0 d 1 ds'
  end.

Definition first_rows_nearest (centers : list vec) (x : vec) : nat :=
  np_argmin (map (fun c => sq_dist c x) centers).

Definition first_rows_lloyd (n : nat) (X : list vec) : list vec * list nat :=
  (firstn n X, map (first_rows_nearest (firstn n X)) X).

#[local] Instance first_rows : Sklearn := {|
  lloyd := first_rows_lloyd;
  nearest_center := first_rows_nearest
|}.

(** *** IVF *)

(** A trained, non-empty IVF index: one cluster holding one vector. *)
Definition ivf_one : IVF.t :=
  IVF.mk 1 (Some (Fitted [[1; 0]] 2)) [(0%nat, [7%N])] [(7%N, [1; 0])].

(** [item_id] is in the member list of cluster [c]. *)
Definition listed_in (self : IVF.t) (c : nat) (item_id : UUID) : Prop :=
  exists members,
    dict_get (IVF.cluster_assignments self) c = Some members /\ In item_id members.

(** The distances [search] sorts, and the clusters it probes. *)
Definition cluster_dists (self : IVF.t) (q : vec) : list float :=
  match IVF.kmeans self with
  | Some (Fitted centers _) =>
      match mapM (fun c => np_dist c q) centers with
      | Ok ds => ds
      | Raise _ => []
      end
  | _ => []
  end.

Definition probed_clusters (self : IVF.t) (q : vec) : list nat :=
  IVF.nearest_clusters self (cluster_dists self q).

(** The claim of the specification, in its words: every returned id
    belongs to a probed cluster and to no cluster that was not probed. *)
Definition returned_ids_only_in_probed `{Sklearn} (self : IVF.t)
  (get_embedding : str -> vec) (query : str) (limit : Z) : Prop :=
  forall rs, run get_embedding (IVF.search self query limit) = Ok rs ->
  forall r, In r rs ->
    (exists c, In c (probed_clusters self (get_embedding query))
               /\ listed_in self c (id r)) /\
    (forall c, listed_in self c (id r) ->
               In c (probed_clusters self (get_embedding query))).

(** Four clusters around four stored points; the chunk 5 was added twice,
    first next to cluster 0, then next to cluster 2. *)
Definition ivf_relisted : IVF.t :=
  IVF.mk 100 (Some (Fitted [[1; 0]; [0; 1]; [-1; 0]; [0; -1]] 2))
    [(0%nat, [1%N; 5%N]); (1%nat, [2%N]); (2%nat, [3%N; 5%N]); (3%nat, [4%N])]
    [(1%N, [1; 0]); (2%N, [0; 1]); (3%N, [-1; 0]); (4%N, [0; -1]);
     (5%N, [-1; 0.5])].

Definition four_points : list DataRecord :=
  [Chunk 1 (Some [1; 0]); Chunk 2 (Some [0; 1]);
   Chunk 3 (Some [-1; 0]); Chunk 4 (Some [0; -1])].

Definition near_cluster0 (_ : str) : vec := [1; 0.5].

(** The same search on the index before chunk 5 was added. *)
Definition ivf_four : IVF.t :=
  IVF.mk 100 (Some (Fitted [[1; 0]; [0; 1]; [-1; 0]; [0; -1]] 2))
    [(0%nat, [1%N]); (1%nat, [2%N]); (2%nat, [3%N]); (3%nat, [4%N])]
    [(1%N, [1; 0]); (2%N, [0; 1]); (3%N, [-1; 0]); (4%N, [0; -1])].

(** The default index after [rebuild] on two chunks, the zero vector
    (chunk 1) and [1, 1] (chunk 2): two clusters of one member. *)
Definition ivf_with_zero : IVF.t :=
  IVF.mk 100 (Some (Fitted [[0; 0]; [1; 1]] 2))
         [(0%nat, [1%N]); (1%nat, [2%N])]
         [(1%N, [0; 0]); (2%N, [1; 1])].

Definition half_x (_ : str) : vec := [0.5; 0].

(** *** NSW *)

(** The traversal as the specification words it: the chosen node is
    expanded first, and the loop stops when no candidate is left, or when
    the results number at least [k] and the best remaining candidate is
    less similar than the node just chosen. *)
Definition spec_stop (best_candidates : list SearchResult) (limit : Z)
  (similarity : float) (candidates : list NSW.candidate) : bool :=
  match candidates with
  | [] => true
  | c :: cs =>
      (limit <=? Z.of_nat (length best_candidates))%Z
      && (fst (NSW.py_max c cs) <? similarity)
  end.

Fixpoint spec_traverse (fuel : nat) (self : NSW.t) (query_vec : vec) (limit : Z)
  (visited : list UUID) (candidates : list NSW.candidate)
  (best_candidates : list SearchResult) : option (result (list SearchResult)) :=
  match candidates with
  | [] => Some (Ok best_candidates)
  | c :: cs =>
      match fuel with
      | O => None
      | S fuel' =>
          let (similarity, current_id) := NSW.py_max c cs in
          let candidates :=
            NSW.remove_candidate candidates (similarity, current_id) in
          let best_candidates :=
            best_candidates ++ [mkSearchResult current_id similarity] in
          let neighbor_ids :=
            match dict_get (NSW.graph self) current_id with
            | Some s => s
            | None => []
            end in
          match NSW.explore self query_vec neighbor_ids visited candidates with
          | Raise e => Some (Raise e)
          | Ok (visited, candidates) =>
              if spec_stop best_candidates limit similarity candidates
              then Some (Ok best_candidates)
              else spec_traverse fuel' self query_vec limit visited candidates
                                 best_candidates
          end
      end
  end.

(** Scenario S1 in an NSW index: the three chunks, each linked to the two
    others. *)
Definition s1_chunks : list DataRecord :=
  [Chunk 1 (Some [1; 0; 0]); Chunk 2 (Some [0; 1; 0]);
   Chunk 3 (Some [0.5; 0.5; 0])].

Definition nsw_s1 : NSW.t :=
  NSW.mk [(1%N, [1; 0; 0]); (2%N, [0; 1; 0]); (3%N, [0.5; 0.5; 0])]
         [(1%N, [3%N; 2%N]); (2%N, [3%N; 1%N]); (3%N, [1%N; 2%N])] 5 100.

(** Seven chunks for an index with the default [n_neighbors = 5]: chunk 7
    keeps chunk 6 among its five nearest, chunk 6 does not keep chunk 7. *)
Definition seven_chunks : list DataRecord :=
  [Chunk 1 (Some [8; 0]); Chunk 2 (Some [8; 1]); Chunk 3 (Some [8; 2]);
   Chunk 4 (Some [8; 3]); Chunk 5 (Some [8; 4]); Chunk 6 (Some [8; 5]);
   Chunk 7 (Some [-4; 8])].

(** *** Sequences of calls *)

(** The claim of the specification for the brute-force index: the call
    fails and the state is the one before. *)
Definition BF_add_rejects (self : BF.t) (item : DataRecord) : Prop :=
  exists e, BF.add self item = (self, Raise e).

(** The keys after [d[k] = v], from the keys before. *)
Fixpoint keys_set {K} `{Key K} (ks : list K) (k : K) : list K :=
  match ks with
  | [] => [k]
  | k' :: ks' => if key_eqb k' k then ks else k' :: keys_set ks' k
  end.

Inductive NSW_op : Type :=
| Rebuild (items : list DataRecord)
| Add (item : DataRecord)
| Remove (item_id : UUID).

Definition NSW_step (self : NSW.t) (o : NSW_op) : NSW.t * result unit :=
  match o with
  | Rebuild items => NSW.rebuild self items
  | Add item => NSW.add self item
  | Remove item_id => NSW.remove self item_id
  end.

(** The index after the calls [ops]; a call that raised leaves the index
    as it was when the exception left the method. *)
Fixpoint NSW_run (self : NSW.t) (ops : list NSW_op) : NSW.t :=
  match ops with
  | [] => self
  | o :: ops' => NSW_run (fst (NSW_step self o)) ops'
  end.

(** Every call of [ops] returned normally. *)
Fixpoint NSW_all_return (self : NSW.t) (ops : list NSW_op) : Prop :=
  match ops with
  | [] => True
  | o :: ops' =>
      snd (NSW_step self o) = Ok tt /\ NSW_all_return (fst (NSW_step self o)) ops'
  end.

(** The claim of the specification: the two maps have the same keys, and a
    non-empty embedding map comes with an entry point. *)
Definition NSW_maps_agree (self : NSW.t) : Prop :=
  (forall k, In k (keys (NSW.embeddings self)) <-> In k (keys (NSW.graph self))) /\
  (NSW.embeddings self <> [] ->
   exists entry_point, hd_error (keys (NSW.graph self)) = Some entry_point).

(** Two chunks whose embeddings differ in dimension. *)
Definition mixed_chunks : list DataRecord :=
  [Chunk 1 (Some [1; 0]); Chunk 2 (Some [1; 0; 0])].

(** [item_id] is in some member list. *)
Definition IVF_member (self : IVF.t) (item_id : UUID) : Prop :=
  exists c members,
    In (c, members) (IVF.cluster_assignments self) /\ In item_id members.

(** The claim of the specification for the IVF index. *)
Definition IVF_add_remove_cancels `{Sklearn} (self : IVF.t) (r : DataRecord)
  : Prop :=
  let self' := fst (IVF.remove (fst (IVF.add self r)) (item_id r)) in
  forall (get_embedding : str -> vec) (query : str) (limit : Z),
    run get_embedding (IVF.search self' query limit)
    = run get_embedding (IVF.search self query limit).

(** Three centroids; the cluster of the third one never had a member. *)
Definition ivf_two_keys : IVF.t :=
  IVF.mk 3 (Some (Fitted [[1; 0]; [0; 1]; [-1; 0]] 2))
    [(0%nat, [1%N]); (1%nat, [2%N])]
    [(1%N, [1; 0]); (2%N, [0; 1])].

Definition near_cluster2 (_ : str) : vec := [-1; 0.5].

(** *** Further notions *)

(** The last record of a snapshot that carries an embedding under [i]. *)
Definition last_valid (items : list DataRecord) (i : UUID) : option vec :=
  match find (fun item => N.eqb (item_id item) i
                          && match valid_embedding item with
                             | Some _ => true
                             | None => false
                             end) (rev items) with
  | Some item => valid_embedding item
  | None => None
  end.

(** No node lists itself among its out-neighbours. *)
Definition NSW_no_self_loop (graph : dict UUID (list UUID)) : Prop :=
  forall k s, In (k, s) graph -> ~ In k s.

(** The stored vectors [_find_nearest_neighbors] scores for the node [u]. *)
Definition NSW_others (embeddings : dict UUID vec) (u : UUID) : dict UUID vec :=
  filter (fun p => negb (N.eqb (fst p) u)
                   && negb (np_linalg_norm (snd p) =? 0)) embeddings.

Inductive IVF_op : Type :=
| IVF_Rebuild (items : list DataRecord)
| IVF_Add (item : DataRecord)
| IVF_Remove (item_id : UUID).

Definition IVF_step `{Sklearn} (self : IVF.t) (o : IVF_op) : IVF.t * result unit :=
  match o with
  | IVF_Rebuild items => IVF.rebuild self items
  | IVF_Add item => IVF.add self item
  | IVF_Remove item_id => IVF.remove self item_id
  end.

(** The index after the calls [ops], raising ones included. *)
Fixpoint IVF_run `{Sklearn} (self : IVF.t) (ops : list IVF_op) : IVF.t :=
  match ops with
  | [] => self
  | o :: ops' => IVF_run (fst (IVF_step self o)) ops'
  end.

(** Every id with a stored vector is in some member list. *)
Definition IVF_all_listed (self : IVF.t) : Prop :=
  forall i, In i (keys (IVF.embeddings self)) -> IVF_member self i.

(** How many times [item_id] is listed, over all member lists. *)
Definition IVF_listings (ca : dict nat (list UUID)) (item_id : UUID) : nat :=
  fold_right (fun p n => (count_occ N.eq_dec (snd p) item_id + n)%nat) 0%nat ca.

(** A call that gives the index nothing to train on: [add], [remove], or
    [rebuild] on a snapshot without embeddings. *)
Definition IVF_untrained_op (o : IVF_op) : bool :=
  match o with
  | IVF_Rebuild items => is_empty (IVF.valid_items items)
  | _ => true
  end.

(** *** Collections *)

(** Every file holds a record whose [id] is the one in the file name. *)
Definition Collection_well_formed {T} `{Model T} (files : dict UUID T) : Prop :=
  NoDup (keys files) /\
  forall k x, In (k, x) files -> item_id (record_of x) = k.

(** The embedding map holds the embeddings of the stored records, and
    nothing else. *)
Definition Collection_mirrors {T} `{Model T} (files : dict UUID T)
  (embeddings : dict UUID vec) : Prop :=
  forall i, dict_get embeddings i
            = match dict_get files i with
              | Some x => valid_embedding (record_of x)
              | None => None
              end.

Inductive Collection_op (T : Type) : Type :=
| CAdd (item : T)
| CUpdate (utcnow : datetime) (item_id : UUID) (update_data : dict field value)
| CDelete (item_id : UUID).
Arguments CAdd {T} item.
Arguments CUpdate {T} utcnow item_id update_data.
Arguments CDelete {T} item_id.

Definition Collection_step {T} `{Model T} `{Sklearn} (self : Collection.t T)
  (o : Collection_op T) : Collection.t T :=
  match o with
  | CAdd item => fst (Collection.add self item)
  | CUpdate utcnow item_id update_data =>
      fst (Collection.update utcnow self item_id update_data)
  | CDelete item_id => fst (Collection.delete self item_id)
  end.

Fixpoint Collection_run {T} `{Model T} `{Sklearn} (self : Collection.t T)
  (ops : list (Collection_op T)) : Collection.t T :=
  match ops with
  | [] => self
  | o :: ops' => Collection_run (Collection_step self o) ops'
  end.

(** Every [add] of [ops] brings a record whose id is not stored yet (the
    handlers of main.py answer 409 otherwise, or draw a new id). *)
Fixpoint Collection_adds_new {T} `{Model T} `{Sklearn} (self : Collection.t T)
  (ops : list (Collection_op T)) : Prop :=
  match ops with
  | [] => True
  | o :: ops' =>
      match o with
      | CAdd item =>
          ~ In (item_id (record_of item)) (keys (Collection.files self))
      | _ => True
      end /\ Collection_adds_new (Collection_step self o) ops'
  end.

(** A collection whose one index is a brute-force index that mirrors the
    files. *)
Definition Collection_consistent {T} `{Model T} (index_type : IndexType.t)
  (self : Collection.t T) : Prop :=
  Collection_well_formed (Collection.files self) /\
  exists index,
    Collection.indexes self = [(index_type, Cosine index)] /\
    NoDup (keys (BF.embeddings index)) /\
    Collection_mirrors (Collection.files self) (BF.embeddings index).

(** A chunk for the examples. *)
Definition chunk_a : ChunkModel.t :=
  ChunkModel.mk 1%N [] 10%Z 10%Z [97%N] (Some [1; 0]) 7%N.

Definition chunk_b : ChunkModel.t :=
  ChunkModel.mk 2%N [] 11%Z 11%Z [98%N] (Some [0; 1]) 7%N.

Definition same_order (l : list UUID) : list UUID := l.

(** *** The application *)

(** The ids an index holds a vector for. *)
Definition Index_ids (index : Index) : list UUID :=
  match index with
  | Cosine i => keys (BF.embeddings i)
  | Ivf i => keys (IVF.embeddings i)
  | Nsw i => keys (NSW.embeddings i)
  end.

Definition indexed_ids (indexes : dict IndexType.t Index) : list UUID :=
  flat_map (fun p => Index_ids (snd p)) indexes.

Inductive App_call : Type :=
| Call_reset
| Call_create_library (library : LibraryModel.t)
| Call_create_document (document : DocumentModel.t)
| Call_create_chunk (uuid4 : UUID) (created_at updated_at : datetime)
    (chunk_request : CreateChunkRequest.t)
| Call_delete_chunk (chunk_id : UUID)
| Call_delete_document (document_id : UUID).

Definition App_step `{Sklearn} (scandir : list UUID -> list UUID)
  (get_embedding : str -> vec) (app : App.t) (call : App_call) : App.t :=
  match call with
  | Call_reset => fst (App.reset app)
  | Call_create_library library => fst (App.create_library app library)
  | Call_create_document document => fst (App.create_document app document)
  | Call_create_chunk uuid4 created_at updated_at chunk_request =>
      fst (App.create_chunk get_embedding uuid4 created_at updated_at app
             chunk_request)
  | Call_delete_chunk chunk_id => fst (App.delete_chunk app chunk_id)
  | Call_delete_document document_id =>
      fst (App.delete_document scandir app document_id)
  end.

Fixpoint App_run `{Sklearn} (scandir : list UUID -> list UUID)
  (get_embedding : str -> vec) (app : App.t) (calls : list App_call) : App.t :=
  match calls with
  | [] => app
  | call :: calls' =>
      App_run scandir get_embedding (App_step scandir get_embedding app call)
              calls'
  end.

(** No id that [uuid4] draws for a new chunk is among [ids]. *)
Definition App_new_ids (ids : list UUID) (calls : list App_call) : Prop :=
  forall uuid4 created_at updated_at chunk_request,
    In (Call_create_chunk uuid4 created_at updated_at chunk_request) calls ->
    ~ In uuid4 ids.

(** A library, a document of it and a request for a chunk of that
    document. *)
Definition library_l : LibraryModel.t := LibraryModel.mk 30%N [] 1%Z 1%Z [76%N].

Definition document_d : DocumentModel.t :=
  DocumentModel.mk 7%N [] 2%Z 2%Z [68%N] 30%N.

Definition request_c : CreateChunkRequest.t :=
  CreateChunkRequest.mk [99%N] (Some [1; 0]) [] 7%N.

(** ** Part III: properties *)

(** *** The order on floats *)

Module PyFloat.

Lemma is_nan_SF (x : float) :
  PrimFloat.is_nan x = match Prim2SF x with S754_nan => true | _ => false end.
Proof.
  unfold PrimFloat.is_nan. rewrite eqb_spec. unfold SFeqb.
  destruct (Prim2SF x) as [s| s| |s m e]; simpl;
    try reflexivity; try (destruct s; reflexivity).
  destruct s; rewrite Z.compare_refl, Pos.compare_cont_refl; reflexivity.
Qed.

Ltac sf_cases :=
  repeat match goal with
  | s : bool |- _ => destruct s
  | |- context [Z.compare ?a ?b] =>
      let E := fresh in destruct (Z.compare_spec a b) as [E|E|E]; simpl
  | |- context [Pos.compare_cont Eq ?a ?b] =>
      change (Pos.compare_cont Eq a b) with (Pos.compare a b);
      let E := fresh in destruct (Pos.compare_spec a b) as [E|E|E]; simpl
  end.

Ltac sf_solve :=
  simpl; try congruence; sf_cases; simpl; intros; subst;
  try congruence; try reflexivity; try lia.

Lemma SF_ltb_false_leb (a b : spec_float) :
  a <> S754_nan -> b <> S754_nan -> SFltb a b = false -> SFleb b a = true.
Proof.
  unfold SFltb, SFleb.
  destruct a as [s| s| |s m e], b as [s'| s'| | s' m' e']; simpl;
    try congruence; intros _ _; sf_solve.
Qed.

Lemma SF_leb_trans (a b c : spec_float) :
  SFleb a b = true -> SFleb b c = true -> SFleb a c = true.
Proof.
  unfold SFleb.
  destruct a as [s| s| |s m e], b as [s'| s'| | s' m' e'],
           c as [s''| s''| | s'' m'' e'']; sf_solve.
Qed.

Lemma SF_zero_ltb_l (a b : spec_float) :
  SFeqb a (S754_zero false) = true -> SFltb a b = SFltb (S754_zero false) b.
Proof.
  unfold SFeqb, SFltb.
  destruct a as [s| s| |s m e], b as [s'| s'| | s' m' e']; simpl;
    try congruence; try reflexivity; destruct s; simpl; congruence.
Qed.

Lemma SF_zero_ltb_r (a b : spec_float) :
  SFeqb a (S754_zero false) = true -> SFltb b a = SFltb b (S754_zero false).
Proof.
  unfold SFeqb, SFltb.
  destruct a as [s| s| |s m e], b as [s'| s'| | s' m' e']; simpl;
    try congruence; try reflexivity; destruct s; simpl; congruence.
Qed.

Lemma nan_SF (x : float) : PrimFloat.is_nan x = false -> Prim2SF x <> S754_nan.
Proof. rewrite is_nan_SF. destruct (Prim2SF x); congruence. Qed.

(** Away from [nan], "not [a < b]" is "[b <= a]". *)
Lemma ltb_false_leb (a b : float) :
  PrimFloat.is_nan a = false -> PrimFloat.is_nan b = false ->
  (a <? b) = false -> (b <=? a) = true.
Proof.
  intros Ha Hb. rewrite ltb_spec, leb_spec.
  apply SF_ltb_false_leb; now apply nan_SF.
Qed.

Lemma leb_trans (a b c : float) :
  (a <=? b) = true -> (b <=? c) = true -> (a <=? c) = true.
Proof. rewrite !leb_spec. apply SF_leb_trans. Qed.

Lemma ltb_leb (a b : float) : (a <? b) = true -> (a <=? b) = true.
Proof.
  rewrite ltb_spec, leb_spec. unfold SFltb, SFleb.
  destruct (SFcompare (Prim2SF a) (Prim2SF b)) as [[]|]; congruence.
Qed.

Lemma Prim2SF_zero : Prim2SF 0 = S754_zero false.
Proof. reflexivity. Qed.

(** [x or 0.0] compares as [x] does. *)
Lemma or_zero_ltb_l (a b : float) :
  ((if a =? 0 then 0 else a) <? b) = (a <? b).
Proof.
  destruct (a =? 0) eqn:E; trivial.
  rewrite eqb_spec, Prim2SF_zero in E. rewrite !ltb_spec, Prim2SF_zero.
  symmetry. now apply SF_zero_ltb_l.
Qed.

Lemma or_zero_ltb_r (a b : float) :
  (b <? (if a =? 0 then 0 else a)) = (b <? a).
Proof.
  destruct (a =? 0) eqn:E; trivial.
  rewrite eqb_spec, Prim2SF_zero in E. rewrite !ltb_spec, Prim2SF_zero.
  symmetry. now apply SF_zero_ltb_r.
Qed.

End PyFloat.

(** *** Sorting and slicing *)

Lemma sort_key_ltb (x y : SearchResult) :
  (sort_key x <? sort_key y) = (confidence x <? confidence y).
Proof.
  unfold sort_key. now rewrite PyFloat.or_zero_ltb_l, PyFloat.or_zero_ltb_r.
Qed.

Lemma insert_desc_perm (x : SearchResult) (l : list SearchResult) :
  Permutation (insert_desc x l) (x :: l).
Proof.
  induction l as [|y l IH]; simpl; [reflexivity|].
  destruct (sort_key x <? sort_key y); [|reflexivity].
  rewrite IH. apply perm_swap.
Qed.

Lemma sort_desc_perm (l : list SearchResult) : Permutation (sort_desc l) l.
Proof.
  induction l as [|x l IH]; simpl; [constructor|].
  rewrite insert_desc_perm. now constructor.
Qed.

Lemma insert_desc_sorted (x : SearchResult) (l : list SearchResult) :
  PrimFloat.is_nan (confidence x) = false -> no_nan l ->
  StronglySorted ranks_before l -> StronglySorted ranks_before (insert_desc x l).
Proof.
  intros Hx Hl Hs. induction Hs as [|y l Hs IH Hy]; simpl.
  - repeat constructor.
  - assert (Hny : PrimFloat.is_nan (confidence y) = false) by (apply Hl; now left).
    destruct (sort_key x <? sort_key y) eqn:E; rewrite sort_key_ltb in E.
    + constructor.
      * apply IH. intros z Hz. apply Hl. now right.
      * rewrite Forall_forall in *. intros z Hz.
        apply (Permutation_in _ (insert_desc_perm x l)) in Hz.
        destruct Hz as [<-|Hz]; [|now apply Hy].
        now apply PyFloat.ltb_leb.
    + assert (Hyx : ranks_before x y) by now apply PyFloat.ltb_false_leb.
      constructor; [now constructor|].
      constructor; [exact Hyx|].
      rewrite Forall_forall in *. intros z Hz. unfold ranks_before in *.
      eapply PyFloat.leb_trans; [now apply Hy | exact Hyx].
Qed.

Lemma sort_desc_sorted (l : list SearchResult) :
  no_nan l -> StronglySorted ranks_before (sort_desc l).
Proof.
  induction l as [|x l IH]; intros Hl; simpl; [constructor|].
  apply insert_desc_sorted.
  - apply Hl. now left.
  - intros z Hz. apply Hl. right.
    exact (Permutation_in _ (sort_desc_perm l) Hz).
  - apply IH. intros z Hz. apply Hl. now right.
Qed.

Lemma py_slice_to_nonneg {A} (l : list A) (limit : Z) :
  (0 <= limit)%Z ->
  py_slice_to l limit = firstn (Nat.min (Z.to_nat limit) (length l)) l.
Proof.
  intros Hk. unfold py_slice_to.
  destruct (Z.leb_spec 0 limit); [|lia].
  destruct (Nat.le_ge_cases (Z.to_nat limit) (length l)).
  - now rewrite Nat.min_l.
  - rewrite Nat.min_r by trivial. now rewrite !firstn_all2.
Qed.

Lemma in_skipn {A} (n : nat) (l : list A) (x : A) : In x (skipn n l) -> In x l.
Proof.
  intros Hx. rewrite <- (firstn_skipn n l). apply in_or_app. now right.
Qed.

Lemma in_firstn {A} (n : nat) (l : list A) (x : A) : In x (firstn n l) -> In x l.
Proof.
  intros Hx. rewrite <- (firstn_skipn n l). apply in_or_app. now left.
Qed.

Lemma StronglySorted_firstn_skipn {A} (R : A -> A -> Prop) (l : list A) (n : nat) :
  StronglySorted R l ->
  forall a b, In a (firstn n l) -> In b (skipn n l) -> R a b.
Proof.
  intros Hs. revert n. induction Hs as [|x l Hs IH Hx]; intros n a b Ha Hb.
  - destruct n; simpl in Ha; contradiction.
  - destruct n; simpl in Ha, Hb; [contradiction|].
    destruct Ha as [<-|Ha].
    + rewrite Forall_forall in Hx. apply Hx. exact (in_skipn _ _ _ Hb).
    + now apply (IH n).
Qed.

Lemma sorted_firstn_skipn (l : list SearchResult) (n : nat) :
  StronglySorted ranks_before l ->
  forall a b, In a (firstn n l) -> In b (skipn n l) -> ranks_before a b.
Proof. apply StronglySorted_firstn_skipn. Qed.

(** *** np.argsort *)

Lemma argsort_insert_perm (x : nat * float) (l : list (nat * float)) :
  Permutation (argsort_insert x l) (x :: l).
Proof.
  induction l as [|y l IH]; simpl; [reflexivity|].
  destruct (np_lt (snd y) (snd x)); [|reflexivity].
  rewrite IH. apply perm_swap.
Qed.

Lemma np_lt_ltb (a b : float) :
  PrimFloat.is_nan b = false -> np_lt a b = (a <? b).
Proof. intros Hb. unfold np_lt. rewrite Hb. simpl. apply orb_false_r. Qed.

Lemma argsort_insert_sorted (x : nat * float) (l : list (nat * float)) :
  PrimFloat.is_nan (snd x) = false ->
  (forall y, In y l -> PrimFloat.is_nan (snd y) = false) ->
  StronglySorted dist_le l -> StronglySorted dist_le (argsort_insert x l).
Proof.
  intros Hx Hl Hs. induction Hs as [|y l Hs IH Hy]; simpl.
  - repeat constructor.
  - assert (Hny : PrimFloat.is_nan (snd y) = false) by (apply Hl; now left).
    rewrite np_lt_ltb by exact Hx.
    destruct (snd y <? snd x) eqn:E.
    + constructor.
      * apply IH. intros z Hz. apply Hl. now right.
      * rewrite Forall_forall in *. intros z Hz.
        apply (Permutation_in _ (argsort_insert_perm x l)) in Hz.
        destruct Hz as [<-|Hz]; [|now apply Hy].
        now apply PyFloat.ltb_leb.
    + assert (Hxy : dist_le x y) by now apply PyFloat.ltb_false_leb.
      constructor; [now constructor|].
      constructor; [exact Hxy|].
      rewrite Forall_forall in *. intros z Hz. unfold dist_le in *.
      eapply PyFloat.leb_trans; [exact Hxy | now apply Hy].
Qed.

Lemma argsort_pairs_perm (ps : list (nat * float)) :
  Permutation (argsort_pairs ps) ps.
Proof.
  induction ps as [|x ps IH]; simpl; [constructor|].
  rewrite argsort_insert_perm. now constructor.
Qed.

Lemma argsort_pairs_sorted (ps : list (nat * float)) :
  (forall y, In y ps -> PrimFloat.is_nan (snd y) = false) ->
  StronglySorted dist_le (argsort_pairs ps).
Proof.
  induction ps as [|x ps IH]; intros Hl; simpl; [constructor|].
  apply argsort_insert_sorted.
  - apply Hl. now left.
  - intros z Hz. apply Hl. right.
    exact (Permutation_in _ (argsort_pairs_perm ps) Hz).
  - apply IH. intros z Hz. apply Hl. now right.
Qed.

Lemma in_combine_seq_nth (ds : list float) :
  forall s i d, In (i, d) (combine (seq s (length ds)) ds) ->
                (s <= i)%nat /\ nth (i - s) ds 0 = d.
Proof.
  induction ds as [|d0 ds IH]; simpl; intros s i d Hin; [contradiction|].
  destruct Hin as [E|Hin].
  - injection E as <- <-. rewrite Nat.sub_diag. split; [lia|reflexivity].
  - destruct (IH _ _ _ Hin) as [Hle <-]. split; [lia|].
    replace (i - s)%nat with (S (i - S s)) by lia. reflexivity.
Qed.

Lemma nth_in_combine_seq (ds : list float) :
  forall s j, (j < length ds)%nat ->
              In ((s + j)%nat, nth j ds 0) (combine (seq s (length ds)) ds).
Proof.
  induction ds as [|d0 ds IH]; simpl; intros s j Hj; [lia|].
  destruct j as [|j].
  - left. now rewrite Nat.add_0_r.
  - right. replace (s + S j)%nat with (S s + j)%nat by lia.
    apply IH. lia.
Qed.

(** The first [n] indices [np.argsort] lists are [n] nearest ones. *)
Lemma argsort_firstn_nearest (ds : list float) (n : nat) :
  (forall d, In d ds -> PrimFloat.is_nan d = false) ->
  forall i j, In i (firstn n (np_argsort ds)) ->
              (j < length ds)%nat -> ~ In j (firstn n (np_argsort ds)) ->
              (nth i ds 0 <=? nth j ds 0) = true.
Proof.
  intros Hnan i j Hi Hj Hnj. unfold np_argsort in *.
  fold (argsort_pairs (combine (seq 0 (length ds)) ds)) in *.
  set (ps := argsort_pairs (combine (seq 0 (length ds)) ds)) in *.
  assert (Hperm : Permutation ps (combine (seq 0 (length ds)) ds))
    by apply argsort_pairs_perm.
  assert (Hsorted : StronglySorted dist_le ps).
  { apply argsort_pairs_sorted. intros [k d] Hk. simpl.
    apply Hnan. exact (in_combine_r _ _ _ _ Hk). }
  rewrite firstn_map in Hi, Hnj. apply in_map_iff in Hi.
  destruct Hi as ([i' di] & Ei & Hi). simpl in Ei. subst i'.
  assert (Hjp : In (j, nth j ds 0) ps).
  { apply (Permutation_in _ (Permutation_sym Hperm)).
    exact (nth_in_combine_seq ds 0 j Hj). }
  rewrite <- (firstn_skipn n ps) in Hjp. apply in_app_or in Hjp.
  destruct Hjp as [Hjp|Hjp].
  - exfalso. apply Hnj. apply in_map_iff. exists (j, nth j ds 0). auto.
  - pose proof (StronglySorted_firstn_skipn dist_le ps n Hsorted _ _ Hi Hjp) as Hle.
    unfold dist_le in Hle. simpl in Hle.
    apply in_firstn in Hi. apply (Permutation_in _ Hperm) in Hi.
    destruct (in_combine_seq_nth ds 0 i di Hi) as [_ E].
    rewrite Nat.sub_0_r in E. now rewrite E.
Qed.

(** *** BruteForceCosineSimilarityIndex.search is exact *)

Lemma BF_similarities_scores (q : vec) (d : dict UUID vec) :
  BF.similarities q d = mapM (score q) (nonzero_norm d).
Proof.
  induction d as [|[i v] d IH]; simpl; [reflexivity|].
  destruct (np_linalg_norm v =? 0); simpl; [exact IH|].
  unfold score at 1. simpl.
  destruct (guarded_cosine q v); simpl; [|reflexivity].
  now rewrite IH.
Qed.

Lemma mapM_total {A B} (f : A -> result B) (l : list A) :
  (forall a, In a l -> exists b, f a = Ok b) ->
  exists bs, mapM f l = Ok bs /\ length bs = length l /\
             forall b, In b bs -> exists a, In a l /\ f a = Ok b.
Proof.
  induction l as [|a l IH]; intros Hf; simpl.
  - exists []. repeat split. intros b [].
  - destruct (Hf a (or_introl eq_refl)) as [b Hb].
    destruct IH as (bs & Hbs & Hlen & Hin).
    { intros a' Ha'. apply Hf. now right. }
    exists (b :: bs). rewrite Hb, Hbs. simpl. repeat split.
    + now rewrite Hlen.
    + intros b' [<-|Hb']; [exists a; auto|].
      destruct (Hin b' Hb') as (a' & Ha' & E). exists a'. auto.
Qed.

Lemma guarded_cosine_total (q v : vec) :
  length v = length q -> exists c, guarded_cosine q v = Ok c.
Proof.
  intros E. unfold guarded_cosine, np_dot.
  rewrite E, Nat.eqb_refl. simpl. eauto.
Qed.

(** C1, amended.  On a non-empty index and a query of non-zero norm,
    [search] is exact when the stored vectors of non-zero norm have the
    dimension of the embedded query, no similarity is [nan], and [k] is not
    negative. *)
Theorem BruteForce_search_exact
  (self : BF.t) (get_embedding : str -> vec) (query : str) (limit : Z) :
  let q := get_embedding query in
  let stored := nonzero_norm (BF.embeddings self) in
  BF.embeddings self <> [] ->
  (np_linalg_norm q =? 0) = false ->
  (forall p, In p stored -> length (snd p) = length q) ->
  (forall p c, In p stored -> guarded_cosine q (snd p) = Ok c ->
               PrimFloat.is_nan c = false) ->
  (0 <= limit)%Z ->
  BF_search_exact_at self get_embedding query limit.
Proof.
  intros q stored Hne Hq Hdim Hnan Hk. unfold BF_search_exact_at.
  fold q. fold stored.
  destruct (mapM_total (score q) stored) as (scored & Hs & Hlen & Hin).
  { intros p Hp. unfold score.
    destruct (guarded_cosine_total q (snd p) (Hdim p Hp)) as [c ->].
    simpl. eauto. }
  assert (Hnn : no_nan scored).
  { intros x Hx. destruct (Hin x Hx) as (p & Hp & E). unfold score in E.
    destruct (guarded_cosine q (snd p)) as [c|] eqn:Ec; simpl in E; [|discriminate].
    injection E as <-. simpl. exact (Hnan p c Hp Ec). }
  assert (He : is_empty (BF.embeddings self) = false).
  { destruct (BF.embeddings self); [congruence|reflexivity]. }
  exists scored, (sort_desc scored).
  assert (Hsorted := sort_desc_sorted _ Hnn).
  repeat split; trivial.
  - apply sort_desc_perm.
  - unfold BF.search. rewrite He. reflexivity.
  - unfold BF.search. rewrite He. simpl. fold q.
    rewrite Hq, BF_similarities_scores. fold stored. rewrite Hs. simpl.
    rewrite py_slice_to_nonneg by trivial.
    rewrite (Permutation_length (sort_desc_perm scored)), Hlen. reflexivity.
  - now apply sorted_firstn_skipn.
Qed.

Lemma BruteForce_search_exact_witness :
  BF_search_exact_at s1_index s1_provider [113%N] 2.
Proof.
  apply (BruteForce_search_exact s1_index s1_provider [113%N] 2%Z).
  - discriminate.
  - reflexivity.
  - intros p Hp. vm_compute in Hp.
    destruct Hp as [<-|[<-|[<-|[]]]]; reflexivity.
  - intros p c Hp. vm_compute in Hp.
    destruct Hp as [<-|[<-|[<-|[]]]]; vm_compute; intros E;
      injection E as <-; reflexivity.
  - lia.
Defined.

Example bf_two_dim_raises :
  run s1_provider (BF.search bf_two_dim [113%N] 5) = Raise ValueError.
Proof. vm_compute. reflexivity. Qed.

Example s1_negative_limit :
  exists c1 c3,
    run s1_provider (BF.search s1_index [113%N] (-1))
    = Ok [mkSearchResult 1 c1; mkSearchResult 3 c3].
Proof. vm_compute. do 2 eexists. reflexivity. Qed.

Example bf_with_inf_top1 :
  exists c1,
    run unit_x (BF.search bf_with_inf [113%N] 1) = Ok [mkSearchResult 1 c1]
    /\ (c1 <? 1) = true
    /\ guarded_cosine [1; 0] [1; 0] = Ok 1.
Proof. vm_compute. eexists. repeat split. Qed.

(** C1 as stated fails, although the index is not empty and the query has
    a non-zero norm: [np.dot] raises on a stored vector of another
    dimension; a negative [k] cuts from the end; and a [nan] similarity
    stays where it stood, here between 0.707 and 1.0. *)
Lemma BruteForce_search_not_exact :
  (BF.embeddings bf_two_dim <> [] /\
   (np_linalg_norm (s1_provider [113%N]) =? 0) = false /\
   ~ BF_search_exact_at bf_two_dim s1_provider [113%N] 5) /\
  ~ BF_search_exact_at s1_index s1_provider [113%N] (-1) /\
  ~ BF_search_exact_at bf_with_inf unit_x [113%N] 2.
Proof.
  split; [split; [discriminate|split; [reflexivity|]]|split].
  - intros (scored & ranked & Hs & _). vm_compute in Hs. discriminate.
  - intros (scored & ranked & _ & _ & _ & _ & Hrun & _).
    vm_compute in Hrun. discriminate.
  - intros (scored & ranked & _ & _ & Hsorted & _ & Hrun & _).
    vm_compute in Hrun.
    destruct ranked as [|a [|v rest]]; try discriminate.
    injection Hrun as <- <-.
    apply StronglySorted_inv in Hsorted. destruct Hsorted as [_ Hall].
    apply Forall_inv in Hall. vm_compute in Hall. discriminate.
Qed.

Example s1_top2 :
  run s1_provider (BF.search s1_index [113%N] 2)
  = Ok [mkSearchResult 1%N 1; mkSearchResult 3%N (0.5 / sqrt 0.5)].
Proof. vm_compute. reflexivity. Qed.

(** *** Which searches look at the text of the query *)

Lemma lstrip_whitespace (query : str) :
  forallb py_isspace query = true -> lstrip query = [].
Proof.
  induction query as [|c s IH]; simpl; [reflexivity|].
  destruct (py_isspace c); simpl; [exact IH|discriminate].
Qed.

Lemma strip_whitespace (query : str) :
  forallb py_isspace query = true -> strip query = [].
Proof.
  intros Hq. unfold strip. now rewrite (lstrip_whitespace _ Hq).
Qed.

Lemma is_empty_false {A} (l : list A) : l <> [] -> is_empty l = false.
Proof. destruct l; [congruence|reflexivity]. Qed.

(** C10. On a query that is empty or all whitespace, [IVFIndex.search]
    answers the empty list in every state without asking the embedding
    provider, while the brute-force and NSW searches of a non-empty index
    send the query to the provider whatever its text. *)
Theorem blank_query_only_IVF_checks `{Sklearn} (query : str) :
  forallb py_isspace query = true ->
  (forall (self : IVF.t) (limit : Z),
      IVF.search self query limit = Return (Ok [])) /\
  (forall (self : BF.t) (limit : Z),
      BF.embeddings self <> [] ->
      provider_calls (BF.search self query limit) = [query]) /\
  (forall (fuel : nat) (self : NSW.t) (limit : Z),
      NSW.embeddings self <> [] ->
      provider_calls (NSW.search fuel self query limit) = [query]).
Proof.
  intros Hq. repeat split.
  - intros self limit. unfold IVF.search.
    rewrite (strip_whitespace _ Hq). simpl. now destruct (IVF.kmeans self).
  - intros self limit Hne. unfold BF.search.
    now rewrite (is_empty_false _ Hne).
  - intros fuel self limit Hne. unfold NSW.search.
    now rewrite (is_empty_false _ Hne).
Qed.

Lemma blank_query_only_IVF_checks_witness :
  IVF.search ivf_one [32%N; 9%N; 160%N] 5 = Return (Ok []) /\
  provider_calls (BF.search s1_index [32%N; 9%N; 160%N] 5) = [[32%N; 9%N; 160%N]].
Proof.
  destruct (@blank_query_only_IVF_checks first_rows [32%N; 9%N; 160%N] eq_refl)
    as (Hivf & Hbf & _).
  split; [apply Hivf | apply Hbf; discriminate].
Defined.

(** *** IVFIndex.search only returns members of the probed clusters *)

Section IVFLocality.
Context `{Sklearn}.

Lemma IVF_candidates_listed (self : IVF.t) (clusters : list nat) (i : UUID) :
  In i (IVF.candidates self clusters) ->
  exists c, In c clusters /\ listed_in self c i.
Proof.
  unfold IVF.candidates. rewrite in_flat_map. intros (c & Hc & Hi).
  exists c. split; [exact Hc|]. unfold listed_in.
  destruct (dict_get (IVF.cluster_assignments self) c) as [members|];
    [eauto | contradiction].
Qed.

Lemma IVF_results_candidates (self : IVF.t) (q : vec) (cands : list UUID) :
  forall rs, IVF.results self q cands = Ok rs ->
  forall r, In r rs -> In (id r) cands.
Proof.
  induction cands as [|i cands IH]; simpl; intros rs Hrs r Hr.
  - injection Hrs as <-. contradiction.
  - destruct (dict_get (IVF.embeddings self) i) as [v|].
    + destruct (IVF.cosine q v) as [s|]; simpl in Hrs; [|discriminate].
      destruct (IVF.results self q cands) as [rs'|]; simpl in Hrs; [|discriminate].
      injection Hrs as <-. destruct Hr as [<-|Hr]; [now left|].
      right. exact (IH rs' eq_refl r Hr).
    + right. exact (IH rs Hrs r Hr).
Qed.

Lemma in_py_slice_to {A} (l : list A) (limit : Z) (x : A) :
  In x (py_slice_to l limit) -> In x l.
Proof. unfold py_slice_to. destruct (0 <=? limit)%Z; apply in_firstn. Qed.

(** What a search that reaches the ranking returned. *)
Lemma IVF_search_ranked (self : IVF.t) (get_embedding : str -> vec)
  (query : str) (limit : Z) (rs : list SearchResult) :
  run get_embedding (IVF.search self query limit) = Ok rs ->
  forall r, In r rs ->
  In (id r) (IVF.candidates self (probed_clusters self (get_embedding query))).
Proof.
  unfold IVF.search, probed_clusters, cluster_dists. intros Hrun r Hr.
  destruct (IVF.kmeans self) as [km|]; simpl in Hrun;
    [|injection Hrun as <-; contradiction].
  destruct (is_empty (strip query) || is_empty (IVF.embeddings self));
    simpl in Hrun; [injection Hrun as <-; contradiction|].
  destruct (KMeans_predict km (get_embedding query)); simpl in Hrun; [|discriminate].
  destruct km as [|d|centers d]; simpl in Hrun; [discriminate|discriminate|].
  destruct (mapM (fun c => np_dist c (get_embedding query)) centers) as [ds|];
    simpl in Hrun; [|discriminate].
  destruct (is_empty (IVF.candidates self (IVF.nearest_clusters self ds)));
    [injection Hrun as <-; contradiction|].
  destruct (IVF.results self (get_embedding query)
              (IVF.candidates self (IVF.nearest_clusters self ds)))
    as [rs'|] eqn:Ers; simpl in Hrun; [|discriminate].
  injection Hrun as <-. apply in_py_slice_to in Hr.
  apply (Permutation_in _ (sort_desc_perm rs')) in Hr.
  exact (IVF_results_candidates _ _ _ _ Ers r Hr).
Qed.

End IVFLocality.

Lemma length_np_argsort (ds : list float) : length (np_argsort ds) = length ds.
Proof.
  unfold np_argsort. rewrite length_map.
  fold (argsort_pairs (combine (seq 0 (length ds)) ds)).
  rewrite (Permutation_length (argsort_pairs_perm _)), length_combine, length_seq.
  apply Nat.min_id.
Qed.

(** What the search does in every state.  The clusters [search] probes
    are the [min(3, len(cluster_assignments))] first ones in the order of
    [np.argsort] on the distances to the centroids, which are the nearest
    ones when no distance is [nan]; every returned id is in the member list
    of a probed cluster; and when no id is listed in two clusters, no
    returned id is listed in a cluster that was not probed. *)
Theorem IVF_search_locality `{Sklearn} (self : IVF.t)
  (get_embedding : str -> vec) (query : str) (limit : Z)
  (rs : list SearchResult) :
  let q := get_embedding query in
  let ds := cluster_dists self q in
  let probed := probed_clusters self q in
  run get_embedding (IVF.search self query limit) = Ok rs ->
  length probed
  = Nat.min (Nat.min 3 (length (IVF.cluster_assignments self))) (length ds) /\
  ((forall d, In d ds -> PrimFloat.is_nan d = false) ->
   forall c c', In c probed -> (c' < length ds)%nat -> ~ In c' probed ->
                (nth c ds 0 <=? nth c' ds 0) = true) /\
  (forall r, In r rs -> exists c, In c probed /\ listed_in self c (id r)) /\
  ((forall i c c', listed_in self c i -> listed_in self c' i -> c = c') ->
   forall r c, In r rs -> listed_in self c (id r) -> In c probed).
Proof.
  intros q ds probed Hrun.
  assert (Hlisted : forall r, In r rs ->
            exists c, In c probed /\ listed_in self c (id r)).
  { intros r Hr. apply IVF_candidates_listed.
    exact (IVF_search_ranked self get_embedding query limit rs Hrun r Hr). }
  repeat split.
  - unfold probed, probed_clusters, IVF.nearest_clusters, IVF.n_probe.
    fold q. fold ds. now rewrite length_firstn, length_np_argsort.
  - intros Hnan c c'. unfold probed, probed_clusters, IVF.nearest_clusters.
    fold q. fold ds. now apply argsort_firstn_nearest.
  - exact Hlisted.
  - intros Hpart r c Hr Hc. destruct (Hlisted r Hr) as (c0 & Hc0 & Hl0).
    now rewrite (Hpart (id r) c c0 Hc Hl0).
Qed.

(** With a fitted partitioner and vectors of one dimension, the search
    does return. *)
Lemma IVF_results_total (self : IVF.t) (q : vec) (cands : list UUID) :
  (forall i v, In (i, v) (IVF.embeddings self) -> length v = length q) ->
  exists rs, IVF.results self q cands = Ok rs.
Proof.
  intros Hdim. induction cands as [|i cands [rs IH]]; simpl; [eauto|].
  destruct (dict_get (IVF.embeddings self) i) as [v|] eqn:Ev; [|eauto].
  assert (Hv : length v = length q).
  { clear - Ev Hdim. revert Ev Hdim.
    induction (IVF.embeddings self) as [|[k w] d IHd]; simpl; [discriminate|].
    intros Ev Hdim. destruct (N.eqb k i).
    - injection Ev as ->. apply (Hdim k). now left.
    - apply IHd; [exact Ev|]. intros i' v' Hin. apply (Hdim i'). now right. }
  unfold IVF.cosine, np_dot. rewrite Hv, Nat.eqb_refl, IH. simpl. eauto.
Qed.

Lemma IVF_search_returns `{Sklearn} (self : IVF.t)
  (get_embedding : str -> vec) (query : str) (limit : Z)
  (centers : list vec) (d : nat) :
  let q := get_embedding query in
  IVF.kmeans self = Some (Fitted centers d) ->
  (0 < d)%nat -> length q = d -> forallb PrimFloat.is_finite q = true ->
  (forall c, In c centers -> length c = d) ->
  (forall i v, In (i, v) (IVF.embeddings self) -> length v = d) ->
  exists rs, run get_embedding (IVF.search self query limit) = Ok rs.
Proof.
  intros q Hkm Hd Hq Hfin Hc Hv. unfold IVF.search. rewrite Hkm.
  destruct (is_empty (strip query) || is_empty (IVF.embeddings self));
    simpl; [eauto|]. fold q.
  assert (Hpos : Nat.ltb 0 (length q) = true) by (apply Nat.ltb_lt; lia).
  rewrite Hpos, Nat.eqb_refl, Hfin. simpl. rewrite Hq, Nat.eqb_refl. simpl.
  destruct (mapM_total (fun c => np_dist c q) centers) as (ds & -> & _).
  { intros c Hin. unfold np_dist. rewrite (Hc c Hin), Hq, Nat.eqb_refl. eauto. }
  simpl. destruct (is_empty _); [eauto|].
  destruct (IVF_results_total self q
              (IVF.candidates self (IVF.nearest_clusters self ds))) as [rs' ->].
  { intros i v Hin. rewrite Hq. exact (Hv i v Hin). }
  simpl. eauto.
Qed.

Example ivf_relisted_reached :
  let s0 := fst (IVF.rebuild (IVF.init 100) four_points) in
  let s1 := fst (IVF.add s0 (Chunk 5 (Some [1; 0.5]))) in
  IVF.add s1 (Chunk 5 (Some [-1; 0.5])) = (ivf_relisted, Ok tt).
Proof. vm_compute. reflexivity. Qed.

Example ivf_relisted_search :
  probed_clusters ivf_relisted [1; 0.5] = [0; 1; 3]%nat /\
  exists rs, run near_cluster0 (IVF.search ivf_relisted [113%N] 5) = Ok rs
             /\ map id rs = [1; 2; 4; 5]%N.
Proof. vm_compute. split; [reflexivity|]. eexists. split; reflexivity. Qed.

(** Chunk 5 is returned and is also listed in cluster 2, which the search
    did not probe. *)
Lemma IVF_returned_id_in_unprobed_cluster :
  ~ returned_ids_only_in_probed ivf_relisted near_cluster0 [113%N] 5.
Proof.
  intros Hclaim.
  destruct ivf_relisted_search as (Hprobed & rs & Hrun & Hids).
  assert (H5 : exists r, In r rs /\ id r = 5%N).
  { destruct rs as [|r1 [|r2 [|r3 [|r4 [|]]]]]; try discriminate.
    injection Hids as _ _ _ E. exists r4. split; [simpl; auto|exact E]. }
  destruct H5 as (r & Hr & E).
  destruct (Hclaim rs Hrun r Hr) as [_ Hnone].
  assert (Hl : listed_in ivf_relisted 2 (id r)).
  { rewrite E. exists [3%N; 5%N]. split; [reflexivity|simpl; auto]. }
  specialize (Hnone 2%nat Hl). unfold near_cluster0 in Hnone.
  rewrite Hprobed in Hnone. simpl in Hnone.
  repeat destruct Hnone as [Hnone|Hnone]; try discriminate; contradiction.
Qed.

Example ivf_four_reached :
  IVF.rebuild (IVF.init 100) four_points = (ivf_four, Ok tt).
Proof. vm_compute. reflexivity. Qed.

Lemma IVF_search_locality_witness :
  exists rs,
    run near_cluster0 (IVF.search ivf_four [113%N] 2) = Ok rs /\
    (forall r, In r rs ->
       exists c, In c (probed_clusters ivf_four [1; 0.5])
                 /\ listed_in ivf_four c (id r)).
Proof.
  destruct (@IVF_search_returns first_rows ivf_four near_cluster0 [113%N] 2
              [[1; 0]; [0; 1]; [-1; 0]; [0; -1]] 2) as [rs Hrs];
    try reflexivity.
  - simpl. lia.
  - intros c [<-|[<-|[<-|[<-|[]]]]]; reflexivity.
  - intros i v Hin. vm_compute in Hin.
    destruct Hin as [E|[E|[E|[E|[]]]]]; injection E as _ <-; reflexivity.
  - exists rs. split; [exact Hrs|].
    exact (proj1 (proj2 (proj2
      (@IVF_search_locality first_rows ivf_four near_cluster0 [113%N] 2 rs Hrs)))).
Defined.

(** C5.  [IVFIndex.add] lists an id once more when the id is added again,
    and the search then breaks the claim on a state the calls of the index
    reach: after [rebuild] on the four chunks and two [add] of chunk 5 with
    different vectors, all three returning, chunk 5 is listed in clusters 0
    and 2; the search for a query next to cluster 0 probes clusters 0, 1
    and 3 and returns chunk 5, which also belongs to cluster 2, a cluster
    it did not probe.  In every state in which no id is listed in two
    clusters the claim holds, for every estimator. *)
Theorem IVF_search_returns_id_listed_twice :
  let built := IVF.rebuild (IVF.init 100) four_points in
  let added := IVF.add (fst built) (Chunk 5 (Some [1; 0.5])) in
  let readded := IVF.add (fst added) (Chunk 5 (Some [-1; 0.5])) in
  (snd built = Ok tt /\ snd added = Ok tt /\ readded = (ivf_relisted, Ok tt)) /\
  (listed_in ivf_relisted 0 5%N /\ listed_in ivf_relisted 2 5%N) /\
  (probed_clusters ivf_relisted [1; 0.5] = [0; 1; 3]%nat /\
   exists rs,
     run near_cluster0 (IVF.search ivf_relisted [113%N] 5) = Ok rs /\
     map id rs = [1; 2; 4; 5]%N) /\
  ~ returned_ids_only_in_probed ivf_relisted near_cluster0 [113%N] 5 /\
  (forall (estimator : Sklearn) (self : IVF.t) (get_embedding : str -> vec)
          (query : str) (limit : Z),
      (forall i c c', listed_in self c i -> listed_in self c' i -> c = c') ->
      @returned_ids_only_in_probed estimator self get_embedding query limit).
Proof.
  cbv zeta. split; [|split; [|split; [|split]]].
  - split; [vm_compute; reflexivity|]. split; [vm_compute; reflexivity|].
    exact ivf_relisted_reached.
  - split.
    + exists [1%N; 5%N]. split; [reflexivity|simpl; auto].
    + exists [3%N; 5%N]. split; [reflexivity|simpl; auto].
  - exact ivf_relisted_search.
  - exact IVF_returned_id_in_unprobed_cluster.
  - intros estimator self get_embedding query limit Hone rs Hrun r Hr.
    destruct (@IVF_search_locality estimator self get_embedding query limit rs
                Hrun) as (_ & _ & Hin & Hout).
    split; [exact (Hin r Hr)|].
    intros c Hc. exact (Hout Hone r c Hr Hc).
Qed.

(** *** IVFIndex.add on an untrained index *)

(** On the estimator a raising [fit] has left, [predict] raises. *)
Lemma KMeans_predict_after_raised_fit `{Sklearn} (n : Z) (X : list vec) (x : vec) :
  exists err, KMeans_predict (KMeans_fit_raised n X) x = Raise err.
Proof.
  unfold KMeans_fit_raised. destruct (n <? 1)%Z; [cbn [KMeans_predict]; eauto|].
  destruct (check_array X) as [d|]; cbn [KMeans_predict]; [|eauto].
  destruct (check_array [x]); cbn [bind]; [|eauto].
  destruct (Nat.eqb (length x) d); eauto.
Qed.

(** C7.  [main.py] builds [IVFIndex()], so [n_clusters] is 100.  On an
    untrained index, [add] of a chunk with an embedding fits
    [KMeans(n_clusters=100)] on that one row, which the estimator refuses:
    the call raises, stores nothing and leaves behind the estimator of the
    failed fit, which has no centres ([predict] on it raises), whatever the
    embedding. *)
Theorem IVF_add_untrained_default_raises `{Sklearn} (i : UUID) (e : vec) :
  IVF.add (IVF.init 100) (Chunk i (Some e))
  = (IVF.mk 100 (Some (KMeans_fit_raised 100 [e])) [] [], Raise ValueError) /\
  forall x, exists err,
    KMeans_predict (KMeans_fit_raised 100 [e]) x = Raise err.
Proof.
  assert (Hfit : KMeans_fit 100 [e] = Raise ValueError).
  { unfold KMeans_fit, check_array. simpl.
    destruct (Nat.ltb 0 (length e) && _); reflexivity. }
  split.
  - unfold IVF.add, IVF.init. cbn -[KMeans_fit KMeans_fit_raised].
    now rewrite Hfit.
  - intros x. apply KMeans_predict_after_raised_fit.
Qed.

(** [rebuild] on the same single chunk clamps the number of clusters to the
    number of rows and succeeds. *)
Example IVF_rebuild_one_chunk :
  IVF.rebuild (IVF.init 100) [Chunk 1 (Some [1; 0])]
  = (IVF.mk 100 (Some (Fitted [[1; 0]] 2)) [(0%nat, [1%N])] [(1%N, [1; 0])],
     Ok tt).
Proof. vm_compute. reflexivity. Qed.

(** With [n_clusters = 1] the claim holds: one centre is fitted on the
    vector and the id goes to the cluster [predict] names. *)
Lemma IVF_add_untrained_one_cluster `{Sklearn} (i : UUID) (e : vec) (d : nat) :
  check_array [e] = Ok d ->
  exists c,
    IVF.add (IVF.init 1) (Chunk i (Some e))
    = (IVF.mk 1 (Some (Fitted (fst (lloyd 1 [e])) d)) [(c, [i])] [(i, e)], Ok tt).
Proof.
  intros Hd.
  assert (Hlen : length e = d).
  { unfold check_array in Hd. destruct (Nat.ltb 0 (length e) && _);
      [now injection Hd | discriminate]. }
  destruct (lloyd 1 [e]) as [centers labels] eqn:El.
  assert (Hfit : KMeans_fit 1 [e] = Ok (Fitted centers d, labels)).
  { unfold KMeans_fit. cbn -[check_array lloyd]. rewrite Hd.
    cbn -[lloyd]. change (Pos.to_nat 1) with 1%nat. cbn -[lloyd].
    now rewrite El. }
  assert (Hpred : KMeans_predict (Fitted centers d) e
                  = Ok (nearest_center centers e)).
  { unfold KMeans_predict. rewrite Hd. cbn. now rewrite Hlen, Nat.eqb_refl. }
  exists (nearest_center centers e). unfold IVF.add, IVF.init.
  cbn -[KMeans_fit KMeans_predict]. rewrite Hfit.
  cbn -[KMeans_predict]. now rewrite Hpred.
Qed.

(** *** Zero-norm vectors in IVFIndex.search *)

Example ivf_with_zero_reached :
  IVF.rebuild (IVF.init 100) [Chunk 1 (Some [0; 0]); Chunk 2 (Some [1; 1])]
  = (ivf_with_zero, Ok tt).
Proof. vm_compute. reflexivity. Qed.

(** C6.  [IVFIndex.search] divides by the product of the norms without a
    guard: the zero vector gets the score [nan], which is not [0.0], and is
    returned first, above [1, 1] with its score near 0.707. *)
Theorem IVF_search_scores_zero_vector_nan :
  exists c1 c2,
    run half_x (IVF.search ivf_with_zero [113%N] 5)
    = Ok [mkSearchResult 1 c1; mkSearchResult 2 c2] /\
    PrimFloat.is_nan c1 = true /\ (c1 =? 0) = false /\ (0.5 <? c2) = true.
Proof. vm_compute. do 2 eexists. repeat split. Qed.

(** The other two indexes guard the division: the NSW score of a
    zero-norm vector is [0.0], and the brute-force scan skips it. *)
Lemma NSW_cosine_zero_norm (q v : vec) :
  (np_linalg_norm v =? 0) = true -> NSW._cosine_similarity q v = Ok 0.
Proof.
  intros Hv. unfold NSW._cosine_similarity. rewrite Hv.
  now rewrite orb_true_r.
Qed.

Lemma BF_search_skips_zero_norm (self : BF.t) (get_embedding : str -> vec)
  (query : str) (limit : Z) (rs : list SearchResult) :
  run get_embedding (BF.search self query limit) = Ok rs ->
  forall r, In r rs ->
  exists v, In (id r, v) (BF.embeddings self) /\ (np_linalg_norm v =? 0) = false.
Proof.
  unfold BF.search. intros Hrun r Hr.
  destruct (is_empty (BF.embeddings self)); simpl in Hrun;
    [injection Hrun as <-; contradiction|].
  destruct (np_linalg_norm (get_embedding query) =? 0);
    [injection Hrun as <-; contradiction|].
  rewrite BF_similarities_scores in Hrun.
  destruct (mapM (score (get_embedding query)) (nonzero_norm (BF.embeddings self)))
    as [sims|] eqn:Es; simpl in Hrun; [|discriminate].
  injection Hrun as <-. apply in_py_slice_to in Hr.
  apply (Permutation_in _ (sort_desc_perm sims)) in Hr.
  clear - Es Hr. revert sims Es Hr. unfold nonzero_norm.
  induction (BF.embeddings self) as [|[k v] d IH]; simpl; intros sims Es Hr.
  - injection Es as <-. contradiction.
  - destruct (np_linalg_norm v =? 0) eqn:Ev; simpl in Es.
    + destruct (IH sims Es Hr) as (w & Hw & Hn). exists w. auto.
    + unfold score at 1 in Es. simpl in Es.
      destruct (guarded_cosine (get_embedding query) v); simpl in Es;
        [|discriminate].
      destruct (mapM _ _) as [sims'|]; simpl in Es; [|discriminate].
      injection Es as <-. destruct Hr as [<-|Hr].
      * exists v. simpl. auto.
      * destruct (IH sims' eq_refl Hr) as (w & Hw & Hn). exists w. auto.
Qed.

Example BF_search_skips_zero_vector :
  exists c2,
    run half_x (BF.search (BF.mk [(1%N, [0; 0]); (2%N, [1; 1])]) [113%N] 5)
    = Ok [mkSearchResult 2 c2].
Proof. vm_compute. eexists. reflexivity. Qed.

(** *** The traversal of NSWIndex.search *)

Lemma same_candidate_refl (c : NSW.candidate) : NSW.same_candidate c c = true.
Proof.
  unfold NSW.same_candidate. rewrite N.eqb_refl. simpl.
  unfold PrimFloat.is_nan. now destruct (fst c =? fst c).
Qed.

(** The loop of the source never runs a second iteration: the candidate
    popped first is the only one, the list is empty after it, and the test
    before [break] is then [True]. *)
Lemma NSW_traverse_entry_only (fuel : nat) (self : NSW.t) (query_vec : vec)
  (limit : Z) (entry_point : UUID) (s : float) :
  NSW.traverse (S fuel) self query_vec limit [entry_point] [(s, entry_point)] []
  = Some (Ok [mkSearchResult entry_point s]).
Proof.
  unfold NSW.traverse. simpl NSW.py_max. cbv iota beta.
  unfold NSW.remove_candidate. now rewrite same_candidate_refl.
Qed.

(** So [search] returns at most the entry point, whatever [limit]. *)
Lemma NSW_search_at_most_entry (fuel : nat) (self : NSW.t)
  (get_embedding : str -> vec) (query : str) (limit : Z) :
  exists rs,
    (run get_embedding (NSW.search (S fuel) self query limit) = Ok (Some rs)
     /\ (length rs <= 1)%nat)
    \/ exists e, run get_embedding (NSW.search (S fuel) self query limit) = Raise e.
Proof.
  unfold NSW.search.
  destruct (is_empty (NSW.embeddings self)); cbn [run];
    [exists []; left; auto|].
  destruct (np_linalg_norm (get_embedding query) =? 0); [exists []; left; auto|].
  destruct (keys (NSW.graph self)) as [|entry ks]; [exists []; right; eauto|].
  destruct (dict_get (NSW.embeddings self) entry) as [v|];
    [|exists []; right; eauto].
  destruct (NSW._cosine_similarity (get_embedding query) v) as [s|e];
    [|exists []; right; simpl; eauto].
  cbn [bind]. rewrite NSW_traverse_entry_only. cbn [bind].
  eexists. left. split; [reflexivity|].
  unfold py_slice_to, sort_desc. simpl.
  destruct (0 <=? limit)%Z; rewrite length_firstn; simpl; lia.
Qed.

Example nsw_s1_reached :
  NSW.rebuild (NSW.init 5 100) s1_chunks = (nsw_s1, Ok tt).
Proof. vm_compute. reflexivity. Qed.

(** C2.  On the three linked chunks and [k = 2], the source returns the
    entry point alone; the traversal of the specification goes on to the
    neighbours and returns two results.  And the test of the source is not
    the greedy stop even on a list that is not empty: with one result held
    for [k = 1], the node just chosen at 0.5 and the next candidate at
    0.25, it goes on where the specification stops. *)
Theorem NSW_search_stops_at_entry_point :
  run s1_provider (NSW.search 10 nsw_s1 [113%N] 2)
  = Ok (Some [mkSearchResult 1 1]) /\
  (exists c,
    spec_traverse 10 nsw_s1 [1; 0; 0] 2 [1%N] [(1, 1%N)] []
    = Some (Ok [mkSearchResult 1 1; mkSearchResult 3 c])) /\
  NSW.stop_now [mkSearchResult 1 0.5] 1 0.5 [(0.25, 2%N)] = false /\
  spec_stop [mkSearchResult 1 0.5] 1 0.5 [(0.25, 2%N)] = true.
Proof.
  vm_compute. split; [reflexivity|]. split; [|split; reflexivity].
  eexists. reflexivity.
Qed.

(** *** Referential consistency *)

(** C4.  (NSW) After [rebuild] on the seven chunks and [remove] of chunk 6,
    both returning normally, chunk 6 is still an out-neighbour of chunk 7
    and has no vector.  (IVF) After [rebuild] on one chunk, a second [add]
    of that chunk and its [remove], the id is still a member of cluster 0
    and has no vector; and in [ivf_relisted], reached by [rebuild] and two
    calls of [add], chunk 5 is a member of clusters 0 and 2. *)
Theorem referential_consistency_broken :
  let built := NSW.rebuild (NSW.init 5 100) seven_chunks in
  let removed := NSW.remove (fst built) 6%N in
  let ivf1 := IVF.rebuild (IVF.init 100) [Chunk 1 (Some [1; 0])] in
  let ivf2 := IVF.add (fst ivf1) (Chunk 1 (Some [1; 0])) in
  let ivf3 := IVF.remove (fst ivf2) 1%N in
  (snd built = Ok tt /\ snd removed = Ok tt /\
   dict_get (NSW.graph (fst removed)) 7%N = Some [6%N; 5%N; 4%N; 3%N; 2%N] /\
   dict_get (NSW.embeddings (fst removed)) 6%N = None) /\
  (snd ivf1 = Ok tt /\ snd ivf2 = Ok tt /\ snd ivf3 = Ok tt /\
   dict_get (IVF.cluster_assignments (fst ivf3)) 0%nat = Some [1%N] /\
   dict_get (IVF.embeddings (fst ivf3)) 1%N = None) /\
  (listed_in ivf_relisted 0 5%N /\ listed_in ivf_relisted 2 5%N).
Proof.
  vm_compute. repeat split; try reflexivity.
  - exists [1%N; 5%N]. split; [reflexivity|simpl; auto].
  - exists [3%N; 5%N]. split; [reflexivity|simpl; auto].
Qed.

(** *** Adding a vector of another dimension *)

(** C3 as stated fails: the brute-force index of scenario S1 holds vectors
    of dimension 3 and accepts one of dimension 2. *)
Lemma BF_add_accepts_other_dimension :
  ~ BF_add_rejects s1_index (Chunk 9 (Some [1; 2])).
Proof. intros [e He]. vm_compute in He. discriminate. Qed.

Lemma NSW_similarities_raise (i : UUID) (e : vec) (d : dict UUID vec) :
  forall x, NSW.similarities i e d = Raise x -> x = ValueError.
Proof.
  induction d as [|[k v] d IH]; simpl; intros x Hx; [discriminate|].
  destruct (N.eqb k i); [now apply IH|].
  destruct (np_linalg_norm v =? 0); [now apply IH|].
  unfold guarded_cosine, np_dot in Hx.
  destruct (Nat.eqb (length e) (length v)); simpl in Hx;
    [|now injection Hx].
  destruct (NSW.similarities i e d); simpl in Hx; [discriminate|].
  injection Hx as <-. now apply IH.
Qed.

Lemma NSW_similarities_mismatch (i : UUID) (e : vec) (d : dict UUID vec)
  (other : UUID) (v : vec) :
  In (other, v) d -> other <> i -> (np_linalg_norm v =? 0) = false ->
  length v <> length e ->
  NSW.similarities i e d = Raise ValueError.
Proof.
  intros Hin Hne Hnorm Hlen.
  destruct (NSW.similarities i e d) as [sims|x] eqn:E;
    [exfalso | now rewrite (NSW_similarities_raise _ _ _ _ E)].
  revert sims E. induction d as [|[k w] d IH]; simpl; intros sims E;
    [contradiction|].
  destruct Hin as [Hin|Hin].
  - injection Hin as -> ->.
    apply N.eqb_neq in Hne. rewrite Hne, Hnorm in E.
    unfold guarded_cosine, np_dot in E.
    destruct (Nat.eqb_spec (length e) (length v)) as [El|_]; [congruence|].
    discriminate.
  - destruct (N.eqb k i); [exact (IH Hin sims E)|].
    destruct (np_linalg_norm w =? 0); [exact (IH Hin sims E)|].
    destruct (guarded_cosine e w); simpl in E; [|discriminate].
    destruct (NSW.similarities i e d) as [sims'|]; simpl in E; [|discriminate].
    exact (IH Hin sims' eq_refl).
Qed.

Lemma in_dict_set_other {V} (d : dict UUID V) (k k' : UUID) (v v' : V) :
  In (k', v') d -> k' <> k -> In (k', v') (dict_set d k v).
Proof.
  intros Hin Hne. induction d as [|[k0 v0] d IH]; simpl; [contradiction|].
  destruct (N.eqb_spec k0 k) as [->|Hk].
  - destruct Hin as [E|Hin]; [injection E as <- _; congruence|now right].
  - destruct Hin as [E|Hin]; [now left | right; auto].
Qed.

Lemma check_array_raise (X : list vec) (x : exn) :
  check_array X = Raise x -> x = ValueError.
Proof.
  unfold check_array. destruct X as [|r X]; [now intros [= <-]|].
  destruct (Nat.ltb 0 (length r) && _); [discriminate|now intros [= <-]].
Qed.

(** C3, amended.  No index has a dimension check of its own.
    [BruteForceCosineSimilarityIndex.add] stores a vector of any dimension.
    [IVFIndex.add] on an index fitted on [d] features raises the
    estimator's [ValueError] for another dimension and leaves the state as
    it was.  [NSWIndex.add] raises numpy's [ValueError] when another stored
    vector of non-zero norm has another dimension. *)
Theorem add_other_dimension `{Sklearn} (item : DataRecord) (e : vec) :
  valid_embedding item = Some e ->
  (forall self : BF.t,
      BF.add self item
      = (BF.mk (dict_set (BF.embeddings self) (item_id item) e), Ok tt)) /\
  (forall (self : IVF.t) (centers : list vec) (d : nat),
      IVF.kmeans self = Some (Fitted centers d) -> length e <> d ->
      IVF.add self item = (self, Raise ValueError)) /\
  (forall (self : NSW.t) (other : UUID) (v : vec),
      In (other, v) (NSW.embeddings self) -> other <> item_id item ->
      (np_linalg_norm v =? 0) = false -> length v <> length e ->
      snd (NSW.add self item) = Raise ValueError).
Proof.
  intros He. repeat split.
  - intros self. unfold BF.add, BF.add_embedding. now rewrite He.
  - intros self centers d Hkm Hlen. unfold IVF.add. rewrite He, Hkm.
    cbn -[check_array]. destruct self as [n km ca emb]. simpl in Hkm. subst km.
    destruct (check_array [e]) as [d'|x] eqn:E; cbn;
      [|now rewrite (check_array_raise _ _ E)].
    destruct (Nat.eqb_spec (length e) d); [contradiction|reflexivity].
  - intros self other v Hin Hne Hnorm Hlen. unfold NSW.add. rewrite He.
    unfold NSW._find_nearest_neighbors.
    rewrite (NSW_similarities_mismatch (item_id item) e _ other v); trivial.
    now apply in_dict_set_other.
Qed.

Lemma add_other_dimension_witness :
  BF.add s1_index (Chunk 9 (Some [1; 2]))
  = (BF.mk (BF.embeddings s1_index ++ [(9%N, [1; 2])]), Ok tt) /\
  IVF.add ivf_four (Chunk 9 (Some [1; 2; 3])) = (ivf_four, Raise ValueError) /\
  snd (NSW.add nsw_s1 (Chunk 9 (Some [1; 2]))) = Raise ValueError.
Proof.
  destruct (@add_other_dimension first_rows (Chunk 9 (Some [1; 2])) [1; 2] eq_refl)
    as (Hbf & _ & Hnsw).
  destruct (@add_other_dimension first_rows (Chunk 9 (Some [1; 2; 3])) [1; 2; 3]
              eq_refl) as (_ & Hivf & _).
  split; [|split].
  - exact (Hbf s1_index).
  - apply (Hivf ivf_four [[1; 0]; [0; 1]; [-1; 0]; [0; -1]] 2%nat);
      [reflexivity | discriminate].
  - apply (Hnsw nsw_s1 1%N [1; 0; 0]);
      [simpl; auto | discriminate | reflexivity | discriminate].
Defined.

(** What the failed [NSWIndex.add] leaves behind: the vector is stored, the
    node is not. *)
Example NSW_add_other_dimension_state :
  NSW.add nsw_s1 (Chunk 9 (Some [1; 2]))
  = (NSW.mk (NSW.embeddings nsw_s1 ++ [(9%N, [1; 2])]) (NSW.graph nsw_s1) 5 100,
     Raise ValueError).
Proof. vm_compute. reflexivity. Qed.

(** *** Keys of dictionaries *)

Section DictKeys.
Context {K V W : Type} `{Key K}.

Lemma key_eqb_refl (k : K) : key_eqb k k = true.
Proof. now apply key_eqb_eq. Qed.

Lemma key_eqb_neq (a b : K) : a <> b -> key_eqb a b = false.
Proof.
  intros Hab. destruct (key_eqb a b) eqn:E; [|reflexivity].
  apply key_eqb_eq in E. contradiction.
Qed.

Lemma keys_dict_set (d : dict K V) (k : K) (v : V) :
  keys (dict_set d k v) = keys_set (keys d) k.
Proof.
  induction d as [|[k' v'] d IH]; simpl; [reflexivity|].
  destruct (key_eqb k' k); simpl; [reflexivity|]. now rewrite IH.
Qed.

Lemma keys_dict_del (d : dict K V) (k : K) :
  keys (dict_del d k) = list_remove (keys d) k.
Proof.
  induction d as [|[k' v'] d IH]; simpl; [reflexivity|].
  destruct (key_eqb k' k); simpl; [reflexivity|]. now rewrite IH.
Qed.

Lemma dict_get_in_keys (d : dict K V) (k : K) :
  dict_get d k <> None <-> In k (keys d).
Proof.
  induction d as [|[k' v'] d IH]; simpl; [tauto|].
  destruct (key_eqb k' k) eqn:E.
  - apply key_eqb_eq in E. split; [auto|discriminate].
  - rewrite IH. split; [auto|]. intros [->|Hin]; [|exact Hin].
    now rewrite key_eqb_refl in E.
Qed.

Lemma dict_mem_in_keys (d : dict K V) (k : K) :
  dict_mem d k = true <-> In k (keys d).
Proof.
  rewrite <- dict_get_in_keys. unfold dict_mem.
  destruct (dict_get d k); split; congruence.
Qed.

Lemma list_remove_absent (ks : list K) (k : K) :
  ~ In k ks -> list_remove ks k = ks.
Proof.
  induction ks as [|k' ks IH]; simpl; intros Hk; [reflexivity|].
  rewrite key_eqb_neq by tauto. rewrite IH; tauto.
Qed.

Lemma dict_del_absent (d : dict K V) (k : K) :
  ~ In k (keys d) -> dict_del d k = d.
Proof.
  induction d as [|[k' v'] d IH]; simpl; intros Hk; [reflexivity|].
  rewrite key_eqb_neq by tauto. rewrite IH; tauto.
Qed.

Lemma keys_set_absent (ks : list K) (k : K) :
  ~ In k ks -> keys_set ks k = ks ++ [k].
Proof.
  induction ks as [|k' ks IH]; simpl; intros Hk; [reflexivity|].
  rewrite key_eqb_neq by tauto. rewrite IH; tauto.
Qed.

Lemma dict_set_absent (d : dict K V) (k : K) (v : V) :
  ~ In k (keys d) -> dict_set d k v = d ++ [(k, v)].
Proof.
  induction d as [|[k' v'] d IH]; simpl; intros Hk; [reflexivity|].
  rewrite key_eqb_neq by tauto. rewrite IH; tauto.
Qed.

Lemma list_remove_app_last (ks : list K) (k : K) :
  ~ In k ks -> list_remove (ks ++ [k]) k = ks.
Proof.
  induction ks as [|k' ks IH]; simpl; intros Hk.
  - now rewrite key_eqb_refl.
  - rewrite key_eqb_neq by tauto. rewrite IH; tauto.
Qed.

Lemma dict_del_app_last (d : dict K V) (k : K) (v : V) :
  ~ In k (keys d) -> dict_del (d ++ [(k, v)]) k = d.
Proof.
  induction d as [|[k' v'] d IH]; simpl; intros Hk.
  - now rewrite key_eqb_refl.
  - rewrite key_eqb_neq by tauto. rewrite IH; tauto.
Qed.

Lemma in_keys_set (ks : list K) (k x : K) :
  In x (keys_set ks k) <-> x = k \/ In x ks.
Proof.
  induction ks as [|k' ks IH]; simpl; [intuition|].
  destruct (key_eqb k' k) eqn:E; simpl.
  - apply key_eqb_eq in E. subst. intuition.
  - rewrite IH. intuition.
Qed.

Lemma dict_get_first (d : dict K V) (k : K) (ks : list K) :
  keys d = k :: ks -> exists v, dict_get d k = Some v.
Proof.
  destruct d as [|[k' v'] d]; simpl; [discriminate|].
  intros [= -> _]. rewrite key_eqb_refl. eauto.
Qed.

End DictKeys.

(** *** The two maps of NSWIndex *)

Lemma NoDup_keys_set (ks : list UUID) (k : UUID) :
  NoDup ks -> NoDup (keys_set ks k).
Proof.
  induction 1 as [|k' ks Hk' Hnd IH]; simpl; [repeat constructor; auto|].
  destruct (N.eqb k' k) eqn:E; [now constructor|].
  constructor; [|exact IH]. rewrite in_keys_set. intros [->|Hin]; [|tauto].
  now rewrite N.eqb_refl in E.
Qed.

Lemma NSW_embeddings_nodup (items : list DataRecord) :
  forall d, NoDup (keys d) -> NoDup (keys (fold_left NSW.add_embedding items d)).
Proof.
  induction items as [|item items IH]; simpl; intros d Hd; [exact Hd|].
  apply IH. unfold NSW.add_embedding.
  destruct (valid_embedding item); [|exact Hd].
  rewrite keys_dict_set. now apply NoDup_keys_set.
Qed.

Lemma fold_keys_set_nodup (ks : list UUID) :
  forall pre, NoDup (pre ++ ks) -> fold_left keys_set ks pre = pre ++ ks.
Proof.
  induction ks as [|k ks IH]; simpl; intros pre Hnd; [now rewrite app_nil_r|].
  rewrite keys_set_absent.
  - rewrite IH; rewrite <- app_assoc; [reflexivity|exact Hnd].
  - apply NoDup_remove_2 in Hnd. intros Hin. apply Hnd. apply in_or_app. now left.
Qed.

Lemma NSW_build_graph_keys (embs : dict UUID vec) (k : Z) (items : dict UUID vec) :
  forall g g', NSW.build_graph embs k items g = (g', Ok tt) ->
               keys g' = fold_left keys_set (keys items) (keys g).
Proof.
  induction items as [|[i e] items IH]; simpl; intros g g' Hb.
  - now injection Hb as <-.
  - destruct (NSW._find_nearest_neighbors embs i e k); [|discriminate].
    rewrite (IH _ _ Hb). now rewrite keys_dict_set.
Qed.

Lemma NSW_connect_back_keys (neighbors : list SearchResult) (i : UUID) :
  forall g, keys (NSW.connect_back g i neighbors) = keys g.
Proof.
  unfold NSW.connect_back.
  induction neighbors as [|n neighbors IH]; simpl; intros g; [reflexivity|].
  rewrite IH. destruct (dict_get g (id n)) as [s|] eqn:E; [|reflexivity].
  rewrite keys_dict_set. clear IH.
  assert (Hin : In (id n) (keys g)) by (apply dict_get_in_keys; congruence).
  clear E. induction (keys g) as [|k ks IHk]; simpl; [contradiction|].
  destruct (N.eqb_spec k (id n)) as [_|Hne]; [reflexivity|].
  f_equal. apply IHk. destruct Hin; [contradiction|assumption].
Qed.

Lemma keys_set_present (ks : list UUID) (k : UUID) :
  In k ks -> keys_set ks k = ks.
Proof.
  induction ks as [|k' ks IH]; simpl; [contradiction|].
  destruct (N.eqb_spec k' k) as [_|Hne]; [reflexivity|].
  intros [E|Hin]; [contradiction|]. f_equal. now apply IH.
Qed.

Lemma NSW_disconnect_keys (neighbor_ids : list UUID) (i : UUID) :
  forall g g' r, NSW.disconnect g i neighbor_ids = (g', r) -> keys g' = keys g.
Proof.
  induction neighbor_ids as [|n ns IH]; simpl; intros g g' r Hd.
  - now injection Hd as <- _.
  - assert (Hk : keys (match dict_get g n with
                       | Some s => dict_set g n (set_discard s i)
                       | None => g
                       end) = keys g).
    { destruct (dict_get g n) eqn:E; [|reflexivity].
      rewrite keys_dict_set. apply keys_set_present.
      apply dict_get_in_keys. congruence. }
    destruct (N.eqb n i).
    + injection Hd as <- _. exact Hk.
    + rewrite (IH _ _ _ Hd). exact Hk.
Qed.

(** One call that returns keeps the key lists equal. *)
Lemma NSW_step_keys (self : NSW.t) (o : NSW_op) :
  keys (NSW.embeddings self) = keys (NSW.graph self) ->
  snd (NSW_step self o) = Ok tt ->
  keys (NSW.embeddings (fst (NSW_step self o)))
  = keys (NSW.graph (fst (NSW_step self o))).
Proof.
  intros Hinv Hok. destruct o as [items|item|i]; simpl in *.
  - unfold NSW.rebuild in *.
    set (embs := fold_left NSW.add_embedding items []) in *.
    destruct (NSW.build_graph embs (NSW.n_neighbors self) embs []) as [g r] eqn:Eb.
    simpl in *. subst r. rewrite (NSW_build_graph_keys _ _ _ _ _ Eb). simpl.
    symmetry. apply (fold_keys_set_nodup (keys embs) []). simpl.
    apply NSW_embeddings_nodup. constructor.
  - unfold NSW.add in *. destruct (valid_embedding item) as [e|]; [|exact Hinv].
    destruct (NSW._find_nearest_neighbors _ _ _ _) as [neighbors|];
      simpl in *; [|discriminate].
    now rewrite NSW_connect_back_keys, !keys_dict_set, Hinv.
  - unfold NSW.remove in *.
    assert (He : keys (if dict_mem (NSW.embeddings self) i
                       then dict_del (NSW.embeddings self) i
                       else NSW.embeddings self)
                 = list_remove (keys (NSW.embeddings self)) i).
    { destruct (dict_mem (NSW.embeddings self) i) eqn:Em;
        [apply keys_dict_del|].
      symmetry. apply list_remove_absent. rewrite <- dict_mem_in_keys. congruence. }
    destruct (dict_get (NSW.graph self) i) as [ns|] eqn:Eg.
    + destruct (NSW.disconnect (NSW.graph self) i ns) as [g [[]|]] eqn:Ed;
        simpl in *; [|discriminate].
      rewrite He, keys_dict_del, (NSW_disconnect_keys _ _ _ _ _ Ed).
      now rewrite Hinv.
    + simpl. rewrite He, Hinv. apply list_remove_absent.
      rewrite <- dict_get_in_keys. tauto.
Qed.

(** C9, amended.  After every sequence of [rebuild], [add] and [remove]
    calls on a new index that all return normally, the embedding map and
    the adjacency map list the same keys in the same order; so when the
    embedding map is not empty, the first key of the adjacency map is an
    entry point with a stored vector. *)
Theorem NSW_maps_agree_after_returning_calls
  (n_neighbors ef_construction : Z) (ops : list NSW_op) :
  let self := NSW_run (NSW.init n_neighbors ef_construction) ops in
  NSW_all_return (NSW.init n_neighbors ef_construction) ops ->
  keys (NSW.embeddings self) = keys (NSW.graph self) /\
  NSW_maps_agree self /\
  (NSW.embeddings self <> [] ->
   exists entry_point v,
     hd_error (keys (NSW.graph self)) = Some entry_point /\
     dict_get (NSW.embeddings self) entry_point = Some v).
Proof.
  intros self Hret.
  assert (Hkeys : keys (NSW.embeddings self) = keys (NSW.graph self)).
  { subst self. generalize (eq_refl : keys (NSW.embeddings
        (NSW.init n_neighbors ef_construction)) = keys (NSW.graph
        (NSW.init n_neighbors ef_construction))).
    revert Hret. generalize (NSW.init n_neighbors ef_construction).
    induction ops as [|o ops IH]; simpl; intros s Hret Hinv; [exact Hinv|].
    destruct Hret as [Hok Hret]. apply IH; [exact Hret|].
    now apply NSW_step_keys. }
  assert (Hentry : NSW.embeddings self <> [] ->
            exists entry_point v,
              hd_error (keys (NSW.graph self)) = Some entry_point /\
              dict_get (NSW.embeddings self) entry_point = Some v).
  { intros Hne. rewrite <- Hkeys.
    destruct (keys (NSW.embeddings self)) as [|k ks] eqn:Ek.
    - destruct (NSW.embeddings self); [congruence|discriminate].
    - destruct (dict_get_first _ _ _ Ek) as [v Hv]. exists k, v. auto. }
  split; [exact Hkeys|]. split; [|exact Hentry].
  split; [intros k; now rewrite Hkeys|].
  intros Hne. destruct (Hentry Hne) as (entry & _ & He & _). eauto.
Qed.

Lemma NSW_maps_agree_after_returning_calls_witness :
  keys (NSW.embeddings
          (NSW_run (NSW.init 5 100)
                   [Rebuild s1_chunks; Add (Chunk 4 (Some [0; 0; 1])); Remove 1%N]))
  = [2%N; 3%N; 4%N] /\
  keys (NSW.graph
          (NSW_run (NSW.init 5 100)
                   [Rebuild s1_chunks; Add (Chunk 4 (Some [0; 0; 1])); Remove 1%N]))
  = [2%N; 3%N; 4%N].
Proof.
  destruct (NSW_maps_agree_after_returning_calls 5 100
              [Rebuild s1_chunks; Add (Chunk 4 (Some [0; 0; 1])); Remove 1%N])
    as (Hkeys & _).
  - vm_compute. auto.
  - rewrite <- Hkeys. split; vm_compute; reflexivity.
Defined.

Example NSW_rebuild_mixed :
  NSW.rebuild (NSW.init 5 100) mixed_chunks
  = (NSW.mk [(1%N, [1; 0]); (2%N, [1; 0; 0])] [] 5 100, Raise ValueError).
Proof. vm_compute. reflexivity. Qed.

(** C9 as stated fails: [rebuild] on the two chunks stores both vectors and
    raises in [np.dot] before the first node is made, so the embedding map
    has two keys and the adjacency map none. *)
Lemma NSW_maps_disagree_after_raising_rebuild :
  ~ NSW_maps_agree (NSW_run (NSW.init 5 100) [Rebuild mixed_chunks]).
Proof.
  intros [_ Hentry]. vm_compute in Hentry.
  destruct Hentry as [entry He]; discriminate.
Qed.

(** The next search finds no entry point. *)
Example NSW_search_after_raising_rebuild :
  run unit_x (NSW.search 10 (NSW_run (NSW.init 5 100) [Rebuild mixed_chunks])
                         [113%N] 5)
  = Raise StopIteration.
Proof. vm_compute. reflexivity. Qed.

(** *** add followed by remove *)

Lemma set_mem_in (s : list UUID) (x : UUID) : set_mem s x = true <-> In x s.
Proof.
  unfold set_mem. rewrite existsb_exists. split.
  - intros (y & Hy & E). apply N.eqb_eq in E. now subst.
  - intros Hx. exists x. split; [exact Hx|apply N.eqb_refl].
Qed.

Lemma in_to_set (xs : list UUID) (x : UUID) : In x (to_set xs) -> In x xs.
Proof.
  unfold to_set. assert (G : forall acc, In x (fold_left set_add xs acc) ->
                                          In x acc \/ In x xs).
  { induction xs as [|y xs IH]; simpl; intros acc Hx; [now left|].
    destruct (IH _ Hx) as [Hacc|Hxs]; [|now right; right].
    unfold set_add in Hacc. destruct (set_mem acc y); [now left|].
    apply in_app_or in Hacc. destruct Hacc as [Hacc|[->|[]]]; auto. }
  intros Hx. destruct (G [] Hx) as [[]|Hin]. exact Hin.
Qed.

Lemma dict_del_set_absent {V} (d : dict UUID V) (k : UUID) (v : V) :
  ~ In k (keys d) -> dict_del (dict_set d k v) k = d.
Proof.
  intros Hk. rewrite dict_set_absent by exact Hk. now apply dict_del_app_last.
Qed.

Lemma dict_mem_set {V} (d : dict UUID V) (k : UUID) (v : V) :
  dict_mem (dict_set d k v) k = true.
Proof.
  apply dict_mem_in_keys. rewrite keys_dict_set. apply in_keys_set. now left.
Qed.

(** **** Brute force *)

Lemma BF_add_remove (self : BF.t) (r : DataRecord) :
  ~ In (item_id r) (keys (BF.embeddings self)) ->
  fst (BF.remove (fst (BF.add self r)) (item_id r)) = self.
Proof.
  intros Hid. destruct self as [emb]. unfold BF.add, BF.remove, BF.add_embedding.
  simpl in *. destruct (valid_embedding r) as [e|].
  - now rewrite dict_mem_set, dict_del_set_absent.
  - destruct (dict_mem emb (item_id r)) eqn:E; [|reflexivity].
    apply dict_mem_in_keys in E. contradiction.
Qed.

(** **** NSW *)

Lemma NSW_similarities_ids (i : UUID) (e : vec) (d : dict UUID vec) :
  forall sims, NSW.similarities i e d = Ok sims ->
  forall n, In n sims -> id n <> i.
Proof.
  induction d as [|[k v] d IH]; simpl; intros sims Hs n Hn.
  - injection Hs as <-. contradiction.
  - destruct (N.eqb_spec k i) as [_|Hne]; [exact (IH sims Hs n Hn)|].
    destruct (np_linalg_norm v =? 0); [exact (IH sims Hs n Hn)|].
    destruct (guarded_cosine e v); simpl in Hs; [|discriminate].
    destruct (NSW.similarities i e d) as [sims'|]; simpl in Hs; [|discriminate].
    injection Hs as <-. destruct Hn as [<-|Hn]; [exact Hne|].
    exact (IH sims' eq_refl n Hn).
Qed.

Lemma NSW_neighbors_ids (d : dict UUID vec) (i : UUID) (e : vec) (k : Z)
  (neighbors : list SearchResult) :
  NSW._find_nearest_neighbors d i e k = Ok neighbors ->
  forall n, In n neighbors -> id n <> i.
Proof.
  unfold NSW._find_nearest_neighbors.
  destruct (NSW.similarities i e d) as [sims|] eqn:E; simpl; [|discriminate].
  intros [= <-] n Hn. apply in_py_slice_to in Hn.
  apply (Permutation_in _ (sort_desc_perm sims)) in Hn.
  exact (NSW_similarities_ids _ _ _ _ E n Hn).
Qed.

Lemma dict_get_set_same {V} (d : dict UUID V) (k : UUID) (v : V) :
  dict_get (dict_set d k v) k = Some v.
Proof.
  induction d as [|[k' v'] d IH]; simpl; [now rewrite N.eqb_refl|].
  destruct (N.eqb k' k) eqn:E; simpl; rewrite E; [reflexivity|exact IH].
Qed.

Lemma dict_get_set_other {V} (d : dict UUID V) (k k' : UUID) (v : V) :
  k <> k' -> dict_get (dict_set d k v) k' = dict_get d k'.
Proof.
  intros Hne. induction d as [|[k0 v0] d IH]; simpl.
  - now rewrite (proj2 (N.eqb_neq k k') Hne).
  - destruct (N.eqb_spec k0 k) as [->|Hk]; simpl.
    + now rewrite (proj2 (N.eqb_neq k k') Hne).
    + now rewrite IH.
Qed.

Lemma NSW_connect_back_get (neighbors : list SearchResult) (i : UUID) :
  (forall n, In n neighbors -> id n <> i) ->
  forall g, dict_get (NSW.connect_back g i neighbors) i = dict_get g i.
Proof.
  unfold NSW.connect_back.
  induction neighbors as [|n neighbors IH]; simpl; intros Hn g; [reflexivity|].
  rewrite IH by auto.
  destruct (dict_get g (id n)); [|reflexivity].
  apply dict_get_set_other. apply Hn. now left.
Qed.

Lemma NSW_disconnect_returns (neighbor_ids : list UUID) (i : UUID) :
  ~ In i neighbor_ids ->
  forall g, exists g', NSW.disconnect g i neighbor_ids = (g', Ok tt).
Proof.
  induction neighbor_ids as [|n ns IH]; simpl; intros Hi g; [eauto|].
  destruct (N.eqb_spec n i) as [->|_]; [tauto|]. apply IH. tauto.
Qed.

(** For a positive [fuel], a search reads the embedding map and the first
    key of the adjacency map only. *)
Lemma NSW_search_reads (fuel : nat) (s1 s2 : NSW.t)
  (get_embedding : str -> vec) (query : str) (limit : Z) :
  NSW.embeddings s1 = NSW.embeddings s2 ->
  keys (NSW.graph s1) = keys (NSW.graph s2) ->
  run get_embedding (NSW.search (S fuel) s1 query limit)
  = run get_embedding (NSW.search (S fuel) s2 query limit).
Proof.
  intros He Hg. unfold NSW.search. rewrite He, Hg.
  destruct (is_empty (NSW.embeddings s2)); cbn [run]; [reflexivity|].
  destruct (np_linalg_norm (get_embedding query) =? 0); [reflexivity|].
  destruct (keys (NSW.graph s2)) as [|entry ks]; [reflexivity|].
  destruct (dict_get (NSW.embeddings s2) entry) as [v|]; [|reflexivity].
  destruct (NSW._cosine_similarity (get_embedding query) v) as [s|e];
    [|reflexivity].
  cbn [bind]. now rewrite !NSW_traverse_entry_only.
Qed.

Lemma NSW_add_remove (self : NSW.t) (r : DataRecord) :
  ~ In (item_id r) (keys (NSW.embeddings self)) ->
  ~ In (item_id r) (keys (NSW.graph self)) ->
  let self' := NSW.remove (fst (NSW.add self r)) (item_id r) in
  snd self' = Ok tt /\
  NSW.embeddings (fst self') = NSW.embeddings self /\
  keys (NSW.graph (fst self')) = keys (NSW.graph self).
Proof.
  intros He Hg. destruct self as [emb g M ef]. simpl in He, Hg.
  assert (Em : dict_mem emb (item_id r) = false).
  { destruct (dict_mem emb (item_id r)) eqn:E; [|reflexivity].
    apply dict_mem_in_keys in E. contradiction. }
  assert (Eg : dict_get g (item_id r) = None).
  { destruct (dict_get g (item_id r)) eqn:E; [|reflexivity].
    exfalso. apply Hg. apply dict_get_in_keys. congruence. }
  unfold NSW.add in *. simpl in *.
  destruct (valid_embedding r) as [e|]; simpl in *.
  - destruct (NSW._find_nearest_neighbors (dict_set emb (item_id r) e)
                (item_id r) e M) as [neighbors|] eqn:En; simpl in *.
    + pose proof (NSW_neighbors_ids _ _ _ _ _ En) as Hids.
      unfold NSW.remove. simpl.
      rewrite dict_mem_set, dict_del_set_absent by exact He.
      rewrite (NSW_connect_back_get _ _ Hids), dict_get_set_same.
      destruct (NSW_disconnect_returns (to_set (map id neighbors)) (item_id r))
        with (g := NSW.connect_back
                     (dict_set g (item_id r) (to_set (map id neighbors)))
                     (item_id r) neighbors) as [g' Hd].
      { intros Hin. apply in_to_set in Hin. apply in_map_iff in Hin.
        destruct Hin as (n & E & Hn). exact (Hids n Hn E). }
      rewrite Hd. simpl. repeat split.
      rewrite keys_dict_del, (NSW_disconnect_keys _ _ _ _ _ Hd).
      rewrite NSW_connect_back_keys, keys_dict_set, keys_set_absent by exact Hg.
      now apply list_remove_app_last.
    + unfold NSW.remove. simpl.
      rewrite dict_mem_set, dict_del_set_absent by exact He.
      rewrite Eg. simpl. auto.
  - unfold NSW.remove. simpl. rewrite Em, Eg. simpl. auto.
Qed.

(** **** IVF *)

Lemma IVF_assign_remove (ca : dict nat (list UUID)) (c : nat) (i : UUID) :
  In c (keys ca) ->
  (forall c' members, In (c', members) ca -> ~ In i members) ->
  IVF.remove_from_clusters (IVF.assign ca c i) i = ca.
Proof.
  unfold IVF.assign. induction ca as [|[k l] ca IH]; simpl; intros Hc Hi;
    [contradiction|].
  assert (Hl : ~ In i l) by (apply (Hi k); now left).
  destruct (Nat.eqb_spec k c) as [->|Hk]; simpl.
  - assert (Hm : set_mem (l ++ [i]) i = true).
    { apply set_mem_in. apply in_or_app. right. now left. }
    rewrite Hm. f_equal. f_equal. now apply list_remove_app_last.
  - destruct Hc as [E|Hc]; [contradiction|].
    assert (IH' := IH Hc (fun c' m Hin => Hi c' m (or_intror Hin))).
    assert (Hm : set_mem l i = false).
    { destruct (set_mem l i) eqn:E; [|reflexivity].
      apply set_mem_in in E. contradiction. }
    destruct (dict_get ca c) as [members|] eqn:Eg; simpl;
      destruct (Nat.eqb_spec k c); try contradiction;
      simpl; rewrite Hm; now rewrite IH'.
Qed.

Section IVFAddRemove.
Context `{Sklearn}.

(** On a trained index, when the cluster predicted for the record already
    has a member list, the pair of calls restores the state. *)
Lemma IVF_add_remove_trained (self : IVF.t) (r : DataRecord) (km : KMeans) :
  IVF.kmeans self = Some km ->
  ~ In (item_id r) (keys (IVF.embeddings self)) ->
  ~ IVF_member self (item_id r) ->
  (forall e c, valid_embedding r = Some e -> KMeans_predict km e = Ok c ->
               In c (keys (IVF.cluster_assignments self))) ->
  fst (IVF.remove (fst (IVF.add self r)) (item_id r)) = self.
Proof.
  intros Hkm He Hm Hkeyed. destruct self as [n k ca emb]. simpl in *.
  subst k. unfold IVF.add in *. simpl in *.
  assert (Em : dict_mem emb (item_id r) = false).
  { destruct (dict_mem emb (item_id r)) eqn:E; [|reflexivity].
    apply dict_mem_in_keys in E. contradiction. }
  destruct (valid_embedding r) as [e|]; simpl in *.
  - destruct (KMeans_predict km e) as [c|] eqn:Ep; simpl in *.
    + unfold IVF.remove. simpl.
      rewrite dict_mem_set, dict_del_set_absent by exact He. simpl.
      rewrite IVF_assign_remove; [reflexivity|now apply (Hkeyed e)|].
      intros c' members Hin Hi. apply Hm. exists c', members. auto.
    + unfold IVF.remove. simpl. now rewrite Em.
  - unfold IVF.remove. simpl. now rewrite Em.
Qed.

(** On an untrained, empty index the pair of calls leaves every search
    answering the empty list, as before. *)
Lemma IVF_add_remove_untrained (self : IVF.t) (r : DataRecord) :
  IVF.kmeans self = None -> IVF.embeddings self = [] ->
  IVF_add_remove_cancels self r.
Proof.
  intros Hkm He get_embedding query limit.
  assert (Hemb : IVF.embeddings
            (fst (IVF.remove (fst (IVF.add self r)) (item_id r))) = []).
  { destruct self as [n k ca emb]. simpl in *. subst k emb.
    unfold IVF.add. simpl. destruct (valid_embedding r) as [e|]; simpl;
      [|reflexivity].
    destruct (KMeans_fit n [e]) as [[km labels]|]; simpl; [|reflexivity].
    destruct (KMeans_predict km e); simpl; [|reflexivity].
    unfold IVF.remove, dict_mem. simpl. now rewrite N.eqb_refl. }
  unfold IVF.search at 2. rewrite Hkm. unfold IVF.search. rewrite Hemb.
  destruct (IVF.kmeans (fst (IVF.remove (fst (IVF.add self r)) (item_id r))));
    [|reflexivity].
  now rewrite orb_true_r.
Qed.

End IVFAddRemove.

(** C8, amended.  For a record whose id is in neither map of the index,
    [add] then [remove] restores the brute-force index; restores the
    embedding map and the key order of the graph of the NSW index, so that
    every search answers as before; restores the trained IVF index when
    the cluster predicted for the record already has a member list; and
    leaves an untrained empty IVF index answering every search with the
    empty list. *)
Theorem add_remove_cancels `{Sklearn} (r : DataRecord) :
  (forall self : BF.t,
      ~ In (item_id r) (keys (BF.embeddings self)) ->
      fst (BF.remove (fst (BF.add self r)) (item_id r)) = self) /\
  (forall self : NSW.t,
      ~ In (item_id r) (keys (NSW.embeddings self)) ->
      ~ In (item_id r) (keys (NSW.graph self)) ->
      snd (NSW.remove (fst (NSW.add self r)) (item_id r)) = Ok tt /\
      forall (fuel : nat) (get_embedding : str -> vec) (query : str) (limit : Z),
        run get_embedding
            (NSW.search (S fuel)
               (fst (NSW.remove (fst (NSW.add self r)) (item_id r))) query limit)
        = run get_embedding (NSW.search (S fuel) self query limit)) /\
  (forall (self : IVF.t) (km : KMeans),
      IVF.kmeans self = Some km ->
      ~ In (item_id r) (keys (IVF.embeddings self)) ->
      ~ IVF_member self (item_id r) ->
      (forall e c, valid_embedding r = Some e -> KMeans_predict km e = Ok c ->
                   In c (keys (IVF.cluster_assignments self))) ->
      fst (IVF.remove (fst (IVF.add self r)) (item_id r)) = self) /\
  (forall self : IVF.t,
      IVF.kmeans self = None -> IVF.embeddings self = [] ->
      IVF_add_remove_cancels self r).
Proof.
  split; [|split; [|split]].
  - intros self. apply BF_add_remove.
  - intros self He Hg.
    destruct (NSW_add_remove self r He Hg) as (Hret & Hemb & Hkeys).
    split; [exact Hret|]. intros fuel get_embedding query limit.
    now apply NSW_search_reads.
  - intros self km. apply IVF_add_remove_trained.
  - intros self. apply IVF_add_remove_untrained.
Qed.

Example ivf_two_keys_add_remove :
  fst (IVF.remove (fst (IVF.add ivf_two_keys (Chunk 3 (Some [-1; 0.125])))) 3%N)
  = IVF.mk 3 (Some (Fitted [[1; 0]; [0; 1]; [-1; 0]] 2))
      [(0%nat, [1%N]); (1%nat, [2%N]); (2%nat, [])]
      [(1%N, [1; 0]); (2%N, [0; 1])].
Proof. vm_compute. reflexivity. Qed.

Example ivf_two_keys_searches :
  exists c2 c1,
    run near_cluster2 (IVF.search ivf_two_keys [113%N] 5)
    = Ok [mkSearchResult 2 c2] /\
    run near_cluster2
        (IVF.search
           (fst (IVF.remove
                   (fst (IVF.add ivf_two_keys (Chunk 3 (Some [-1; 0.125])))) 3%N))
           [113%N] 5)
    = Ok [mkSearchResult 2 c2; mkSearchResult 1 c1].
Proof. vm_compute. do 2 eexists. split; reflexivity. Qed.

(** C8 as stated fails: adding chunk 3 creates the member list of cluster
    2, which stays after the removal; the search then probes three clusters
    instead of two and returns chunk 1 as well. *)
Lemma IVF_add_remove_changes_search :
  ~ @IVF_add_remove_cancels first_rows ivf_two_keys (Chunk 3 (Some [-1; 0.125])).
Proof.
  intros Hclaim. specialize (Hclaim near_cluster2 [113%N] 5%Z).
  vm_compute in Hclaim. discriminate.
Qed.

Lemma add_remove_cancels_witness :
  fst (BF.remove (fst (BF.add s1_index (Chunk 9 (Some [1; 0.5])))) 9%N)
  = s1_index /\
  fst (IVF.remove (fst (IVF.add ivf_four (Chunk 9 (Some [1; 0.5])))) 9%N)
  = ivf_four /\
  run s1_provider
      (NSW.search 1
         (fst (NSW.remove (fst (NSW.add nsw_s1 (Chunk 9 (Some [1; 0.5; 0])))) 9%N))
         [113%N] 5)
  = run s1_provider (NSW.search 1 nsw_s1 [113%N] 5).
Proof.
  destruct (@add_remove_cancels first_rows (Chunk 9 (Some [1; 0.5])))
    as (Hbf & _ & Hivf & _).
  destruct (@add_remove_cancels first_rows (Chunk 9 (Some [1; 0.5; 0])))
    as (_ & Hnsw & _).
  split; [|split].
  - apply Hbf. simpl. intros [E|[E|[E|[]]]]; discriminate.
  - apply (Hivf ivf_four (Fitted [[1; 0]; [0; 1]; [-1; 0]; [0; -1]] 2)).
    + reflexivity.
    + simpl. intros [E|[E|[E|[E|[]]]]]; discriminate.
    + intros (c & members & Hin & Hi). simpl in Hin.
      destruct Hin as [E|[E|[E|[E|[]]]]]; injection E as <- <-;
        simpl in Hi; destruct Hi as [E|[]]; discriminate.
    + intros e c [= <-] Hp. vm_compute in Hp. injection Hp as <-.
      simpl. auto.
  - apply (Hnsw nsw_s1).
    + simpl. intros [E|[E|[E|[]]]]; discriminate.
    + simpl. intros [E|[E|[E|[]]]]; discriminate.
Defined.

(** ** Part IV: further properties of the indexes and the collection *)

(** *** How many results a search returns *)

Lemma length_py_slice_to {A} (l : list A) (limit : Z) :
  (0 <= limit)%Z -> (length (py_slice_to l limit) <= Z.to_nat limit)%nat.
Proof.
  intros Hk. rewrite py_slice_to_nonneg by exact Hk.
  rewrite length_firstn. lia.
Qed.

Lemma IVF_search_sliced `{Sklearn} (self : IVF.t) (get_embedding : str -> vec)
  (query : str) (limit : Z) (rs : list SearchResult) :
  run get_embedding (IVF.search self query limit) = Ok rs ->
  rs = [] \/
  exists scored,
    IVF.results self (get_embedding query)
      (IVF.candidates self (probed_clusters self (get_embedding query)))
    = Ok scored /\ rs = py_slice_to (sort_desc scored) limit.
Proof.
  unfold IVF.search, probed_clusters, cluster_dists. intros Hrun.
  destruct (IVF.kmeans self) as [km|]; simpl in Hrun;
    [|injection Hrun as <-; now left].
  destruct (is_empty (strip query) || is_empty (IVF.embeddings self));
    simpl in Hrun; [injection Hrun as <-; now left|].
  destruct (KMeans_predict km (get_embedding query)); simpl in Hrun; [|discriminate].
  destruct km as [|d|centers d]; simpl in Hrun; [discriminate|discriminate|].
  destruct (mapM (fun c => np_dist c (get_embedding query)) centers) as [ds|];
    simpl in Hrun; [|discriminate].
  destruct (is_empty (IVF.candidates self (IVF.nearest_clusters self ds)));
    [injection Hrun as <-; now left|].
  destruct (IVF.results self (get_embedding query)
              (IVF.candidates self (IVF.nearest_clusters self ds)))
    as [scored|] eqn:Ers; simpl in Hrun; [|discriminate].
  injection Hrun as <-. right. exists scored. auto.
Qed.

Lemma BF_search_sliced (self : BF.t) (get_embedding : str -> vec)
  (query : str) (limit : Z) (rs : list SearchResult) :
  run get_embedding (BF.search self query limit) = Ok rs ->
  rs = [] \/
  exists scored,
    BF.similarities (get_embedding query) (BF.embeddings self) = Ok scored
    /\ rs = py_slice_to (sort_desc scored) limit.
Proof.
  unfold BF.search. intros Hrun.
  destruct (is_empty (BF.embeddings self)); simpl in Hrun;
    [injection Hrun as <-; now left|].
  destruct (np_linalg_norm (get_embedding query) =? 0);
    [injection Hrun as <-; now left|].
  destruct (BF.similarities (get_embedding query) (BF.embeddings self))
    as [scored|]; simpl in Hrun; [|discriminate].
  injection Hrun as <-. right. exists scored. auto.
Qed.

(** What a returning NSW search returned: nothing, or the entry point,
    the first key of the adjacency map, scored and cut to [limit]. *)
Lemma NSW_search_entry (fuel : nat) (self : NSW.t) (get_embedding : str -> vec)
  (query : str) (limit : Z) (rs : list SearchResult) :
  run get_embedding (NSW.search fuel self query limit) = Ok (Some rs) ->
  rs = [] \/
  exists entry_point ks v s,
    keys (NSW.graph self) = entry_point :: ks /\
    dict_get (NSW.embeddings self) entry_point = Some v /\
    NSW._cosine_similarity (get_embedding query) v = Ok s /\
    rs = py_slice_to [mkSearchResult entry_point s] limit.
Proof.
  unfold NSW.search. intros Hrun.
  destruct (is_empty (NSW.embeddings self)); cbn [run] in Hrun;
    [injection Hrun as <-; now left|].
  destruct (np_linalg_norm (get_embedding query) =? 0);
    [injection Hrun as <-; now left|].
  destruct (keys (NSW.graph self)) as [|entry ks]; [discriminate|].
  destruct (dict_get (NSW.embeddings self) entry) as [v|] eqn:Ev;
    [|discriminate].
  destruct (NSW._cosine_similarity (get_embedding query) v) as [s|] eqn:Es;
    [|discriminate].
  cbn [bind] in Hrun. destruct fuel as [|fuel].
  - simpl in Hrun. discriminate.
  - rewrite NSW_traverse_entry_only in Hrun. cbn [bind] in Hrun.
    injection Hrun as <-. right. exists entry, ks, v, s. repeat split; auto.
Qed.

(** X1.  With a limit that is not negative, a search of any of the three
    indexes that returns, returns at most [limit] results. *)
Theorem search_returns_at_most_limit `{Sklearn} (get_embedding : str -> vec)
  (query : str) (limit : Z) (rs : list SearchResult) :
  (0 <= limit)%Z ->
  (forall self : BF.t,
      run get_embedding (BF.search self query limit) = Ok rs ->
      (length rs <= Z.to_nat limit)%nat) /\
  (forall self : IVF.t,
      run get_embedding (IVF.search self query limit) = Ok rs ->
      (length rs <= Z.to_nat limit)%nat) /\
  (forall (fuel : nat) (self : NSW.t),
      run get_embedding (NSW.search fuel self query limit) = Ok (Some rs) ->
      (length rs <= Z.to_nat limit)%nat).
Proof.
  intros Hk. split; [|split].
  - intros self Hrun.
    destruct (BF_search_sliced _ _ _ _ _ Hrun) as [->|(scored & _ & ->)];
      [simpl; lia|now apply length_py_slice_to].
  - intros self Hrun.
    destruct (IVF_search_sliced _ _ _ _ _ Hrun) as [->|(scored & _ & ->)];
      [simpl; lia|now apply length_py_slice_to].
  - intros fuel self Hrun.
    destruct (NSW_search_entry _ _ _ _ _ _ Hrun)
      as [->|(e & ks & v & s & _ & _ & _ & ->)];
      [simpl; lia|now apply length_py_slice_to].
Qed.

Lemma search_returns_at_most_limit_witness :
  exists rs,
    run s1_provider (BF.search s1_index [113%N] 2) = Ok rs /\ (length rs <= 2)%nat.
Proof.
  eexists. split; [vm_compute; reflexivity|].
  destruct (@search_returns_at_most_limit first_rows s1_provider [113%N] 2%Z
              [mkSearchResult 1 1; mkSearchResult 3 (0.5 / sqrt 0.5)])
    as (Hbf & _); [lia|].
  apply (Hbf s1_index). vm_compute. reflexivity.
Defined.

(** *** What a search returns *)

Lemma BF_similarities_stored (q : vec) (d : dict UUID vec) :
  forall sims, BF.similarities q d = Ok sims ->
  forall r, In r sims ->
  exists v, In (id r, v) d /\ (np_linalg_norm v =? 0) = false
            /\ guarded_cosine q v = Ok (confidence r).
Proof.
  induction d as [|[i v] d IH]; simpl; intros sims Hs r Hr.
  - injection Hs as <-. contradiction.
  - destruct (np_linalg_norm v =? 0) eqn:En.
    + destruct (IH _ Hs _ Hr) as (w & Hin & Hw). exists w. auto.
    + destruct (guarded_cosine q v) as [c|] eqn:Ec; simpl in Hs; [|discriminate].
      destruct (BF.similarities q d) as [sims'|]; simpl in Hs; [|discriminate].
      injection Hs as <-. destruct Hr as [<-|Hr].
      * exists v. simpl. auto.
      * destruct (IH _ eq_refl _ Hr) as (w & Hin & Hw). exists w. auto.
Qed.

Lemma IVF_results_stored (self : IVF.t) (q : vec) (cands : list UUID) :
  forall rs, IVF.results self q cands = Ok rs ->
  forall r, In r rs ->
  exists v, dict_get (IVF.embeddings self) (id r) = Some v
            /\ IVF.cosine q v = Ok (confidence r).
Proof.
  induction cands as [|i cands IH]; simpl; intros rs Hrs r Hr.
  - injection Hrs as <-. contradiction.
  - destruct (dict_get (IVF.embeddings self) i) as [v|] eqn:Eg; [|eauto].
    destruct (IVF.cosine q v) as [c|] eqn:Ec; simpl in Hrs; [|discriminate].
    destruct (IVF.results self q cands) as [rs'|]; simpl in Hrs; [|discriminate].
    injection Hrs as <-. destruct Hr as [<-|Hr]; [|eauto].
    exists v. simpl. auto.
Qed.

Lemma dict_get_in {K V} `{Key K} (d : dict K V) (k : K) (v : V) :
  dict_get d k = Some v -> In (k, v) d.
Proof.
  induction d as [|[k' v'] d IH]; simpl; [discriminate|].
  destruct (key_eqb k' k) eqn:E.
  - intros [= <-]. apply key_eqb_eq in E. subst. now left.
  - auto.
Qed.

Lemma BF_search_stored (self : BF.t) (get_embedding : str -> vec)
  (query : str) (limit : Z) (rs : list SearchResult) :
  run get_embedding (BF.search self query limit) = Ok rs ->
  forall r, In r rs ->
  exists v, In (id r, v) (BF.embeddings self) /\
            guarded_cosine (get_embedding query) v = Ok (confidence r).
Proof.
  intros Hrun r Hr.
  destruct (BF_search_sliced _ _ _ _ _ Hrun) as [->|(scored & Hs & ->)];
    [contradiction|].
  apply in_py_slice_to in Hr.
  apply (Permutation_in _ (sort_desc_perm scored)) in Hr.
  destruct (BF_similarities_stored _ _ _ Hs _ Hr) as (v & Hin & _ & Hc).
  eauto.
Qed.

Lemma IVF_search_stored `{Sklearn} (self : IVF.t) (get_embedding : str -> vec)
  (query : str) (limit : Z) (rs : list SearchResult) :
  run get_embedding (IVF.search self query limit) = Ok rs ->
  forall r, In r rs ->
  exists v, dict_get (IVF.embeddings self) (id r) = Some v /\
            IVF.cosine (get_embedding query) v = Ok (confidence r).
Proof.
  intros Hrun r Hr.
  destruct (IVF_search_sliced _ _ _ _ _ Hrun) as [->|(scored & Hs & ->)];
    [contradiction|].
  apply in_py_slice_to in Hr.
  apply (Permutation_in _ (sort_desc_perm scored)) in Hr.
  exact (IVF_results_stored _ _ _ _ Hs _ Hr).
Qed.

Lemma NSW_search_stored (fuel : nat) (self : NSW.t) (get_embedding : str -> vec)
  (query : str) (limit : Z) (rs : list SearchResult) :
  run get_embedding (NSW.search fuel self query limit) = Ok (Some rs) ->
  forall r, In r rs ->
  exists v, dict_get (NSW.embeddings self) (id r) = Some v /\
            NSW._cosine_similarity (get_embedding query) v = Ok (confidence r).
Proof.
  intros Hrun r Hr.
  destruct (NSW_search_entry _ _ _ _ _ _ Hrun)
    as [->|(e & ks & v & s & _ & Hv & Hs & ->)]; [contradiction|].
  apply in_py_slice_to in Hr. destruct Hr as [<-|[]]. simpl. eauto.
Qed.

(** X2.  Every result of a search names an id whose vector is stored in
    the index, and its confidence is the similarity the index computes
    between the embedded query and that vector. *)
Theorem search_results_are_stored `{Sklearn} (get_embedding : str -> vec)
  (query : str) (limit : Z) (rs : list SearchResult) (r : SearchResult) :
  In r rs ->
  (forall self : BF.t,
      run get_embedding (BF.search self query limit) = Ok rs ->
      exists v, In (id r, v) (BF.embeddings self) /\
                guarded_cosine (get_embedding query) v = Ok (confidence r)) /\
  (forall self : IVF.t,
      run get_embedding (IVF.search self query limit) = Ok rs ->
      exists v, dict_get (IVF.embeddings self) (id r) = Some v /\
                IVF.cosine (get_embedding query) v = Ok (confidence r)) /\
  (forall (fuel : nat) (self : NSW.t),
      run get_embedding (NSW.search fuel self query limit) = Ok (Some rs) ->
      exists v, dict_get (NSW.embeddings self) (id r) = Some v /\
                NSW._cosine_similarity (get_embedding query) v
                = Ok (confidence r)).
Proof.
  intros Hr. split; [|split].
  - intros self Hrun. exact (BF_search_stored _ _ _ _ _ Hrun _ Hr).
  - intros self Hrun. exact (IVF_search_stored _ _ _ _ _ Hrun _ Hr).
  - intros fuel self Hrun. exact (NSW_search_stored _ _ _ _ _ _ Hrun _ Hr).
Qed.

Lemma search_results_are_stored_witness :
  exists v, In (3%N, v) (BF.embeddings s1_index) /\
            guarded_cosine [1; 0; 0] v = Ok (0.5 / sqrt 0.5).
Proof.
  destruct (@search_results_are_stored first_rows s1_provider [113%N] 2%Z
              [mkSearchResult 1 1; mkSearchResult 3 (0.5 / sqrt 0.5)]
              (mkSearchResult 3 (0.5 / sqrt 0.5)))
    as (Hbf & _); [simpl; auto|].
  apply (Hbf s1_index). vm_compute. reflexivity.
Defined.

(** *** Removal *)

Lemma in_list_remove (ks : list UUID) (k x : UUID) :
  In x (list_remove ks k) -> In x ks.
Proof.
  induction ks as [|y ks IH]; simpl; [auto|].
  destruct (N.eqb y k); simpl; tauto.
Qed.

Lemma list_remove_nodup_absent (ks : list UUID) (k : UUID) :
  NoDup ks -> ~ In k (list_remove ks k).
Proof.
  induction 1 as [|y ks Hy Hnd IH]; simpl; [auto|].
  destruct (N.eqb_spec y k) as [->|Hne]; [exact Hy|].
  simpl. intros [E|Hin]; [contradiction|auto].
Qed.

Lemma NoDup_list_remove (ks : list UUID) (k : UUID) :
  NoDup ks -> NoDup (list_remove ks k).
Proof.
  induction 1 as [|y ks Hy Hnd IH]; simpl; [constructor|].
  destruct (N.eqb y k); [exact Hnd|].
  constructor; [|exact IH]. intros Hin. apply Hy. eapply in_list_remove, Hin.
Qed.

(** [if k in d: del d[k]] leaves no entry under [k]. *)
Lemma dict_discard_absent {V} (d : dict UUID V) (k : UUID) :
  NoDup (keys d) ->
  ~ In k (keys (if dict_mem d k then dict_del d k else d)).
Proof.
  intros Hnd. destruct (dict_mem d k) eqn:Em.
  - rewrite keys_dict_del. now apply list_remove_nodup_absent.
  - intros Hin. apply dict_mem_in_keys in Hin. congruence.
Qed.

Lemma in_keys {K V} (d : dict K V) (k : K) (v : V) : In (k, v) d -> In k (keys d).
Proof. intros Hin. apply (in_map fst) in Hin. exact Hin. Qed.

(** X3.  After [remove(item_id)], no search of the index returns
    [item_id], whatever the query; for the NSW index also when [remove]
    raised. *)
Theorem removed_id_is_not_returned `{Sklearn} (get_embedding : str -> vec)
  (query : str) (limit : Z) (item_id : UUID) (rs : list SearchResult) :
  (forall self : BF.t,
      NoDup (keys (BF.embeddings self)) ->
      run get_embedding (BF.search (fst (BF.remove self item_id)) query limit)
      = Ok rs ->
      ~ In item_id (map id rs)) /\
  (forall self : IVF.t,
      NoDup (keys (IVF.embeddings self)) ->
      run get_embedding (IVF.search (fst (IVF.remove self item_id)) query limit)
      = Ok rs ->
      ~ In item_id (map id rs)) /\
  (forall (fuel : nat) (self : NSW.t),
      NoDup (keys (NSW.embeddings self)) ->
      run get_embedding
          (NSW.search fuel (fst (NSW.remove self item_id)) query limit)
      = Ok (Some rs) ->
      ~ In item_id (map id rs)).
Proof.
  split; [|split].
  - intros self Hnd Hrun Hin. apply in_map_iff in Hin.
    destruct Hin as (r & <- & Hr).
    destruct (BF_search_stored _ _ _ _ _ Hrun _ Hr) as (v & Hv & _).
    apply in_keys in Hv. revert Hv. simpl. now apply dict_discard_absent.
  - intros self Hnd Hrun Hin. apply in_map_iff in Hin.
    destruct Hin as (r & <- & Hr).
    destruct (IVF_search_stored _ _ _ _ _ Hrun _ Hr) as (v & Hv & _).
    apply dict_get_in, in_keys in Hv. revert Hv. unfold IVF.remove.
    destruct (dict_mem (IVF.embeddings self) (id r)) eqn:Em; simpl.
    + rewrite keys_dict_del. now apply list_remove_nodup_absent.
    + intros Hk. apply dict_mem_in_keys in Hk. congruence.
  - intros fuel self Hnd Hrun Hin. apply in_map_iff in Hin.
    destruct Hin as (r & <- & Hr).
    destruct (NSW_search_stored _ _ _ _ _ _ Hrun _ Hr) as (v & Hv & _).
    apply dict_get_in, in_keys in Hv. revert Hv.
    assert (He : NSW.embeddings (fst (NSW.remove self (id r)))
                 = if dict_mem (NSW.embeddings self) (id r)
                   then dict_del (NSW.embeddings self) (id r)
                   else NSW.embeddings self).
    { unfold NSW.remove.
      destruct (dict_get (NSW.graph self) (id r)) as [ns|]; [|reflexivity].
      destruct (NSW.disconnect (NSW.graph self) (id r) ns) as [g [[]|e]];
        reflexivity. }
    rewrite He. now apply dict_discard_absent.
Qed.

Lemma removed_id_is_not_returned_witness :
  exists rs,
    run s1_provider (BF.search (fst (BF.remove s1_index 1%N)) [113%N] 5) = Ok rs
    /\ ~ In 1%N (map id rs).
Proof.
  eexists. split; [vm_compute; reflexivity|].
  apply (proj1 (@removed_id_is_not_returned first_rows s1_provider [113%N] 5%Z
                  1%N _) s1_index).
  - simpl. repeat constructor; simpl; intuition discriminate.
  - vm_compute. reflexivity.
Defined.

(** *** The adjacency map of the NSW index *)

Lemma in_dict_set {K V} `{Key K} (d : dict K V) (k k' : K) (v v' : V) :
  In (k', v') (dict_set d k v) -> (k' = k /\ v' = v) \/ In (k', v') d.
Proof.
  induction d as [|[k0 v0] d IH]; simpl.
  - intros [[= <- <-]|[]]. now left.
  - destruct (key_eqb k0 k) eqn:E; simpl.
    + apply key_eqb_eq in E. subst k0.
      intros [[= <- <-]|Hin]; [now left|right; now right].
    + intros [Hin|Hin]; [right; now left|].
      destruct (IH Hin) as [?|?]; [now left|right; now right].
Qed.

Lemma in_dict_del {K V} `{Key K} (d : dict K V) (k : K) (p : K * V) :
  In p (dict_del d k) -> In p d.
Proof.
  induction d as [|[k0 v0] d IH]; simpl; [auto|].
  destruct (key_eqb k0 k); simpl; tauto.
Qed.

Lemma in_set_add (s : list UUID) (x y : UUID) :
  In x (set_add s y) -> x = y \/ In x s.
Proof.
  unfold set_add. destruct (set_mem s y); [auto|].
  intros Hin. apply in_app_or in Hin. destruct Hin as [?|[<-|[]]]; auto.
Qed.

Lemma in_set_add_new (s : list UUID) (y : UUID) : In y (set_add s y).
Proof.
  unfold set_add. destruct (set_mem s y) eqn:E.
  - now apply set_mem_in.
  - apply in_or_app. right. now left.
Qed.

Lemma in_set_discard (s : list UUID) (x y : UUID) :
  In x (set_discard s y) -> In x s.
Proof. unfold set_discard. intros Hin. now apply filter_In in Hin. Qed.

Lemma NSW_neighbors_not_self (d : dict UUID vec) (i : UUID) (e : vec) (k : Z)
  (neighbors : list SearchResult) :
  NSW._find_nearest_neighbors d i e k = Ok neighbors ->
  ~ In i (to_set (map id neighbors)).
Proof.
  intros En Hin. apply in_to_set, in_map_iff in Hin.
  destruct Hin as (n & E & Hn). exact (NSW_neighbors_ids _ _ _ _ _ En n Hn E).
Qed.

Lemma NSW_build_graph_no_self_loop (embs : dict UUID vec) (k : Z)
  (items : dict UUID vec) :
  forall g, NSW_no_self_loop g ->
            NSW_no_self_loop (fst (NSW.build_graph embs k items g)).
Proof.
  induction items as [|[i e] items IH]; simpl; intros g Hg; [exact Hg|].
  destruct (NSW._find_nearest_neighbors embs i e k) as [neighbors|] eqn:En;
    [|exact Hg].
  apply IH. intros u s Hin Hs. apply in_dict_set in Hin.
  destruct Hin as [[-> ->]|Hin]; [|exact (Hg _ _ Hin Hs)].
  exact (NSW_neighbors_not_self _ _ _ _ _ En Hs).
Qed.

Lemma NSW_connect_back_no_self_loop (neighbors : list SearchResult) (i : UUID) :
  (forall n, In n neighbors -> id n <> i) ->
  forall g, NSW_no_self_loop g ->
            NSW_no_self_loop (NSW.connect_back g i neighbors).
Proof.
  unfold NSW.connect_back.
  induction neighbors as [|n ns IH]; simpl; intros Hn g Hg; [exact Hg|].
  apply IH; [auto|].
  destruct (dict_get g (id n)) as [s|] eqn:E; [|exact Hg].
  intros u s' Hin Hs'. apply in_dict_set in Hin.
  destruct Hin as [[-> ->]|Hin]; [|exact (Hg _ _ Hin Hs')].
  apply in_set_add in Hs'. destruct Hs' as [E'|Hs'].
  - exact (Hn n (or_introl eq_refl) E').
  - exact (Hg _ _ (dict_get_in _ _ _ E) Hs').
Qed.

Lemma NSW_disconnect_no_self_loop (neighbor_ids : list UUID) (i : UUID) :
  forall g, NSW_no_self_loop g ->
            NSW_no_self_loop (fst (NSW.disconnect g i neighbor_ids)).
Proof.
  induction neighbor_ids as [|n ns IH]; simpl; intros g Hg; [exact Hg|].
  assert (Hg' : NSW_no_self_loop
                  match dict_get g n with
                  | Some s => dict_set g n (set_discard s i)
                  | None => g
                  end).
  { destruct (dict_get g n) as [s|] eqn:E; [|exact Hg].
    intros u s' Hin Hs'. apply in_dict_set in Hin.
    destruct Hin as [[-> ->]|Hin]; [|exact (Hg _ _ Hin Hs')].
    apply in_set_discard in Hs'. exact (Hg _ _ (dict_get_in _ _ _ E) Hs'). }
  destruct (N.eqb n i); [exact Hg'|]. now apply IH.
Qed.

(** Whether it returns or raises, a call keeps the adjacency map free of
    self-loops. *)
Lemma NSW_step_no_self_loop (self : NSW.t) (o : NSW_op) :
  NSW_no_self_loop (NSW.graph self) ->
  NSW_no_self_loop (NSW.graph (fst (NSW_step self o))).
Proof.
  intros Hg. destruct o as [items|item|i]; simpl.
  - unfold NSW.rebuild.
    pose proof (NSW_build_graph_no_self_loop
                  (fold_left NSW.add_embedding items []) (NSW.n_neighbors self)
                  (fold_left NSW.add_embedding items []) []) as Hb.
    destruct (NSW.build_graph _ _ _ _) as [g r]. simpl in *.
    apply Hb. intros u s [].
  - unfold NSW.add. destruct (valid_embedding item) as [e|]; [|exact Hg].
    destruct (NSW._find_nearest_neighbors _ _ _ _) as [neighbors|] eqn:En;
      [|exact Hg].
    simpl. apply NSW_connect_back_no_self_loop.
    + exact (NSW_neighbors_ids _ _ _ _ _ En).
    + intros u s Hin Hs. apply in_dict_set in Hin.
      destruct Hin as [[-> ->]|Hin]; [|exact (Hg _ _ Hin Hs)].
      exact (NSW_neighbors_not_self _ _ _ _ _ En Hs).
  - unfold NSW.remove.
    destruct (dict_get (NSW.graph self) i) as [ns|]; [|exact Hg].
    pose proof (NSW_disconnect_no_self_loop ns i _ Hg) as Hd.
    destruct (NSW.disconnect (NSW.graph self) i ns) as [g [[]|e]]; simpl in *.
    + intros u s Hin. apply in_dict_del in Hin. exact (Hd _ _ Hin).
    + exact Hd.
Qed.

Lemma NSW_run_no_self_loop (ops : list NSW_op) :
  forall self, NSW_no_self_loop (NSW.graph self) ->
               NSW_no_self_loop (NSW.graph (NSW_run self ops)).
Proof.
  induction ops as [|o ops IH]; simpl; intros self Hg; [exact Hg|].
  apply IH. now apply NSW_step_no_self_loop.
Qed.

(** X4.  Whatever calls of [rebuild], [add] and [remove] were made on a new
    NSW index, whether they returned or raised, no node lists itself among
    its neighbours, and therefore [remove] returns without raising. *)
Theorem NSW_remove_never_raises (n_neighbors ef_construction : Z)
  (ops : list NSW_op) (item_id : UUID) :
  let self := NSW_run (NSW.init n_neighbors ef_construction) ops in
  NSW_no_self_loop (NSW.graph self) /\
  snd (NSW.remove self item_id) = Ok tt.
Proof.
  intros self.
  assert (Hg : NSW_no_self_loop (NSW.graph self)).
  { apply NSW_run_no_self_loop. intros u s []. }
  split; [exact Hg|]. unfold NSW.remove.
  destruct (dict_get (NSW.graph self) item_id) as [ns|] eqn:E; [|reflexivity].
  destruct (NSW_disconnect_returns ns item_id
              (Hg _ _ (dict_get_in _ _ _ E)) (NSW.graph self)) as [g' Hd].
  now rewrite Hd.
Qed.

Lemma NSW_connect_back_keeps (neighbors : list SearchResult) (i : UUID) :
  forall g k s sv,
    dict_get g k = Some s -> In i s ->
    dict_get (NSW.connect_back g i neighbors) k = Some sv -> In i sv.
Proof.
  unfold NSW.connect_back.
  induction neighbors as [|n ns IH]; simpl; intros g k s sv Hg Hs Hsv.
  - congruence.
  - destruct (N.eq_dec (id n) k) as [<-|Hne].
    + rewrite Hg in Hsv.
      eapply IH; [apply dict_get_set_same|apply in_set_add_new|exact Hsv].
    + refine (IH _ k s sv _ Hs Hsv).
      destruct (dict_get g (id n)); [|exact Hg].
      now rewrite dict_get_set_other.
Qed.

Lemma NSW_connect_back_links (neighbors : list SearchResult) (i : UUID) :
  forall g k sv,
    In k (map id neighbors) ->
    dict_get (NSW.connect_back g i neighbors) k = Some sv -> In i sv.
Proof.
  induction neighbors as [|n ns IH]; simpl; intros g k sv Hk Hsv; [contradiction|].
  destruct (in_dec N.eq_dec k (map id ns)) as [Hin|Hout].
  - exact (IH _ _ _ Hin Hsv).
  - destruct Hk as [<-|Hk]; [|contradiction].
    destruct (dict_get g (id n)) as [s|] eqn:E.
    + eapply NSW_connect_back_keeps;
        [apply dict_get_set_same|apply in_set_add_new|exact Hsv].
    + exfalso.
      assert (Hkeys : In (id n) (keys (NSW.connect_back g i ns))).
      { apply dict_get_in_keys.
        change (fold_left _ ns g) with (NSW.connect_back g i ns) in Hsv.
        congruence. }
      rewrite NSW_connect_back_keys in Hkeys.
      apply dict_get_in_keys in Hkeys. contradiction.
Qed.

(** X5.  When [add] returns, the new vector is stored, the new node's
    neighbour set is the one [_find_nearest_neighbors] chose, and every
    chosen neighbour that is a node of the graph lists the new node in
    turn. *)
Theorem NSW_add_links_back (self self' : NSW.t) (item : DataRecord) (e : vec) :
  valid_embedding item = Some e ->
  NSW.add self item = (self', Ok tt) ->
  dict_get (NSW.embeddings self') (item_id item) = Some e /\
  exists neighbors,
    NSW._find_nearest_neighbors (NSW.embeddings self') (item_id item) e
                                (NSW.n_neighbors self) = Ok neighbors /\
    dict_get (NSW.graph self') (item_id item)
    = Some (to_set (map id neighbors)) /\
    forall v sv, In v (to_set (map id neighbors)) ->
                 dict_get (NSW.graph self') v = Some sv ->
                 In (item_id item) sv.
Proof.
  intros He Hadd. unfold NSW.add in Hadd. rewrite He in Hadd.
  destruct (NSW._find_nearest_neighbors _ _ _ _) as [neighbors|] eqn:En;
    [|discriminate].
  injection Hadd as <-. simpl. split; [apply dict_get_set_same|].
  exists neighbors. split; [exact En|]. split.
  - rewrite (NSW_connect_back_get _ _ (NSW_neighbors_ids _ _ _ _ _ En)).
    apply dict_get_set_same.
  - intros v sv Hv Hsv. apply in_to_set in Hv.
    exact (NSW_connect_back_links _ _ _ _ _ Hv Hsv).
Qed.

Lemma NSW_add_links_back_witness :
  dict_get (NSW.embeddings (fst (NSW.add nsw_s1 (Chunk 4 (Some [0; 0; 1])))))
           4%N = Some [0; 0; 1] /\
  exists neighbors,
    dict_get (NSW.graph (fst (NSW.add nsw_s1 (Chunk 4 (Some [0; 0; 1]))))) 4%N
    = Some (to_set (map id neighbors)).
Proof.
  destruct (NSW_add_links_back nsw_s1
              (fst (NSW.add nsw_s1 (Chunk 4 (Some [0; 0; 1]))))
              (Chunk 4 (Some [0; 0; 1])) [0; 0; 1] eq_refl)
    as (He & neighbors & _ & Hg & _).
  - vm_compute. reflexivity.
  - split; [exact He|]. exists neighbors. exact Hg.
Defined.

(** *** The graph [rebuild] makes *)

Lemma NSW_similarities_others (u : UUID) (e : vec) (d : dict UUID vec) :
  forall sims, NSW.similarities u e d = Ok sims ->
               map id sims = keys (NSW_others d u).
Proof.
  induction d as [|[o v] d IH]; simpl; intros sims Hs.
  - now injection Hs as <-.
  - destruct (N.eqb o u); simpl; [auto|].
    destruct (np_linalg_norm v =? 0); simpl; [auto|].
    destruct (guarded_cosine e v) as [c|]; simpl in Hs; [|discriminate].
    destruct (NSW.similarities u e d) as [sims'|]; simpl in Hs; [|discriminate].
    injection Hs as <-. simpl. f_equal. auto.
Qed.

Lemma to_set_acc_nodup (l : list UUID) :
  forall acc, NoDup (acc ++ l) -> fold_left set_add l acc = acc ++ l.
Proof.
  induction l as [|x l IH]; simpl; intros acc Hnd; [now rewrite app_nil_r|].
  assert (Hx : set_mem acc x = false).
  { destruct (set_mem acc x) eqn:E; [|reflexivity].
    apply set_mem_in in E. apply NoDup_remove_2 in Hnd.
    exfalso. apply Hnd. apply in_or_app. now left. }
  unfold set_add at 2. rewrite Hx.
  rewrite IH; rewrite <- app_assoc; [reflexivity|exact Hnd].
Qed.

Lemma to_set_nodup (l : list UUID) : NoDup l -> to_set l = l.
Proof. intros Hnd. unfold to_set. now rewrite to_set_acc_nodup. Qed.

Lemma NoDup_firstn {A} (n : nat) (l : list A) : NoDup l -> NoDup (firstn n l).
Proof.
  intros Hnd. rewrite <- (firstn_skipn n l) in Hnd.
  now apply NoDup_app_remove_r in Hnd.
Qed.

Lemma NoDup_keys_filter {V} (f : UUID * V -> bool) (d : dict UUID V) :
  NoDup (keys d) -> NoDup (keys (filter f d)).
Proof.
  induction d as [|[k v] d IH]; simpl; intros Hnd; [constructor|].
  inversion Hnd as [|? ? Hk Hd]; subst.
  destruct (f (k, v)); simpl; [|auto].
  constructor; [|auto]. intros Hin. apply Hk.
  apply in_map_iff in Hin. destruct Hin as ([k' v'] & E & Hin). simpl in E.
  subst k'. apply filter_In in Hin. exact (in_keys _ _ _ (proj1 Hin)).
Qed.

(** The neighbour set [_find_nearest_neighbors] gives for [u], as a set:
    distinct ids of the other stored vectors of non-zero norm. *)
Lemma NSW_neighbors_set (d : dict UUID vec) (u : UUID) (e : vec) (k : Z)
  (neighbors : list SearchResult) :
  NoDup (keys d) -> (0 <= k)%Z ->
  NSW._find_nearest_neighbors d u e k = Ok neighbors ->
  let s := to_set (map id neighbors) in
  NoDup s /\
  (forall v, In v s -> In v (keys (NSW_others d u))) /\
  length s = Nat.min (Z.to_nat k) (length (NSW_others d u)).
Proof.
  intros Hnd Hk En. unfold NSW._find_nearest_neighbors in En.
  destruct (NSW.similarities u e d) as [sims|] eqn:Es; simpl in En;
    [|discriminate].
  injection En as <-. pose proof (NSW_similarities_others _ _ _ _ Es) as Hids.
  assert (Hperm : Permutation (map id (sort_desc sims)) (keys (NSW_others d u))).
  { rewrite <- Hids. apply Permutation_map, sort_desc_perm. }
  assert (Hnd' : NoDup (map id (sort_desc sims))).
  { apply (Permutation_NoDup (Permutation_sym Hperm)).
    now apply NoDup_keys_filter. }
  rewrite py_slice_to_nonneg by exact Hk. cbv zeta.
  rewrite <- firstn_map, to_set_nodup by now apply NoDup_firstn.
  split; [now apply NoDup_firstn|]. split.
  - intros v Hv. apply in_firstn in Hv. exact (Permutation_in _ Hperm Hv).
  - rewrite length_firstn, length_map.
    rewrite (Permutation_length (sort_desc_perm sims)).
    rewrite <- (length_map id sims), Hids. unfold keys. rewrite length_map. lia.
Qed.

Lemma NSW_build_graph_other (embs : dict UUID vec) (k : Z) (items : dict UUID vec) :
  forall g g' r u, NSW.build_graph embs k items g = (g', r) ->
                   ~ In u (keys items) -> dict_get g' u = dict_get g u.
Proof.
  induction items as [|[i e] items IH]; simpl; intros g g' r u Hb Hu.
  - now injection Hb as <- <-.
  - destruct (NSW._find_nearest_neighbors embs i e k) as [neighbors|].
    + rewrite (IH _ _ _ _ Hb) by tauto. apply dict_get_set_other. tauto.
    + now injection Hb as <- <-.
Qed.

Lemma NSW_build_graph_get (embs : dict UUID vec) (k : Z) (items : dict UUID vec) :
  NoDup (keys items) ->
  forall g g', NSW.build_graph embs k items g = (g', Ok tt) ->
  forall u e, In (u, e) items ->
  exists neighbors,
    NSW._find_nearest_neighbors embs u e k = Ok neighbors /\
    dict_get g' u = Some (to_set (map id neighbors)).
Proof.
  induction items as [|[i v] items IH]; simpl; intros Hnd g g' Hb u e Hin;
    [contradiction|].
  inversion Hnd as [|? ? Hi Hnd']; subst.
  destruct (NSW._find_nearest_neighbors embs i v k) as [neighbors|] eqn:En;
    [|discriminate].
  destruct Hin as [[= <- <-]|Hin].
  - exists neighbors. split; [exact En|].
    rewrite (NSW_build_graph_other _ _ _ _ _ _ _ Hb Hi).
    apply dict_get_set_same.
  - exact (IH Hnd' _ _ Hb _ _ Hin).
Qed.

(** X6.  When [rebuild] returns on an index whose [n_neighbors] is not
    negative, every stored id [u] is a node whose neighbours are distinct,
    exclude [u], are ids of stored vectors of non-zero norm, and number
    [min(n_neighbors, m)], where [m] counts the other stored vectors of
    non-zero norm. *)
Theorem NSW_rebuild_neighbours (self self' : NSW.t) (items : list DataRecord)
  (u : UUID) :
  (0 <= NSW.n_neighbors self)%Z ->
  NSW.rebuild self items = (self', Ok tt) ->
  In u (keys (NSW.embeddings self')) ->
  exists s,
    dict_get (NSW.graph self') u = Some s /\
    NoDup s /\ ~ In u s /\
    (forall v, In v s ->
       exists w, In (v, w) (NSW.embeddings self')
                 /\ (np_linalg_norm w =? 0) = false) /\
    length s = Nat.min (Z.to_nat (NSW.n_neighbors self))
                       (length (NSW_others (NSW.embeddings self') u)).
Proof.
  intros Hk Hr Hu. unfold NSW.rebuild in Hr.
  set (embs := fold_left NSW.add_embedding items []) in *.
  assert (Hnd : NoDup (keys embs)).
  { apply NSW_embeddings_nodup. constructor. }
  destruct (NSW.build_graph embs (NSW.n_neighbors self) embs []) as [g r] eqn:Eb.
  injection Hr as <- ->. simpl in *.
  apply in_map_iff in Hu. destruct Hu as ([u' e] & E & Hin). simpl in E. subst u'.
  destruct (NSW_build_graph_get _ _ _ Hnd _ _ Eb _ _ Hin) as (neighbors & En & Hg).
  destruct (NSW_neighbors_set _ _ _ _ _ Hnd Hk En) as (Hs1 & Hs2 & Hs3).
  exists (to_set (map id neighbors)). split; [exact Hg|]. split; [exact Hs1|].
  split; [exact (NSW_neighbors_not_self _ _ _ _ _ En)|]. split; [|exact Hs3].
  intros v Hv. apply Hs2, in_map_iff in Hv. destruct Hv as ([v' w] & E & Hw).
  simpl in E. subst v'. apply filter_In in Hw. destruct Hw as (Hw & Hc).
  exists w. split; [exact Hw|]. simpl in Hc.
  apply andb_prop in Hc. destruct Hc as (_ & Hc).
  now destruct (np_linalg_norm w =? 0).
Qed.

Lemma NSW_rebuild_neighbours_witness :
  exists s,
    dict_get (NSW.graph nsw_s1) 3%N = Some s /\ NoDup s /\ ~ In 3%N s /\
    length s = 2%nat.
Proof.
  destruct (NSW_rebuild_neighbours (NSW.init 5 100) nsw_s1 s1_chunks 3%N)
    as (s & Hg & Hnd & Hu & _ & Hl).
  - simpl. lia.
  - vm_compute. reflexivity.
  - simpl. auto.
  - exists s. split; [exact Hg|]. split; [exact Hnd|]. split; [exact Hu|].
    exact Hl.
Defined.

(** *** The member lists of the IVF index *)

Lemma in_dict_set_new {K V} `{Key K} (d : dict K V) (k : K) (v : V) :
  In (k, v) (dict_set d k v).
Proof.
  induction d as [|[k0 v0] d IH]; simpl; [now left|].
  destruct (key_eqb k0 k) eqn:E.
  - apply key_eqb_eq in E. subst. now left.
  - now right.
Qed.

Lemma in_dict_set_kept {K V} `{Key K} (d : dict K V) (k k' : K) (v v' : V) :
  In (k', v') d ->
  In (k', v') (dict_set d k v) \/ (k' = k /\ dict_get d k = Some v').
Proof.
  induction d as [|[k0 v0] d IH]; simpl; [contradiction|].
  destruct (key_eqb k0 k) eqn:E.
  - intros [[= -> ->]|Hin].
    + right. apply key_eqb_eq in E. auto.
    + left. now right.
  - intros [Hin|Hin].
    + left. now left.
    + destruct (IH Hin) as [?|?]; [left; now right|now right].
Qed.

Lemma IVF_assign_member_new (ca : dict nat (list UUID)) (c : nat) (i : UUID) :
  exists members, In (c, members) (IVF.assign ca c i) /\ In i members.
Proof.
  unfold IVF.assign. destruct (dict_get ca c) as [members|].
  - exists (members ++ [i]). split; [apply in_dict_set_new|].
    apply in_or_app. right. now left.
  - exists [i]. split; [apply in_dict_set_new|now left].
Qed.

Lemma IVF_assign_member_old (ca : dict nat (list UUID)) (c : nat) (i : UUID)
  (c' : nat) (m : list UUID) (j : UUID) :
  In (c', m) ca -> In j m ->
  exists m', In (c', m') (IVF.assign ca c i) /\ In j m'.
Proof.
  intros Hin Hj. unfold IVF.assign.
  destruct (dict_get ca c) as [members|] eqn:Eg.
  - destruct (in_dict_set_kept ca c c' (members ++ [i]) m Hin)
      as [Hkept|(-> & Hget)]; [eauto|].
    exists (members ++ [i]). split; [apply in_dict_set_new|].
    apply in_or_app. left. congruence.
  - destruct (in_dict_set_kept ca c c' [i] m Hin) as [Hkept|(-> & Hget)];
      [eauto|congruence].
Qed.

Lemma in_list_remove_other (l : list UUID) (i j : UUID) :
  In j l -> j <> i -> In j (list_remove l i).
Proof.
  induction l as [|y l IH]; simpl; [auto|]. intros Hin Hne.
  destruct (N.eqb_spec y i) as [->|Hy].
  - destruct Hin as [E|Hin]; [congruence|exact Hin].
  - destruct Hin as [E|Hin]; [now left|right; auto].
Qed.

Lemma IVF_remove_member_other (ca : dict nat (list UUID)) (i : UUID)
  (c : nat) (m : list UUID) (j : UUID) :
  In (c, m) ca -> In j m -> j <> i ->
  exists m', In (c, m') (IVF.remove_from_clusters ca i) /\ In j m'.
Proof.
  intros Hin Hj Hne. induction ca as [|[c0 l0] ca IH]; simpl in *; [contradiction|].
  destruct (set_mem l0 i).
  - destruct Hin as [[= -> ->]|Hin].
    + exists (list_remove m i). split; [now left|].
      now apply in_list_remove_other.
    + exists m. split; [now right|exact Hj].
  - destruct Hin as [[= -> ->]|Hin].
    + exists m. split; [now left|exact Hj].
    + destruct (IH Hin) as (m' & Hm' & Hj'). exists m'. split; [now right|exact Hj'].
Qed.

Section IVFListed.
Context `{Sklearn}.

Lemma IVF_assign_all_listed (cluster_ids : list nat) (items : list (UUID * vec)) :
  forall self i,
    NoDup (keys (IVF.embeddings self)) /\ IVF_all_listed self ->
    let self' := fst (IVF.assign_all self cluster_ids i items) in
    NoDup (keys (IVF.embeddings self')) /\ IVF_all_listed self'.
Proof.
  induction items as [|[u e] items IH]; simpl; intros self i Hinv; [exact Hinv|].
  destruct (nth_error cluster_ids i) as [c|]; [|exact Hinv].
  apply IH. destruct Hinv as (Hnd & Hl). simpl. split.
  - rewrite keys_dict_set. now apply NoDup_keys_set.
  - intros k Hk. simpl in Hk. rewrite keys_dict_set in Hk.
    apply in_keys_set in Hk. unfold IVF_member. simpl.
    destruct Hk as [->|Hk].
    + destruct (IVF_assign_member_new (IVF.cluster_assignments self) c u)
        as (m & Hm & Hu). eauto.
    + destruct (Hl k Hk) as (c' & m & Hm & Hj).
      destruct (IVF_assign_member_old _ c u _ _ _ Hm Hj) as (m' & Hm' & Hj').
      eauto.
Qed.

(** Whether it returns or raises, a call keeps every stored id listed. *)
Lemma IVF_step_listed (self : IVF.t) (o : IVF_op) :
  NoDup (keys (IVF.embeddings self)) /\ IVF_all_listed self ->
  NoDup (keys (IVF.embeddings (fst (IVF_step self o)))) /\
  IVF_all_listed (fst (IVF_step self o)).
Proof.
  intros Hinv.
  assert (Hempty : forall n km,
            NoDup (keys (IVF.embeddings (IVF.mk n km [] []))) /\
            IVF_all_listed (IVF.mk n km [] [])).
  { intros n km. split; [constructor|intros k []]. }
  destruct o as [items|item|i]; simpl.
  - unfold IVF.rebuild.
    destruct (is_empty (IVF.valid_items items)); [apply Hempty|].
    destruct (IVF.np_array_2d _) as [arr|]; [|apply Hempty].
    destruct (KMeans_fit _ arr) as [[km ids]|]; [|apply Hempty].
    apply IVF_assign_all_listed, Hempty.
  - unfold IVF.add. destruct (valid_embedding item) as [e|]; [|exact Hinv].
    destruct Hinv as (Hnd & Hl).
    match goal with
    | |- context [snd ?f] => destruct f as [km [[]|x]]
    end; simpl; [|split; [exact Hnd|exact Hl]].
    destruct (KMeans_predict km e) as [c|]; [|split; [exact Hnd|exact Hl]].
    simpl. split.
    + rewrite keys_dict_set. now apply NoDup_keys_set.
    + intros k Hk. simpl in Hk. rewrite keys_dict_set in Hk.
      apply in_keys_set in Hk. unfold IVF_member. simpl.
      destruct Hk as [->|Hk].
      * destruct (IVF_assign_member_new (IVF.cluster_assignments self) c
                    (item_id item)) as (m & Hm & Hu). eauto.
      * destruct (Hl k Hk) as (c' & m & Hm & Hj).
        destruct (IVF_assign_member_old _ c (item_id item) _ _ _ Hm Hj)
          as (m' & Hm' & Hj'). eauto.
  - unfold IVF.remove.
    destruct (dict_mem (IVF.embeddings self) i); [|exact Hinv].
    destruct Hinv as (Hnd & Hl). simpl. split.
    + rewrite keys_dict_del. now apply NoDup_list_remove.
    + intros k Hk. simpl in Hk. rewrite keys_dict_del in Hk.
      assert (Hne : k <> i).
      { intros ->. exact (list_remove_nodup_absent _ _ Hnd Hk). }
      destruct (Hl k (in_list_remove _ _ _ Hk)) as (c & m & Hm & Hj).
      destruct (IVF_remove_member_other _ i _ _ _ Hm Hj Hne) as (m' & Hm' & Hj').
      exists c, m'. auto.
Qed.

Lemma IVF_run_listed (ops : list IVF_op) :
  forall self,
    NoDup (keys (IVF.embeddings self)) /\ IVF_all_listed self ->
    NoDup (keys (IVF.embeddings (IVF_run self ops))) /\
    IVF_all_listed (IVF_run self ops).
Proof.
  induction ops as [|o ops IH]; simpl; intros self Hinv; [exact Hinv|].
  apply IH. now apply IVF_step_listed.
Qed.

End IVFListed.

(** X7.  Whatever calls of [rebuild], [add] and [remove] were made on a new
    IVF index, whether they returned or raised, every id that has a stored
    vector is in the member list of some cluster. *)
Theorem IVF_stored_ids_are_listed `{Sklearn} (n_clusters : Z)
  (ops : list IVF_op) :
  IVF_all_listed (IVF_run (IVF.init n_clusters) ops).
Proof.
  apply IVF_run_listed. split; [constructor|intros k []].
Qed.

(** *** What [rebuild] stores *)

Lemma find_app {A} (f : A -> bool) (l1 l2 : list A) :
  find f (l1 ++ l2)
  = match find f l1 with Some a => Some a | None => find f l2 end.
Proof.
  induction l1 as [|a l1 IH]; simpl; [reflexivity|].
  now destruct (f a).
Qed.

Lemma last_valid_cons (item : DataRecord) (items : list DataRecord) (i : UUID) :
  last_valid (item :: items) i
  = match last_valid items i with
    | Some e => Some e
    | None => if N.eqb (item_id item) i then valid_embedding item else None
    end.
Proof.
  unfold last_valid. simpl rev. rewrite find_app.
  destruct (find _ (rev items)) as [it|] eqn:Ef.
  - apply find_some in Ef. destruct Ef as (_ & Ef).
    apply andb_prop in Ef. destruct Ef as (_ & Ef).
    now destruct (valid_embedding it).
  - cbn [find]. destruct (N.eqb (item_id item) i); cbn [andb]; [|reflexivity].
    destruct (valid_embedding item) eqn:E; [exact E|reflexivity].
Qed.

Lemma fold_add_embedding_get (items : list DataRecord) :
  forall d i,
    dict_get (fold_left BF.add_embedding items d) i
    = match last_valid items i with
      | Some e => Some e
      | None => dict_get d i
      end.
Proof.
  induction items as [|item items IH]; simpl; intros d i; [reflexivity|].
  rewrite IH, last_valid_cons.
  destruct (last_valid items i) as [e|]; [reflexivity|].
  unfold BF.add_embedding. destruct (valid_embedding item) as [e|].
  - destruct (N.eqb_spec (item_id item) i) as [<-|Hne].
    + apply dict_get_set_same.
    + now apply dict_get_set_other.
  - now destruct (N.eqb (item_id item) i).
Qed.

Lemma rebuilt_embeddings_get (items : list DataRecord) (i : UUID) :
  dict_get (fold_left BF.add_embedding items []) i = last_valid items i.
Proof.
  rewrite fold_add_embedding_get. now destruct (last_valid items i).
Qed.

Lemma fold_valid_items (items : list DataRecord) :
  forall d,
    fold_left (fun d p => dict_set d (fst p) (snd p)) (IVF.valid_items items) d
    = fold_left BF.add_embedding items d.
Proof.
  unfold IVF.valid_items.
  induction items as [|item items IH]; simpl; intros d; [reflexivity|].
  rewrite fold_left_app, IH. f_equal. unfold BF.add_embedding.
  now destruct (valid_embedding item).
Qed.

Lemma combine_fst_snd {A B} (l : list (A * B)) :
  combine (map fst l) (map snd l) = l.
Proof.
  induction l as [|[a b] l IH]; simpl; [reflexivity|]. now rewrite IH.
Qed.

Lemma np_array_2d_rows (rows arr : list vec) :
  IVF.np_array_2d rows = Ok arr -> arr = rows.
Proof.
  unfold IVF.np_array_2d. destruct rows as [|x rows]; [congruence|].
  destruct (forallb _ _); congruence.
Qed.

Lemma IVF_assign_all_embeddings `{Sklearn} (cluster_ids : list nat)
  (items : list (UUID * vec)) :
  forall self i self',
    IVF.assign_all self cluster_ids i items = (self', Ok tt) ->
    IVF.embeddings self'
    = fold_left (fun d p => dict_set d (fst p) (snd p)) items
                (IVF.embeddings self).
Proof.
  induction items as [|[u e] items IH]; simpl; intros self i self' Ha.
  - now injection Ha as <-.
  - destruct (nth_error cluster_ids i) as [c|]; [|discriminate].
    now rewrite (IH _ _ _ Ha).
Qed.

(** X8.  [rebuild] forgets what the index held and stores, for each id,
    the embedding of the last record of the snapshot that carries one under
    that id; records without an embedding leave no entry. *)
Theorem rebuild_keeps_last_embedding `{Sklearn} (items : list DataRecord)
  (i : UUID) :
  (forall self : BF.t,
      dict_get (BF.embeddings (fst (BF.rebuild self items))) i
      = last_valid items i) /\
  (forall self : NSW.t,
      dict_get (NSW.embeddings (fst (NSW.rebuild self items))) i
      = last_valid items i) /\
  (forall self self' : IVF.t,
      IVF.rebuild self items = (self', Ok tt) ->
      dict_get (IVF.embeddings self') i = last_valid items i).
Proof.
  split; [|split].
  - intros self. apply rebuilt_embeddings_get.
  - intros self. unfold NSW.rebuild.
    destruct (NSW.build_graph _ _ _ _) as [g r]. apply rebuilt_embeddings_get.
  - intros self self' Hr. rewrite <- rebuilt_embeddings_get.
    rewrite <- fold_valid_items. unfold IVF.rebuild in Hr.
    destruct (is_empty (IVF.valid_items items)) eqn:Ee.
    + injection Hr as <-. simpl.
      destruct (IVF.valid_items items); [reflexivity|discriminate].
    + destruct (IVF.np_array_2d _) as [arr|] eqn:Ea; [|discriminate].
      apply np_array_2d_rows in Ea. subst arr.
      destruct (KMeans_fit _ _) as [[km ids]|]; [|discriminate].
      rewrite combine_fst_snd in Hr.
      now rewrite (IVF_assign_all_embeddings _ _ _ _ _ Hr).
Qed.

Lemma rebuild_keeps_last_embedding_witness :
  dict_get (IVF.embeddings ivf_four) 3%N = Some [-1; 0] /\
  dict_get (BF.embeddings
              (fst (BF.rebuild s1_index
                      [Chunk 1 (Some [1; 0]); Document 1; Chunk 1 (Some [0; 1]);
                       Chunk 1 None]))) 1%N
  = Some [0; 1].
Proof.
  split.
  - apply (proj2 (proj2 (@rebuild_keeps_last_embedding first_rows four_points
                           3%N)) (IVF.init 100) ivf_four).
    vm_compute. reflexivity.
  - apply (proj1 (@rebuild_keeps_last_embedding first_rows
                    [Chunk 1 (Some [1; 0]); Document 1; Chunk 1 (Some [0; 1]);
                     Chunk 1 None] 1%N)).
Defined.

(** *** An IVF index that was never trained *)

Section IVFUntrained.
Context `{Sklearn}.

Lemma KMeans_fit_one_row_raises (n : Z) (e : vec) :
  n <> 1%Z -> exists x, KMeans_fit n [e] = Raise x.
Proof.
  intros Hn. unfold KMeans_fit. destruct (n <? 1)%Z eqn:E1; [eauto|].
  destruct (check_array [e]) as [d|x]; simpl; [|eauto].
  assert (Hlt : Nat.ltb 1 (Z.to_nat n) = true).
  { apply Nat.ltb_lt. apply Z.ltb_ge in E1. lia. }
  rewrite Hlt. eauto.
Qed.

(** The estimator, if there is one, is what a raising [fit] has left. *)
Lemma IVF_step_untrained (n : Z) (self : IVF.t) (o : IVF_op) :
  n <> 1%Z -> IVF_untrained_op o = true ->
  (IVF.kmeans self = None \/
   exists m X, IVF.kmeans self = Some (KMeans_fit_raised m X)) ->
  IVF.n_clusters self = n ->
  IVF.cluster_assignments self = [] -> IVF.embeddings self = [] ->
  let self' := fst (IVF_step self o) in
  (IVF.kmeans self' = None \/
   exists m X, IVF.kmeans self' = Some (KMeans_fit_raised m X)) /\
  IVF.n_clusters self' = n /\
  IVF.cluster_assignments self' = [] /\ IVF.embeddings self' = [].
Proof.
  intros Hn Ho Hkm Hnc Hca Hemb. destruct self as [n' km ca emb].
  simpl in *. subst n' ca emb. destruct o as [items|item|i]; simpl in *.
  - unfold IVF.rebuild. simpl. rewrite Ho. simpl. auto.
  - unfold IVF.add. cbn [IVF.kmeans IVF.n_clusters IVF.cluster_assignments
                         IVF.embeddings].
    destruct (valid_embedding item) as [e|]; cbn [fst]; [|auto].
    destruct Hkm as [->|(m & X & ->)].
    + destruct (KMeans_fit_one_row_raises n e Hn) as (x & ->).
      cbn [fst snd IVF.kmeans IVF.n_clusters IVF.cluster_assignments
           IVF.embeddings].
      split; [right; eauto|auto].
    + cbn [fst snd].
      destruct (KMeans_predict_after_raised_fit m X e) as (err & ->).
      cbn [fst IVF.kmeans IVF.n_clusters IVF.cluster_assignments
           IVF.embeddings].
      split; [right; eauto|auto].
  - unfold IVF.remove. simpl. auto.
Qed.

Lemma IVF_run_untrained (n : Z) (ops : list IVF_op) :
  n <> 1%Z -> forallb IVF_untrained_op ops = true ->
  forall self,
    (IVF.kmeans self = None \/
     exists m X, IVF.kmeans self = Some (KMeans_fit_raised m X)) ->
    IVF.n_clusters self = n ->
    IVF.cluster_assignments self = [] -> IVF.embeddings self = [] ->
    let self' := IVF_run self ops in
    (IVF.kmeans self' = None \/
     exists m X, IVF.kmeans self' = Some (KMeans_fit_raised m X)) /\
    IVF.n_clusters self' = n /\
    IVF.cluster_assignments self' = [] /\ IVF.embeddings self' = [].
Proof.
  intros Hn. induction ops as [|o ops IH]; simpl; intros Hops self Hkm Hnc Hca He;
    [auto|].
  apply andb_prop in Hops. destruct Hops as (Ho & Hops).
  destruct (IVF_step_untrained n self o Hn Ho Hkm Hnc Hca He)
    as (Hkm' & Hnc' & Hca' & He').
  now apply IH.
Qed.

End IVFUntrained.

(** X9.  An IVF index made for a number of clusters other than 1 (the
    default is 100) cannot be populated through [add]: as long as no
    [rebuild] has given it embeddings to train on, it stores no vector and
    lists no id, every [add] of a record with an embedding raises, and every
    search answers the empty list without asking the provider. *)
Theorem IVF_add_cannot_train `{Sklearn} (n_clusters : Z) (ops : list IVF_op) :
  n_clusters <> 1%Z ->
  forallb IVF_untrained_op ops = true ->
  let self := IVF_run (IVF.init n_clusters) ops in
  IVF.embeddings self = [] /\
  IVF.cluster_assignments self = [] /\
  (forall item e, valid_embedding item = Some e ->
                  exists x, snd (IVF.add self item) = Raise x) /\
  (forall query limit, IVF.search self query limit = Return (Ok [])).
Proof.
  intros Hn Hops self.
  destruct (IVF_run_untrained n_clusters ops Hn Hops (IVF.init n_clusters))
    as (Hkm & Hnc & Hca & He); simpl; auto.
  fold self in Hkm, Hnc, Hca, He.
  split; [exact He|]. split; [exact Hca|]. split.
  - intros item e Hv. unfold IVF.add. rewrite Hv.
    destruct Hkm as [-> |(m & X & ->)].
    + rewrite Hnc.
      destruct (KMeans_fit_one_row_raises n_clusters e Hn) as (x & ->).
      cbn [fst snd]. eauto.
    + cbn [fst snd].
      destruct (KMeans_predict_after_raised_fit m X e) as (err & ->).
      cbn [snd]. eauto.
  - intros query limit. unfold IVF.search. rewrite He.
    destruct Hkm as [-> |(m & X & ->)]; [reflexivity|].
    now rewrite orb_true_r.
Qed.

Lemma IVF_add_cannot_train_witness :
  IVF.embeddings
    (IVF_run (IVF.init 100)
       [IVF_Add (Chunk 1 (Some [1; 0])); IVF_Rebuild [Document 2; Chunk 3 None];
        IVF_Add (Chunk 4 (Some [0; 1])); IVF_Remove 1%N]) = [].
Proof.
  apply (@IVF_add_cannot_train first_rows 100
           [IVF_Add (Chunk 1 (Some [1; 0])); IVF_Rebuild [Document 2; Chunk 3 None];
            IVF_Add (Chunk 4 (Some [0; 1])); IVF_Remove 1%N]).
  - lia.
  - reflexivity.
Defined.

(** *** The order of the results *)

Lemma StronglySorted_firstn {A} (R : A -> A -> Prop) (l : list A) :
  StronglySorted R l -> forall n, StronglySorted R (firstn n l).
Proof.
  induction 1 as [|a l Hs IH Ha]; intros [|n]; simpl; try constructor.
  - apply IH.
  - apply Forall_forall. intros x Hx. apply in_firstn in Hx.
    rewrite Forall_forall in Ha. auto.
Qed.

(** X10.  With a limit that is not negative, the results of an IVF search
    are in non-increasing order of confidence, provided no stored vector
    has a [nan] similarity to the query. *)
Theorem IVF_search_sorted `{Sklearn} (self : IVF.t) (get_embedding : str -> vec)
  (query : str) (limit : Z) (rs : list SearchResult) :
  (0 <= limit)%Z ->
  (forall i v c, In (i, v) (IVF.embeddings self) ->
                 IVF.cosine (get_embedding query) v = Ok c ->
                 PrimFloat.is_nan c = false) ->
  run get_embedding (IVF.search self query limit) = Ok rs ->
  StronglySorted ranks_before rs.
Proof.
  intros Hk Hnan Hrun.
  destruct (IVF_search_sliced _ _ _ _ _ Hrun) as [->|(scored & Hs & ->)];
    [constructor|].
  rewrite py_slice_to_nonneg by exact Hk.
  apply StronglySorted_firstn, sort_desc_sorted.
  intros r Hr.
  destruct (IVF_results_stored _ _ _ _ Hs _ Hr) as (v & Hv & Hc).
  exact (Hnan _ _ _ (dict_get_in _ _ _ Hv) Hc).
Qed.

Lemma IVF_search_sorted_witness :
  exists rs,
    run near_cluster0 (IVF.search ivf_four [113%N] 2) = Ok rs /\
    StronglySorted ranks_before rs.
Proof.
  eexists. split; [vm_compute; reflexivity|].
  apply (@IVF_search_sorted first_rows ivf_four near_cluster0 [113%N] 2%Z).
  - lia.
  - intros i v c Hin Hc. simpl in Hin.
    destruct Hin as [E|[E|[E|[E|[]]]]]; injection E as <- <-;
      vm_compute in Hc; injection Hc as <-; reflexivity.
  - vm_compute. reflexivity.
Defined.

(** *** The traversal of the NSW search *)

(** X11.  The loop of the NSW search never runs a second iteration: with
    room for one iteration the search does not run out of fuel, and when
    it gets as far as the traversal, its answer is the entry point, the
    first key of the adjacency map, alone, cut to [limit]. *)
Theorem NSW_search_returns_entry_point (fuel : nat) (self : NSW.t)
  (get_embedding : str -> vec) (query : str) (limit : Z) :
  run get_embedding (NSW.search (S fuel) self query limit) <> Ok None /\
  forall entry_point ks v s,
    NSW.embeddings self <> [] ->
    (np_linalg_norm (get_embedding query) =? 0) = false ->
    keys (NSW.graph self) = entry_point :: ks ->
    dict_get (NSW.embeddings self) entry_point = Some v ->
    NSW._cosine_similarity (get_embedding query) v = Ok s ->
    run get_embedding (NSW.search (S fuel) self query limit)
    = Ok (Some (py_slice_to [mkSearchResult entry_point s] limit)).
Proof.
  unfold NSW.search. split.
  - destruct (is_empty (NSW.embeddings self)); cbn [run]; [discriminate|].
    destruct (np_linalg_norm (get_embedding query) =? 0); [discriminate|].
    destruct (keys (NSW.graph self)) as [|entry ks]; [discriminate|].
    destruct (dict_get (NSW.embeddings self) entry) as [v|]; [|discriminate].
    destruct (NSW._cosine_similarity (get_embedding query) v) as [s|];
      [|discriminate].
    cbn [bind]. rewrite NSW_traverse_entry_only. discriminate.
  - intros entry ks v s He Hq Hk Hv Hs.
    rewrite (is_empty_false _ He). cbn [run]. rewrite Hq, Hk, Hv, Hs.
    cbn [bind]. now rewrite NSW_traverse_entry_only.
Qed.

Lemma NSW_search_returns_entry_point_witness :
  run s1_provider (NSW.search 7 nsw_s1 [113%N] 3)
  = Ok (Some (py_slice_to [mkSearchResult 1 1] 3)).
Proof.
  apply (proj2 (NSW_search_returns_entry_point 6 nsw_s1 s1_provider [113%N] 3)
               1%N [2%N; 3%N] [1; 0; 0] 1).
  - discriminate.
  - reflexivity.
  - reflexivity.
  - reflexivity.
  - vm_compute. reflexivity.
Defined.

(** *** Removing an id the index does not know *)

(** X12.  [remove] of an id that the index holds nothing under returns
    without raising and leaves the index as it was. *)
Theorem remove_unknown_id (item_id : UUID) :
  (forall self : BF.t,
      ~ In item_id (keys (BF.embeddings self)) ->
      BF.remove self item_id = (self, Ok tt)) /\
  (forall self : IVF.t,
      ~ In item_id (keys (IVF.embeddings self)) ->
      IVF.remove self item_id = (self, Ok tt)) /\
  (forall self : NSW.t,
      ~ In item_id (keys (NSW.embeddings self)) ->
      ~ In item_id (keys (NSW.graph self)) ->
      NSW.remove self item_id = (self, Ok tt)).
Proof.
  assert (Hmem : forall (V : Type) (d : dict UUID V),
             ~ In item_id (keys d) -> dict_mem d item_id = false).
  { intros V d Hout. destruct (dict_mem d item_id) eqn:E; [|reflexivity].
    apply dict_mem_in_keys in E. contradiction. }
  split; [|split].
  - intros [emb] Hout. unfold BF.remove. simpl in *. now rewrite Hmem.
  - intros [n km ca emb] Hout. unfold IVF.remove. simpl in *. now rewrite Hmem.
  - intros [emb g M ef] He Hg. unfold NSW.remove. simpl in *.
    rewrite Hmem by exact He.
    destruct (dict_get g item_id) eqn:E; [|reflexivity].
    exfalso. apply Hg. apply dict_get_in_keys. congruence.
Qed.

Lemma remove_unknown_id_witness :
  BF.remove s1_index 9%N = (s1_index, Ok tt) /\
  IVF.remove ivf_four 9%N = (ivf_four, Ok tt) /\
  NSW.remove nsw_s1 9%N = (nsw_s1, Ok tt).
Proof.
  destruct (remove_unknown_id 9%N) as (Hbf & Hivf & Hnsw).
  split; [|split].
  - apply Hbf. simpl. intuition discriminate.
  - apply Hivf. simpl. intuition discriminate.
  - apply Hnsw; simpl; intuition discriminate.
Defined.

(** *** The collection and its indexes *)

Lemma dict_get_set_same_key {K V} `{Key K} (d : dict K V) (k : K) (v : V) :
  dict_get (dict_set d k v) k = Some v.
Proof.
  induction d as [|[k' v'] d IH]; simpl; [now rewrite key_eqb_refl|].
  destruct (key_eqb k' k) eqn:E; simpl; rewrite E; [reflexivity|exact IH].
Qed.

Lemma dict_get_set_other_key {K V} `{Key K} (d : dict K V) (k k' : K) (v : V) :
  k <> k' -> dict_get (dict_set d k v) k' = dict_get d k'.
Proof.
  intros Hne. induction d as [|[k0 v0] d IH]; simpl.
  - now rewrite key_eqb_neq.
  - destruct (key_eqb k0 k) eqn:E; simpl.
    + apply key_eqb_eq in E. subst k0. now rewrite key_eqb_neq.
    + now rewrite IH.
Qed.

Lemma KMeans_fit_default_one_row `{Sklearn} (e : vec) :
  KMeans_fit 100 [e] = Raise ValueError.
Proof.
  unfold KMeans_fit. change (100 <? 1)%Z with false. cbv iota.
  destruct (check_array [e]) as [d|x] eqn:E; cbn [bind].
  - reflexivity.
  - apply check_array_raise in E. now subst.
Qed.

Lemma check_array_row (x : vec) (d : nat) : check_array [x] = Ok d -> length x = d.
Proof.
  unfold check_array. destruct (Nat.ltb 0 (length x) && _); [|discriminate].
  now intros [= <-].
Qed.

(** X13.  On an empty data directory, the chunk collection of main.py with
    its three indexes cannot take a chunk that has an embedding: [add]
    writes the record, gives the vector to the cosine index, and raises the
    estimator's [ValueError] from the IVF index, which keeps the estimator
    of the failed fit; the NSW index is not reached.  Every later [add] of
    such a chunk raises as well: [AttributeError] (the estimator has no
    centres) when both embeddings are rows the estimator accepts, of one
    dimension; [ValueError] when only the first is, or the dimensions
    differ; [NotFittedError] when the first embedding was itself refused. *)
Theorem chunks_add_raises_on_empty_directory `{Sklearn}
  (scandir : list UUID -> list UUID) (item : ChunkModel.t) (e : vec) :
  scandir [] = [] ->
  ChunkModel.embedding item = Some e ->
  exists chunks0 chunks1,
    chunks scandir [] = (chunks0, Ok tt) /\
    Collection.add chunks0 item = (chunks1, Raise ValueError) /\
    chunks1
    = Collection.mk [(ChunkModel.id item, item)]
        [(IndexType.COSINE, Cosine (BF.mk [(ChunkModel.id item, e)]));
         (IndexType.IVF,
          Ivf (IVF.mk 100 (Some (KMeans_fit_raised 100 [e])) [] []));
         (IndexType.NSW, Nsw (NSW.init 5 100))] /\
    forall item' e',
      ChunkModel.embedding item' = Some e' ->
      exists err,
        snd (Collection.add chunks1 item') = Raise err /\
        (forall d, check_array [e] = Ok d -> check_array [e'] = Ok d ->
                   err = AttributeError) /\
        (forall d, check_array [e] = Ok d -> check_array [e'] <> Ok d ->
                   err = ValueError) /\
        (forall x, check_array [e] = Raise x -> err = NotFittedError).
Proof.
  intros Hs He. do 2 eexists. split; [|split; [|split; [reflexivity|]]].
  - unfold chunks, Collection.add_index, Collection.list_all. simpl.
    repeat (rewrite Hs; simpl). reflexivity.
  - unfold Collection.add, Collection._save_record. simpl.
    unfold dict_mem. simpl. rewrite N.eqb_refl. simpl.
    unfold BF.add, BF.add_embedding, IVFIndex.add.
    cbn -[KMeans_fit KMeans_fit_raised]. rewrite He.
    cbn -[KMeans_fit KMeans_fit_raised].
    rewrite KMeans_fit_default_one_row. reflexivity.
  - intros item' e' He'.
    destruct (KMeans_predict_after_raised_fit 100 [e] e') as (err & Herr).
    exists err. split.
    + unfold Collection.add, Collection._save_record.
      cbn [Collection.files Collection.indexes record_of Model_Chunk item_id].
      rewrite dict_mem_set. cbn [negb for_indexes Index_add].
      unfold BF.add, BF.add_embedding, IVFIndex.add.
      cbn -[KMeans_predict KMeans_fit_raised]. rewrite He'.
      cbn -[KMeans_predict KMeans_fit_raised]. rewrite Herr. reflexivity.
    + unfold KMeans_fit_raised in Herr. change (100 <? 1)%Z with false in Herr.
      cbv iota in Herr.
      destruct (check_array [e]) as [d|x] eqn:Ee; cbn [KMeans_predict] in Herr.
      * destruct (check_array [e']) as [d'|x'] eqn:Ee'; cbn [bind] in Herr.
        -- pose proof (check_array_row _ _ Ee') as Hlen. rewrite Hlen in Herr.
           destruct (Nat.eqb_spec d' d) as [->|Hne]; injection Herr as <-.
           ++ split; [reflexivity|]. split; [|discriminate].
              intros d0 [= <-] Hd. now contradiction Hd.
           ++ split; [|split; [reflexivity|discriminate]].
              intros d0 [= <-] [= E]. contradiction.
        -- injection Herr as <-. apply check_array_raise in Ee'. subst x'.
           split; [|split; [reflexivity|discriminate]].
           intros d0 _ Hd. discriminate Hd.
      * injection Herr as <-. split; [discriminate|]. split; [discriminate|].
        reflexivity.
Qed.

Lemma chunks_add_raises_on_empty_directory_witness :
  exists chunks0 chunks1,
    chunks same_order [] = (chunks0, Ok tt) /\
    Collection.add chunks0 chunk_a = (chunks1, Raise ValueError) /\
    snd (Collection.add chunks1 chunk_b) = Raise AttributeError.
Proof.
  destruct (@chunks_add_raises_on_empty_directory first_rows same_order chunk_a
              [1; 0] eq_refl eq_refl) as (c0 & c1 & H0 & H1 & _ & Hlater).
  exists c0, c1. split; [exact H0|]. split; [exact H1|].
  destruct (Hlater chunk_b [0; 1] eq_refl) as (err & Herr & Hattr & _).
  rewrite Herr. f_equal. apply (Hattr 2%nat); vm_compute; reflexivity.
Defined.

(** **** A collection with a brute-force index *)

Lemma dict_get_absent {K V} `{Key K} (d : dict K V) (k : K) :
  ~ In k (keys d) -> dict_get d k = None.
Proof.
  intros Hout. destruct (dict_get d k) eqn:E; [|reflexivity].
  exfalso. apply Hout. apply dict_get_in_keys. congruence.
Qed.

Lemma dict_get_del_other {V} (d : dict UUID V) (k k' : UUID) :
  k <> k' -> dict_get (dict_del d k) k' = dict_get d k'.
Proof.
  intros Hne. induction d as [|[k0 v0] d IH]; simpl; [reflexivity|].
  destruct (N.eqb_spec k0 k) as [->|Hk]; simpl.
  - now rewrite (proj2 (N.eqb_neq k k') Hne).
  - now rewrite IH.
Qed.

Lemma dict_get_discard_same {V} (d : dict UUID V) (k : UUID) :
  NoDup (keys d) ->
  dict_get (if dict_mem d k then dict_del d k else d) k = None.
Proof. intros Hnd. now apply dict_get_absent, dict_discard_absent. Qed.

Lemma dict_get_discard_other {V} (d : dict UUID V) (k k' : UUID) :
  k <> k' ->
  dict_get (if dict_mem d k then dict_del d k else d) k' = dict_get d k'.
Proof.
  intros Hne. destruct (dict_mem d k); [|reflexivity].
  now apply dict_get_del_other.
Qed.

Lemma NoDup_discard {V} (d : dict UUID V) (k : UUID) :
  NoDup (keys d) -> NoDup (keys (if dict_mem d k then dict_del d k else d)).
Proof.
  intros Hnd. destruct (dict_mem d k); [|exact Hnd].
  rewrite keys_dict_del. now apply NoDup_list_remove.
Qed.

Lemma NoDup_add_embedding (d : dict UUID vec) (item : DataRecord) :
  NoDup (keys d) -> NoDup (keys (BF.add_embedding d item)).
Proof.
  intros Hnd. unfold BF.add_embedding.
  destruct (valid_embedding item); [|exact Hnd].
  rewrite keys_dict_set. now apply NoDup_keys_set.
Qed.

Lemma apply_updates_kept (update_data : dict field value) (key : field) :
  key = f_id \/ key = f_created_at ->
  forall item_dict,
    dict_get (Collection.apply_updates item_dict update_data) key
    = dict_get item_dict key.
Proof.
  intros Hkey. unfold Collection.apply_updates.
  induction update_data as [|[k v] u IH]; simpl; intros d; [reflexivity|].
  rewrite IH. destruct (field_eqb k f_id || (field_eqb k f_created_at || false))
    eqn:E; [reflexivity|].
  destruct (is_None v); [reflexivity|].
  apply dict_get_set_other_key. intros ->.
  destruct Hkey; subst; discriminate.
Qed.

Section CollectionProperties.
Context {T : Type} `{Model T}.

Lemma Collection_update_id (utcnow : datetime) (existing updated : T)
  (update_data : dict field value) :
  model_validate
    (dict_set (Collection.apply_updates (model_dump existing) update_data)
              f_updated_at (VDatetime utcnow)) = Ok updated ->
  item_id (record_of updated) = item_id (record_of existing).
Proof.
  intros Hv. apply (model_validate_id _ Hv).
  rewrite dict_get_set_other_key by discriminate.
  rewrite apply_updates_kept by auto. apply model_dump_id.
Qed.

Lemma Collection_well_formed_set (files : dict UUID T) (x : T) :
  Collection_well_formed files ->
  Collection_well_formed (dict_set files (item_id (record_of x)) x).
Proof.
  intros (Hnd & Hid). split.
  - rewrite keys_dict_set. now apply NoDup_keys_set.
  - intros k y Hin. apply in_dict_set in Hin.
    destruct Hin as [[-> ->]|Hin]; [reflexivity|now apply Hid].
Qed.

Lemma Collection_well_formed_del (files : dict UUID T) (k : UUID) :
  Collection_well_formed files -> Collection_well_formed (dict_del files k).
Proof.
  intros (Hnd & Hid). split.
  - rewrite keys_dict_del. now apply NoDup_list_remove.
  - intros j y Hin. apply in_dict_del in Hin. now apply Hid.
Qed.

Lemma Collection_mirrors_set (files : dict UUID T) (emb : dict UUID vec) (x : T) :
  (forall j, j <> item_id (record_of x) ->
             dict_get emb j = match dict_get files j with
                              | Some y => valid_embedding (record_of y)
                              | None => None
                              end) ->
  (valid_embedding (record_of x) = None ->
   dict_get emb (item_id (record_of x)) = None) ->
  Collection_mirrors (dict_set files (item_id (record_of x)) x)
                     (BF.add_embedding emb (record_of x)).
Proof.
  intros Hother Hnone j. unfold BF.add_embedding.
  destruct (N.eq_dec (item_id (record_of x)) j) as [<-|Hne].
  - rewrite dict_get_set_same.
    destruct (valid_embedding (record_of x)) as [e|] eqn:Ev.
    + apply dict_get_set_same.
    + now apply Hnone.
  - rewrite dict_get_set_other by exact Hne.
    destruct (valid_embedding (record_of x)) as [e|].
    + rewrite dict_get_set_other by exact Hne. apply Hother. congruence.
    + apply Hother. congruence.
Qed.

(** The records [list_all] yields are the stored ones, each once,
    whatever the order of the directory. *)
Lemma Collection_list_all_last_valid (scandir : list UUID -> list UUID)
  (files : dict UUID T) (i : UUID) :
  (forall l, Permutation (scandir l) l) ->
  Collection_well_formed files ->
  last_valid (map record_of (Collection.list_all scandir (Collection.init files))) i
  = match dict_get files i with
    | Some x => valid_embedding (record_of x)
    | None => None
    end.
Proof.
  intros Hperm (Hnd & Hid).
  set (l := Collection.list_all scandir (Collection.init files)).
  assert (Ha : forall x, In x l -> dict_get files (item_id (record_of x)) = Some x).
  { intros x Hx. unfold l, Collection.list_all, Collection._load_record in Hx.
    simpl in Hx. apply in_flat_map in Hx. destruct Hx as (k & _ & Hx).
    destruct (dict_get files k) as [y|] eqn:Ek; [|contradiction].
    destruct Hx as [<-|[]].
    now rewrite (Hid _ _ (dict_get_in _ _ _ Ek)). }
  assert (Hb : forall k x, dict_get files k = Some x -> In x l).
  { intros k x Hk. unfold l, Collection.list_all, Collection._load_record.
    simpl. apply in_flat_map. exists k. split.
    - apply (Permutation_in _ (Permutation_sym (Hperm _))).
      apply dict_get_in_keys. congruence.
    - rewrite Hk. now left. }
  unfold last_valid.
  destruct (find _ (rev (map record_of l))) as [it|] eqn:Ef.
  - apply find_some in Ef. destruct Ef as (Hin & Hc).
    apply andb_prop in Hc. destruct Hc as (Hi & _). apply N.eqb_eq in Hi.
    apply in_rev, in_map_iff in Hin. destruct Hin as (x & <- & Hx).
    apply Ha in Hx. rewrite Hi in Hx. now rewrite Hx.
  - destruct (dict_get files i) as [x|] eqn:Ei; [|reflexivity].
    pose proof (find_none _ _ Ef (record_of x)) as Hc. simpl in Hc.
    rewrite (Hid _ _ (dict_get_in _ _ _ Ei)), N.eqb_refl in Hc.
    destruct (valid_embedding (record_of x)); [|reflexivity].
    discriminate Hc. apply in_rev. rewrite rev_involutive.
    apply in_map. exact (Hb _ _ Ei).
Qed.

Context `{Sklearn}.

Lemma Collection_add_index_consistent (scandir : list UUID -> list UUID)
  (files : dict UUID T) (index_type : IndexType.t) :
  (forall l, Permutation (scandir l) l) ->
  Collection_well_formed files ->
  Collection_consistent index_type
    (fst (Collection.add_index scandir (Collection.init files) index_type
            (Cosine BF.init))).
Proof.
  intros Hperm Hwf. unfold Collection.add_index. simpl. split; [exact Hwf|].
  eexists. split; [reflexivity|]. simpl. split.
  - apply (NSW_embeddings_nodup _ []). constructor.
  - intros i. rewrite rebuilt_embeddings_get.
    now apply Collection_list_all_last_valid.
Qed.

Lemma Collection_step_consistent (index_type : IndexType.t)
  (self : Collection.t T) (o : Collection_op T) :
  Collection_consistent index_type self ->
  match o with
  | CAdd item => ~ In (item_id (record_of item)) (keys (Collection.files self))
  | _ => True
  end ->
  Collection_consistent index_type (Collection_step self o).
Proof.
  intros (Hwf & bf & Hix & Hnd & Hm) Ho.
  destruct self as [files indexes]. simpl in *. subst indexes.
  destruct o as [item|utcnow i update_data|i]; simpl.
  - unfold Collection.add, Collection._save_record. simpl.
    rewrite dict_mem_set. simpl. split; [now apply Collection_well_formed_set|].
    eexists. split; [reflexivity|]. simpl. split.
    + now apply NoDup_add_embedding.
    + apply Collection_mirrors_set; [intros j _; apply Hm|].
      intros _. rewrite Hm. now rewrite dict_get_absent.
  - unfold Collection.update, Collection.get, Collection._load_record. simpl.
    destruct (dict_get files i) as [x|] eqn:Ex;
      [|split; [exact Hwf|exists bf; auto]].
    destruct (model_validate _) as [x'|] eqn:Ev;
      [|split; [exact Hwf|exists bf; auto]].
    pose proof (Collection_update_id _ _ _ _ Ev) as Hid.
    rewrite (proj2 Hwf _ _ (dict_get_in _ _ _ Ex)) in Hid.
    unfold Collection._save_record. simpl.
    split; [now apply Collection_well_formed_set|].
    eexists. split; [reflexivity|]. simpl. split.
    + now apply NoDup_add_embedding, NoDup_discard.
    + apply Collection_mirrors_set; rewrite Hid.
      * intros j Hj. rewrite dict_get_discard_other by congruence. apply Hm.
      * intros _. now apply dict_get_discard_same.
  - unfold Collection.delete. simpl.
    destruct (dict_mem files i) eqn:Em; simpl.
    + split; [now apply Collection_well_formed_del|].
      eexists. split; [reflexivity|]. simpl. split; [now apply NoDup_discard|].
      intros j. destruct (N.eq_dec i j) as [<-|Hne].
      * rewrite dict_get_discard_same by exact Hnd.
        rewrite dict_get_absent; [reflexivity|].
        rewrite keys_dict_del. apply list_remove_nodup_absent, Hwf.
      * rewrite dict_get_discard_other, dict_get_del_other by exact Hne.
        apply Hm.
    + split; [exact Hwf|].
      eexists. split; [reflexivity|]. simpl. split; [now apply NoDup_discard|].
      intros j. destruct (N.eq_dec i j) as [<-|Hne].
      * rewrite dict_get_discard_same by exact Hnd.
        rewrite dict_get_absent; [reflexivity|].
        intros Hin. apply dict_mem_in_keys in Hin. congruence.
      * rewrite dict_get_discard_other by exact Hne. apply Hm.
Qed.

Lemma Collection_run_consistent (index_type : IndexType.t)
  (ops : list (Collection_op T)) :
  forall self,
    Collection_consistent index_type self ->
    Collection_adds_new self ops ->
    Collection_consistent index_type (Collection_run self ops).
Proof.
  induction ops as [|o ops IH]; simpl; intros self Hc Hnew; [exact Hc|].
  destruct Hnew as (Ho & Hnew). apply IH; [|exact Hnew].
  apply Collection_step_consistent; [exact Hc|].
  destruct o; [exact Ho|exact I|exact I].
Qed.

End CollectionProperties.

(** X14.  In a collection whose index is a brute-force index registered
    by [add_index] on a directory of well-formed files, the index holds
    under every id the embedding of the stored record, and nothing under
    the ids of records without an embedding or without a file: after
    [add_index] whatever the order in which the directory lists the files,
    and after every sequence of [add] (of ids not stored yet), [update] and
    [delete]. *)
Theorem Collection_cosine_index_mirrors_store {T} `{Model T} `{Sklearn}
  (scandir : list UUID -> list UUID) (files : dict UUID T)
  (index_type : IndexType.t) (ops : list (Collection_op T)) :
  (forall l, Permutation (scandir l) l) ->
  Collection_well_formed files ->
  let self :=
    fst (Collection.add_index scandir (Collection.init files) index_type
           (Cosine BF.init)) in
  Collection_adds_new self ops ->
  Collection_consistent index_type (Collection_run self ops).
Proof.
  intros Hperm Hwf self Hnew. apply Collection_run_consistent; [|exact Hnew].
  now apply Collection_add_index_consistent.
Qed.

Lemma Collection_cosine_index_mirrors_store_witness :
  Collection_consistent IndexType.COSINE
    (Collection_run
       (fst (Collection.add_index same_order (Collection.init [(1%N, chunk_a)])
               IndexType.COSINE (Cosine BF.init)))
       [CAdd chunk_b; CUpdate 20%Z 1%N [(f_embedding, VFloats [0; 1])];
        CDelete 2%N]).
Proof.
  apply (@Collection_cosine_index_mirrors_store ChunkModel.t Model_Chunk
           first_rows same_order [(1%N, chunk_a)] IndexType.COSINE).
  - intros l. apply Permutation_refl.
  - split.
    + simpl. repeat constructor. simpl. tauto.
    + intros k x [[= <- <-]|[]]. reflexivity.
  - simpl. repeat split. intros [E|[]]. discriminate.
Defined.

(** **** update *)

Lemma apply_updates_get (update_data : dict field value) (key : field) :
  key <> f_id -> key <> f_created_at -> NoDup (keys update_data) ->
  forall item_dict,
    dict_get (Collection.apply_updates item_dict update_data) key
    = match dict_get update_data key with
      | Some value => if is_None value then dict_get item_dict key else Some value
      | None => dict_get item_dict key
      end.
Proof.
  intros Hid Hcr. unfold Collection.apply_updates.
  induction update_data as [|[k v] u IH]; intros Hnd d; [reflexivity|].
  inversion Hnd as [|? ? Hk Hnd']; subst. cbn [fold_left]. rewrite IH by exact Hnd'.
  cbn [dict_get]. destruct (key_eqb k key) eqn:E.
  - apply key_eqb_eq in E. subst k. rewrite (dict_get_absent _ _ Hk).
    cbn [existsb]. rewrite !key_eqb_neq by assumption. cbn [orb].
    destruct (is_None v); [reflexivity|]. apply dict_get_set_same_key.
  - assert (Hne : k <> key).
    { intros ->. rewrite key_eqb_refl in E. discriminate. }
    assert (Hstep : dict_get
                      (if existsb (key_eqb k) [f_id; f_created_at] then d
                       else if is_None v then d else dict_set d k v) key
                    = dict_get d key).
    { destruct (existsb _ _); [reflexivity|].
      destruct (is_None v); [reflexivity|].
      now apply dict_get_set_other_key. }
    now rewrite Hstep.
Qed.

(** X15.  When [update] returns a record, that record validates the dump
    of the stored one in which [updated_at] is the time of the call and
    every other field but [id] and [created_at] has the value of
    [update_data] where that value is not [None]; it keeps the [id], and
    it is what [get] then returns, the other files being untouched. *)
Theorem Collection_update_merges {T} `{Model T} `{Sklearn} (utcnow : datetime)
  (self self' : Collection.t T) (i : UUID) (update_data : dict field value)
  (existing updated : T) :
  Collection.get self i = Some existing ->
  item_id (record_of existing) = i ->
  NoDup (keys update_data) ->
  Collection.update utcnow self i update_data = (self', Ok (Some updated)) ->
  (exists item_dict,
     model_validate item_dict = Ok updated /\
     dict_get item_dict f_id = Some (VUUID i) /\
     dict_get item_dict f_created_at = dict_get (model_dump existing) f_created_at /\
     dict_get item_dict f_updated_at = Some (VDatetime utcnow) /\
     forall key, key <> f_id -> key <> f_created_at -> key <> f_updated_at ->
       dict_get item_dict key
       = match dict_get update_data key with
         | Some value =>
             if is_None value then dict_get (model_dump existing) key
             else Some value
         | None => dict_get (model_dump existing) key
         end) /\
  item_id (record_of updated) = i /\
  Collection.get self' i = Some updated /\
  forall j, j <> i -> Collection.get self' j = Collection.get self j.
Proof.
  intros Hget Hid Hnd Hup. unfold Collection.update in Hup. rewrite Hget in Hup.
  destruct (model_validate _) as [x'|] eqn:Ev; [|discriminate].
  pose proof (Collection_update_id _ _ _ _ Ev) as Hid'. rewrite Hid in Hid'.
  destruct (for_indexes _ _) as [ix r]. destruct r as [[]|e]; [|discriminate].
  cbn [bind] in Hup. injection Hup as <- <-.
  split; [|split; [exact Hid'|split]].
  - eexists. split; [exact Ev|]. split; [|split; [|split]].
    + rewrite dict_get_set_other_key by discriminate.
      rewrite apply_updates_kept by auto. now rewrite model_dump_id, Hid.
    + rewrite dict_get_set_other_key by discriminate.
      now rewrite apply_updates_kept by auto.
    + apply dict_get_set_same_key.
    + intros key H1 H2 H3. rewrite dict_get_set_other_key by congruence.
      now apply apply_updates_get.
  - unfold Collection.get, Collection._load_record, Collection._save_record.
    simpl. rewrite Hid'. apply dict_get_set_same.
  - intros j Hj.
    unfold Collection.get, Collection._load_record, Collection._save_record.
    simpl. rewrite Hid'. apply dict_get_set_other. congruence.
Qed.

Lemma Collection_update_merges_witness :
  exists updated,
    snd (Collection.update 20%Z (Collection.mk [(1%N, chunk_a)] []) 1%N
           [(f_id, VUUID 9%N); (f_content, VNone);
            (f_embedding, VFloats [0; 1])])
    = Ok (Some updated) /\
    ChunkModel.id updated = 1%N /\
    ChunkModel.content updated = [97%N] /\
    ChunkModel.embedding updated = Some [0; 1] /\
    ChunkModel.updated_at updated = 20%Z.
Proof.
  eexists. split; [vm_compute; reflexivity|].
  destruct (@Collection_update_merges ChunkModel.t Model_Chunk first_rows 20%Z
              (Collection.mk [(1%N, chunk_a)] [])
              (fst (Collection.update 20%Z (Collection.mk [(1%N, chunk_a)] []) 1%N
                      [(f_id, VUUID 9%N); (f_content, VNone);
                       (f_embedding, VFloats [0; 1])]))
              1%N
              [(f_id, VUUID 9%N); (f_content, VNone);
               (f_embedding, VFloats [0; 1])]
              chunk_a
              (ChunkModel.mk 1%N [] 10%Z 20%Z [97%N] (Some [0; 1]) 7%N))
    as (_ & Hid & _).
  - reflexivity.
  - reflexivity.
  - simpl. repeat constructor; simpl; intuition discriminate.
  - vm_compute. reflexivity.
  - split; [exact Hid|]. repeat split.
Defined.

(** **** search *)

Lemma run_prog_bind {A B} (get_embedding : str -> vec) (p : prog A)
  (k : A -> result B) :
  run get_embedding (prog_bind p k) = bind (run get_embedding p) k.
Proof. now destruct p. Qed.

Lemma Index_search_at_most_limit `{Sklearn} (fuel : nat) (index : Index)
  (get_embedding : str -> vec) (query : str) (limit : Z)
  (rs : list SearchResult) :
  (0 <= limit)%Z ->
  run get_embedding (Index_search fuel index query limit) = Ok (Some rs) ->
  (length rs <= Z.to_nat limit)%nat.
Proof.
  intros Hk Hrun. destruct index as [bf|ivf|nsw]; simpl in Hrun.
  - rewrite run_prog_bind in Hrun.
    destruct (run get_embedding (BF.search bf query limit)) as [rs'|] eqn:E;
      [|discriminate].
    injection Hrun as <-.
    destruct (BF_search_sliced _ _ _ _ _ E) as [->|(scored & _ & ->)];
      [simpl; lia|now apply length_py_slice_to].
  - rewrite run_prog_bind in Hrun.
    destruct (run get_embedding (IVF.search ivf query limit)) as [rs'|] eqn:E;
      [|discriminate].
    injection Hrun as <-.
    destruct (IVF_search_sliced _ _ _ _ _ E) as [->|(scored & _ & ->)];
      [simpl; lia|now apply length_py_slice_to].
  - destruct (NSW_search_entry _ _ _ _ _ _ Hrun)
      as [->|(e & ks & v & s & _ & _ & _ & ->)];
      [simpl; lia|now apply length_py_slice_to].
Qed.

Lemma length_full_results {T} `{Model T} (self : Collection.t T)
  (rs : list SearchResult) :
  (length (Collection.full_results self rs) <= length rs)%nat.
Proof.
  unfold Collection.full_results. induction rs as [|r rs IH]; simpl; [lia|].
  rewrite length_app. destruct (Collection.get self (id r)); simpl; lia.
Qed.

(** X16.  [search] on an index type that was not registered raises
    [KeyError] without asking the provider.  Otherwise its answer is the
    answer of the index, in the same order, without the results whose
    record has no file; each full result carries the id and confidence of
    its result and the content of the stored record, and with a limit
    that is not negative there are at most [limit] of them. *)
Theorem Collection_search_results {T} `{Model T} `{Sklearn} (fuel : nat)
  (self : Collection.t T) (index_type : IndexType.t)
  (get_embedding : str -> vec) (query : str) (limit : Z) :
  (dict_get (Collection.indexes self) index_type = None ->
   Collection.search fuel self index_type query limit = Return (Raise KeyError)) /\
  forall index frs,
    dict_get (Collection.indexes self) index_type = Some index ->
    run get_embedding (Collection.search fuel self index_type query limit)
    = Ok (Some frs) ->
    exists rs,
      run get_embedding (Index_search fuel index query limit) = Ok (Some rs) /\
      frs = Collection.full_results self rs /\
      (forall fr, In fr frs ->
         exists r record,
           In r rs /\ Collection.get self (id r) = Some record /\
           fr = FullSearchResult.mk (id r) (content_of record) (confidence r)) /\
      ((0 <= limit)%Z -> (length frs <= Z.to_nat limit)%nat).
Proof.
  unfold Collection.search. split; [intros ->; reflexivity|].
  intros index frs -> Hrun. rewrite run_prog_bind in Hrun.
  destruct (run get_embedding (Index_search fuel index query limit))
    as [[rs|]|] eqn:E; try discriminate.
  injection Hrun as <-. exists rs. split; [reflexivity|].
  split; [reflexivity|]. split.
  - intros fr Hfr. unfold Collection.full_results in Hfr.
    apply in_flat_map in Hfr. destruct Hfr as (r & Hr & Hfr).
    destruct (Collection.get self (id r)) as [record|] eqn:Eg; [|contradiction].
    destruct Hfr as [<-|[]]. exists r, record. auto.
  - intros Hk. pose proof (length_full_results self rs).
    pose proof (Index_search_at_most_limit _ _ _ _ _ _ Hk E). lia.
Qed.

Lemma Collection_search_results_witness :
  exists frs,
    run unit_x
        (Collection.search 1
           (Collection.mk [(1%N, chunk_a)]
              [(IndexType.COSINE, Cosine (BF.mk [(1%N, [1; 0]); (2%N, [0; 1])]))])
           IndexType.COSINE [113%N] 5)
    = Ok (Some frs) /\
    map FullSearchResult.id frs = [1%N] /\
    map FullSearchResult.content frs = [[97%N]].
Proof.
  eexists. split; [vm_compute; reflexivity|].
  destruct (proj2 (@Collection_search_results ChunkModel.t Model_Chunk first_rows
                     1%nat
                     (Collection.mk [(1%N, chunk_a)]
                        [(IndexType.COSINE,
                          Cosine (BF.mk [(1%N, [1; 0]); (2%N, [0; 1])]))])
                     IndexType.COSINE unit_x [113%N] 5%Z)
                  (Cosine (BF.mk [(1%N, [1; 0]); (2%N, [0; 1])]))
                  [FullSearchResult.mk 1%N [97%N] 1] eq_refl)
    as (rs & _ & _ & _ & _).
  - vm_compute. reflexivity.
  - split; reflexivity.
Defined.

(** **** delete *)

(** X17.  When [delete] returns, it returns whether the file existed; the
    id then has no file, and the other files are untouched.  When an
    index raises, no file is removed. *)
Theorem Collection_delete_unlinks {T} (self self' : Collection.t T) (i : UUID)
  (r : result bool) :
  NoDup (keys (Collection.files self)) ->
  Collection.delete self i = (self', r) ->
  match r with
  | Ok b =>
      b = Collection.exists_ self i /\
      Collection.get self' i = None /\
      forall j, j <> i -> Collection.get self' j = Collection.get self j
  | Raise _ => Collection.files self' = Collection.files self
  end.
Proof.
  intros Hnd Hd. unfold Collection.delete in Hd.
  destruct (for_indexes _ _) as [ix [[]|e]].
  - unfold Collection.exists_, Collection.get, Collection._load_record.
    destruct (dict_mem (Collection.files self) i) eqn:Em;
      injection Hd as <- <-; simpl.
    + split; [reflexivity|]. split.
      * apply dict_get_absent. rewrite keys_dict_del.
        now apply list_remove_nodup_absent.
      * intros j Hj. apply dict_get_del_other. congruence.
    + split; [reflexivity|]. split; [|reflexivity].
      apply dict_get_absent. intros Hin. apply dict_mem_in_keys in Hin.
      congruence.
  - now injection Hd as <- <-.
Qed.

Lemma Collection_delete_unlinks_witness :
  Collection.get
    (fst (Collection.delete
            (Collection.mk [(1%N, chunk_a); (2%N, chunk_b)]
               [(IndexType.COSINE, Cosine (BF.mk [(1%N, [1; 0])]))]) 1%N)) 1%N
  = None.
Proof.
  apply (@Collection_delete_unlinks ChunkModel.t
           (Collection.mk [(1%N, chunk_a); (2%N, chunk_b)]
              [(IndexType.COSINE, Cosine (BF.mk [(1%N, [1; 0])]))])
           _ 1%N (Ok true)).
  - simpl. repeat constructor; simpl; intuition discriminate.
  - vm_compute. reflexivity.
Defined.

(** *** How often the IVF index lists an id *)

Lemma count_occ_list_remove (l : list UUID) (i u : UUID) :
  count_occ N.eq_dec (list_remove l i) u
  = if N.eqb i u then pred (count_occ N.eq_dec l i) else count_occ N.eq_dec l u.
Proof.
  induction l as [|y l IH]; simpl.
  - now destruct (N.eqb i u).
  - destruct (N.eqb_spec y i) as [->|Hy].
    + destruct (N.eq_dec i i) as [_|Hn]; [|contradiction].
      destruct (N.eqb_spec i u) as [->|Hiu]; [reflexivity|].
      destruct (N.eq_dec i u); [contradiction|reflexivity].
    + simpl. rewrite IH. destruct (N.eq_dec y i) as [E|_]; [contradiction|].
      destruct (N.eqb_spec i u) as [->|Hiu]; [|reflexivity].
      destruct (N.eq_dec y u); [contradiction|reflexivity].
Qed.

Lemma count_occ_app_last (l : list UUID) (i u : UUID) :
  count_occ N.eq_dec (l ++ [i]) u
  = (count_occ N.eq_dec l u + if N.eqb i u then 1 else 0)%nat.
Proof.
  rewrite count_occ_app. simpl.
  destruct (N.eq_dec i u) as [->|Hne].
  - now rewrite N.eqb_refl.
  - now rewrite (proj2 (N.eqb_neq i u) Hne).
Qed.

Lemma IVF_listings_assign (ca : dict nat (list UUID)) (c : nat) (i u : UUID) :
  IVF_listings (IVF.assign ca c i) u
  = (IVF_listings ca u + if N.eqb i u then 1 else 0)%nat.
Proof.
  unfold IVF.assign. induction ca as [|[c0 m0] ca IH]; simpl.
  - destruct (N.eq_dec i u) as [->|Hne].
    + now rewrite N.eqb_refl.
    + now rewrite (proj2 (N.eqb_neq i u) Hne).
  - destruct (Nat.eqb c0 c) eqn:E; simpl.
    + rewrite count_occ_app_last. lia.
    + destruct (dict_get ca c) as [m|]; simpl; rewrite IH; lia.
Qed.

Lemma IVF_listings_remove (ca : dict nat (list UUID)) (i u : UUID) :
  IVF_listings (IVF.remove_from_clusters ca i) u
  = if N.eqb i u then pred (IVF_listings ca i) else IVF_listings ca u.
Proof.
  induction ca as [|[c0 m0] ca IH]; simpl.
  - now destruct (N.eqb i u).
  - destruct (set_mem m0 i) eqn:Em; simpl.
    + rewrite count_occ_list_remove.
      destruct (N.eqb_spec i u) as [->|Hne]; [|reflexivity].
      apply set_mem_in in Em. apply (count_occ_In N.eq_dec) in Em. lia.
    + rewrite IH. destruct (N.eqb_spec i u) as [->|Hne]; [|reflexivity].
      assert (Hz : count_occ N.eq_dec m0 u = 0%nat).
      { apply count_occ_not_In. intros Hin. apply set_mem_in in Hin. congruence. }
      rewrite Hz. reflexivity.
Qed.

Lemma IVF_assign_all_listings `{Sklearn} (cluster_ids : list nat)
  (items : list (UUID * vec)) (u : UUID) :
  forall self i self',
    IVF.assign_all self cluster_ids i items = (self', Ok tt) ->
    IVF_listings (IVF.cluster_assignments self') u
    = (IVF_listings (IVF.cluster_assignments self) u
       + count_occ N.eq_dec (map fst items) u)%nat.
Proof.
  induction items as [|[k e] items IH]; simpl; intros self i self' Ha.
  - injection Ha as <-. lia.
  - destruct (nth_error cluster_ids i) as [c|]; [|discriminate].
    rewrite (IH _ _ _ Ha). simpl. rewrite IVF_listings_assign.
    destruct (N.eq_dec k u) as [->|Hne].
    + rewrite N.eqb_refl. lia.
    + rewrite (proj2 (N.eqb_neq k u) Hne). lia.
Qed.

(** X18.  The member lists of the IVF index count the calls: a returning
    [add] of a record with an embedding lists its id once more, a [remove]
    of an id that has a stored vector takes one listing of it away (if
    there is one), and after a returning [rebuild] an id is listed as often
    as the snapshot holds a record with an embedding under it.  No call
    changes how often another id is listed. *)
Theorem IVF_listings_count `{Sklearn} (self self' : IVF.t) (u : UUID) :
  (forall item e,
      valid_embedding item = Some e ->
      IVF.add self item = (self', Ok tt) ->
      IVF_listings (IVF.cluster_assignments self') u
      = (IVF_listings (IVF.cluster_assignments self) u
         + if N.eqb (item_id item) u then 1 else 0)%nat) /\
  (forall i,
      In i (keys (IVF.embeddings self)) ->
      IVF_listings (IVF.cluster_assignments (fst (IVF.remove self i))) u
      = if N.eqb i u
        then pred (IVF_listings (IVF.cluster_assignments self) i)
        else IVF_listings (IVF.cluster_assignments self) u) /\
  (forall items,
      IVF.rebuild self items = (self', Ok tt) ->
      IVF_listings (IVF.cluster_assignments self') u
      = count_occ N.eq_dec (map fst (IVF.valid_items items)) u).
Proof.
  split; [|split].
  - intros item e Hv Hadd. unfold IVF.add in Hadd. rewrite Hv in Hadd.
    match type of Hadd with
    | context [snd ?f] => destruct f as [km [[]|x]]
    end; simpl in Hadd; [|discriminate].
    destruct (KMeans_predict km e) as [c|]; [|discriminate].
    injection Hadd as <-. simpl. apply IVF_listings_assign.
  - intros i Hi. unfold IVF.remove.
    apply dict_mem_in_keys in Hi. rewrite Hi. simpl.
    apply IVF_listings_remove.
  - intros items Hr. unfold IVF.rebuild in Hr.
    destruct (is_empty (IVF.valid_items items)) eqn:Ee.
    + injection Hr as <-. simpl.
      destruct (IVF.valid_items items); [reflexivity|discriminate].
    + destruct (IVF.np_array_2d _) as [arr|] eqn:Ea; [|discriminate].
      apply np_array_2d_rows in Ea. subst arr.
      destruct (KMeans_fit _ _) as [[km ids]|]; [|discriminate].
      rewrite combine_fst_snd in Hr.
      now rewrite (IVF_assign_all_listings _ _ _ _ _ _ Hr).
Qed.

Lemma IVF_listings_count_witness :
  IVF_listings
    (IVF.cluster_assignments (fst (IVF.add ivf_four (Chunk 1 (Some [0; 1])))))
    1%N = 2%nat.
Proof.
  apply (proj1 (@IVF_listings_count first_rows ivf_four
                  (fst (IVF.add ivf_four (Chunk 1 (Some [0; 1])))) 1%N)
               (Chunk 1 (Some [0; 1])) [0; 1] eq_refl).
  vm_compute. reflexivity.
Defined.

(** *** The application *)

Lemma Index_search_ids `{Sklearn} (fuel : nat) (index : Index)
  (get_embedding : str -> vec) (query : str) (limit : Z)
  (rs : list SearchResult) :
  run get_embedding (Index_search fuel index query limit) = Ok (Some rs) ->
  forall r, In r rs -> In (id r) (Index_ids index).
Proof.
  intros Hrun r Hr. destruct index as [bf|ivf|nsw]; simpl in *.
  - rewrite run_prog_bind in Hrun.
    destruct (run get_embedding (BF.search bf query limit)) as [rs'|] eqn:E;
      [|discriminate].
    injection Hrun as <-.
    destruct (BF_search_stored _ _ _ _ _ E _ Hr) as (v & Hv & _).
    exact (in_keys _ _ _ Hv).
  - rewrite run_prog_bind in Hrun.
    destruct (run get_embedding (IVF.search ivf query limit)) as [rs'|] eqn:E;
      [|discriminate].
    injection Hrun as <-.
    destruct (IVF_search_stored _ _ _ _ _ E _ Hr) as (v & Hv & _).
    exact (in_keys _ _ _ (dict_get_in _ _ _ Hv)).
  - destruct (NSW_search_stored _ _ _ _ _ _ Hrun _ Hr) as (v & Hv & _).
    exact (in_keys _ _ _ (dict_get_in _ _ _ Hv)).
Qed.

Lemma in_indexed_ids (indexes : dict IndexType.t Index)
  (index_type : IndexType.t) (index : Index) (k : UUID) :
  dict_get indexes index_type = Some index -> In k (Index_ids index) ->
  In k (indexed_ids indexes).
Proof.
  intros Hg Hk. apply in_flat_map. exists (index_type, index).
  split; [now apply dict_get_in|exact Hk].
Qed.

Section AppProperties.
Context `{Sklearn}.
Variable scandir : list UUID -> list UUID.
Variable get_embedding : str -> vec.

(** After [_reset], the handlers leave the indexes of [collections]
    alone, and the chunk directory holds only ids drawn since. *)
Lemma App_delete_chunks_after_reset (ids : list UUID)
  (indexes : dict IndexType.t Index) (chunks_to_delete : list UUID) :
  forall app,
    App.collections_chunks app = indexes ->
    App.chunks_rebound app = Some [] ->
    (forall k, In k (keys (App.data_chunks app)) -> ~ In k ids) ->
    let app' := fst (App.delete_chunks app chunks_to_delete) in
    App.collections_chunks app' = indexes /\
    App.chunks_rebound app' = Some [] /\
    (forall k, In k (keys (App.data_chunks app')) -> ~ In k ids).
Proof.
  induction chunks_to_delete as [|i rest IH]; intros app Hix Hre Hk; simpl;
    [auto|].
  destruct app as [data docs libs ix re]. simpl in *. subst ix re.
  unfold App.chunks_object, Collection.delete. simpl.
  destruct (dict_mem data i); simpl; apply IH; simpl; auto.
  intros k Hin. rewrite keys_dict_del in Hin. apply Hk.
  exact (in_list_remove _ _ _ Hin).
Qed.

Lemma App_step_after_reset (ids : list UUID) (indexes : dict IndexType.t Index)
  (app : App.t) (call : App_call) :
  App_new_ids ids [call] ->
  App.collections_chunks app = indexes ->
  App.chunks_rebound app = Some [] ->
  (forall k, In k (keys (App.data_chunks app)) -> ~ In k ids) ->
  let app' := App_step scandir get_embedding app call in
  App.collections_chunks app' = indexes /\
  App.chunks_rebound app' = Some [] /\
  (forall k, In k (keys (App.data_chunks app')) -> ~ In k ids).
Proof.
  intros Hnew Hix Hre Hk.
  destruct call as [|library|document|uuid4 c u request|chunk_id|document_id];
    simpl.
  - split; [exact Hix|]. split; [reflexivity|]. intros k [].
  - unfold App.create_library.
    destruct (Collection.exists_ _ _); [auto|].
    destruct (Collection.add _ library) as [libraries r]. simpl. auto.
  - unfold App.create_document.
    destruct (negb _); [auto|]. destruct (Collection.exists_ _ _); [auto|].
    destruct (Collection.add _ document) as [documents r]. simpl. auto.
  - unfold App.create_chunk.
    destruct (Collection.get _ _) as [document|]; [|auto].
    destruct (negb _); [auto|].
    destruct app as [data docs libs ix re]. simpl in *. subst ix re.
    unfold App.chunks_object, Collection.add, Collection._save_record. simpl.
    rewrite dict_mem_set. simpl. split; [reflexivity|]. split; [reflexivity|].
    intros k Hin. rewrite keys_dict_set in Hin. apply in_keys_set in Hin.
    destruct Hin as [->|Hin]; [|now apply Hk].
    apply (Hnew uuid4 c u request). now left.
  - unfold App.delete_chunk.
    destruct app as [data docs libs ix re]. simpl in *. subst ix re.
    unfold App.chunks_object, Collection.delete. simpl.
    destruct (dict_mem data chunk_id); simpl; auto.
    split; [reflexivity|]. split; [reflexivity|].
    intros k Hin. rewrite keys_dict_del in Hin. apply Hk.
    exact (in_list_remove _ _ _ Hin).
  - unfold App.delete_document.
    destruct (Collection.delete (App.documents_object app) document_id)
      as [documents [[|]|e]]; simpl; auto.
    match goal with
    | |- context [App.delete_chunks ?a ?l] =>
        pose proof (App_delete_chunks_after_reset ids indexes l a Hix Hre Hk)
          as Hd;
        destruct (App.delete_chunks a l) as [app' r]
    end.
    exact Hd.
Qed.

Lemma App_run_after_reset (ids : list UUID) (indexes : dict IndexType.t Index)
  (calls : list App_call) :
  App_new_ids ids calls ->
  forall app,
    App.collections_chunks app = indexes ->
    App.chunks_rebound app = Some [] ->
    (forall k, In k (keys (App.data_chunks app)) -> ~ In k ids) ->
    let app' := App_run scandir get_embedding app calls in
    App.collections_chunks app' = indexes /\
    App.chunks_rebound app' = Some [] /\
    (forall k, In k (keys (App.data_chunks app')) -> ~ In k ids).
Proof.
  induction calls as [|call calls IH]; intros Hnew app Hix Hre Hk; simpl; [auto|].
  destruct (App_step_after_reset ids indexes app call) as (Hix' & Hre' & Hk');
    auto.
  { intros uuid4 c u r [E|[]]. apply (Hnew uuid4 c u r). now left. }
  apply IH; auto.
  intros uuid4 c u r Hin. apply (Hnew uuid4 c u r). now right.
Qed.

End AppProperties.

(** X19.  After [reset], whatever libraries, documents and chunks are
    created and deleted, and however often [reset] is called again, a
    [query] on the chunks that answers, answers with no result: it still
    searches the indexes of the collection made at start-up, which no
    handler updates any more, and the files of the ids those indexes hold
    are gone.  (The ids drawn for the new chunks are taken to differ from
    the ids those indexes hold.) *)
Theorem query_after_reset_finds_nothing `{Sklearn}
  (scandir : list UUID -> list UUID) (get_embedding : str -> vec)
  (app0 : App.t) (calls : list App_call) (fuel : nat)
  (index_type : IndexType.t) (text : str) (limit : Z)
  (results : list FullSearchResult.t) :
  App_new_ids (indexed_ids (App.collections_chunks app0)) calls ->
  let app := App_run scandir get_embedding (fst (App.reset app0)) calls in
  App.query get_embedding fuel app name_chunks index_type text limit
  = Respond (Some results) ->
  App.collections_chunks app = App.collections_chunks app0 /\
  results = [].
Proof.
  intros Hnew app Hq.
  destruct (App_run_after_reset scandir get_embedding
              (indexed_ids (App.collections_chunks app0))
              (App.collections_chunks app0) calls Hnew (fst (App.reset app0)))
    as (Hix & _ & Hk); simpl; auto.
  fold app in Hix, Hk. split; [exact Hix|].
  unfold App.query in Hq. simpl in Hq. rewrite Hix in Hq.
  destruct (negb _); [discriminate|]. unfold Collection.search in Hq. simpl in Hq.
  destruct (dict_get (App.collections_chunks app0) index_type) as [index|] eqn:Ei;
    [|discriminate].
  rewrite run_prog_bind in Hq.
  destruct (run get_embedding (Index_search fuel index text limit))
    as [[rs|]|] eqn:E; try discriminate.
  simpl in Hq. injection Hq as <-.
  destruct (Collection.full_results _ rs) as [|fr frs] eqn:Ef; [reflexivity|].
  exfalso.
  assert (Hfr : In fr (Collection.full_results
                         (Collection.mk (App.data_chunks app)
                            (App.collections_chunks app0)) rs))
    by (rewrite Ef; now left).
  unfold Collection.full_results in Hfr. apply in_flat_map in Hfr.
  destruct Hfr as (r & Hr & Hfr).
  destruct (Collection.get _ (id r)) as [record|] eqn:Eg; [|contradiction].
  unfold Collection.get, Collection._load_record in Eg. simpl in Eg.
  apply (Hk (id r)).
  - apply dict_get_in_keys. congruence.
  - apply (in_indexed_ids _ _ _ _ Ei). exact (Index_search_ids _ _ _ _ _ _ E _ Hr).
Qed.

Lemma query_after_reset_finds_nothing_witness :
  let app0 := fst (App.startup same_order [(1%N, chunk_a)] [] []) in
  let app :=
    App_run same_order unit_x (fst (App.reset app0))
      [Call_create_library library_l; Call_create_document document_d;
       Call_create_chunk 5%N 3%Z 3%Z request_c] in
  indexed_ids (App.collections_chunks app0) = [1%N; 1%N; 1%N] /\
  keys (App.data_chunks app) = [5%N] /\
  exists results,
    App.query unit_x 1 app name_chunks IndexType.COSINE [113%N] 5
    = Respond (Some results) /\ results = [].
Proof.
  split; [vm_compute; reflexivity|]. split; [vm_compute; reflexivity|].
  eexists. split; [vm_compute; reflexivity|].
  apply (@query_after_reset_finds_nothing first_rows same_order unit_x
           (fst (App.startup same_order [(1%N, chunk_a)] [] []))
           [Call_create_library library_l; Call_create_document document_d;
            Call_create_chunk 5%N 3%Z 3%Z request_c]
           1%nat IndexType.COSINE [113%N] 5%Z []).
  - intros uuid4 c u r [E|[E|[E|[]]]]; try discriminate.
    injection E as <- _ _ _. vm_compute. intuition discriminate.
  - vm_compute. reflexivity.
Defined.

(** **** delete_document *)

Lemma Collection_list_all_in {T} `{Model T} (scandir : list UUID -> list UUID)
  (self : Collection.t T) (x : T) :
  (forall l, Permutation (scandir l) l) ->
  Collection_well_formed (Collection.files self) ->
  In x (Collection.list_all scandir self)
  <-> dict_get (Collection.files self) (item_id (record_of x)) = Some x.
Proof.
  intros Hperm (Hnd & Hid).
  unfold Collection.list_all, Collection._load_record. split.
  - intros Hx. apply in_flat_map in Hx. destruct Hx as (k & _ & Hx).
    destruct (dict_get (Collection.files self) k) as [y|] eqn:Ek;
      [|contradiction].
    destruct Hx as [<-|[]]. now rewrite (Hid _ _ (dict_get_in _ _ _ Ek)).
  - intros Hx. apply in_flat_map. exists (item_id (record_of x)). split.
    + apply (Permutation_in _ (Permutation_sym (Hperm _))).
      apply dict_get_in_keys. congruence.
    + rewrite Hx. now left.
Qed.

Lemma App_with_chunks_data (app : App.t) (chunks : Collection.t ChunkModel.t) :
  App.data_chunks (App.with_chunks app chunks) = Collection.files chunks /\
  App.data_documents (App.with_chunks app chunks) = App.data_documents app.
Proof. unfold App.with_chunks. now destruct (App.chunks_rebound app). Qed.

Lemma App_delete_chunks_files (chunks_to_delete : list UUID) :
  forall app app',
    App.delete_chunks app chunks_to_delete = (app', Ok tt) ->
    NoDup (keys (App.data_chunks app)) ->
    App.data_documents app' = App.data_documents app /\
    forall k, dict_get (App.data_chunks app') k
              = if existsb (N.eqb k) chunks_to_delete then None
                else dict_get (App.data_chunks app) k.
Proof.
  induction chunks_to_delete as [|i rest IH]; simpl; intros app app' Hd Hnd.
  - injection Hd as <-. auto.
  - destruct (Collection.delete (App.chunks_object app) i) as [c r] eqn:Ec.
    destruct r as [b|e]; [|discriminate].
    destruct (App_with_chunks_data app c) as (Hdata & Hdocs).
    assert (Hfiles : Collection.files c
                     = if dict_mem (App.data_chunks app) i
                       then dict_del (App.data_chunks app) i
                       else App.data_chunks app).
    { unfold Collection.delete, App.chunks_object in Ec. simpl in Ec.
      destruct (for_indexes _ _) as [ix [[]|e]]; [|discriminate].
      destruct (dict_mem (App.data_chunks app) i); now injection Ec as <- _. }
    destruct (IH _ _ Hd) as (Hdocs' & Hk).
    { rewrite Hdata, Hfiles. now apply NoDup_discard. }
    split; [congruence|]. intros k. rewrite Hk, Hdata, Hfiles.
    destruct (N.eqb_spec k i) as [->|Hne]; simpl.
    + rewrite dict_get_discard_same by exact Hnd.
      now destruct (existsb (N.eqb i) rest).
    + now rewrite dict_get_discard_other by congruence.
Qed.

(** X20.  When [delete_document] answers, the document has no file any
    more, and of the chunks exactly those of that document are gone:
    every other chunk is stored as before. *)
Theorem delete_document_cascades `{Sklearn} (scandir : list UUID -> list UUID)
  (app app' : App.t) (document_id : UUID) :
  (forall l, Permutation (scandir l) l) ->
  Collection_well_formed (App.data_chunks app) ->
  NoDup (keys (App.data_documents app)) ->
  App.delete_document scandir app document_id = (app', Respond tt) ->
  dict_get (App.data_documents app') document_id = None /\
  forall k, dict_get (App.data_chunks app') k
            = match dict_get (App.data_chunks app) k with
              | Some chunk =>
                  if N.eqb (ChunkModel.document_id chunk) document_id then None
                  else Some chunk
              | None => None
              end.
Proof.
  intros Hperm Hwf Hnd Hd. unfold App.delete_document in Hd.
  unfold App.documents_object, Collection.delete in Hd. simpl in Hd.
  destruct (dict_mem (App.data_documents app) document_id); [|discriminate].
  match type of Hd with
  | context [App.delete_chunks ?a ?l] =>
      destruct (App.delete_chunks a l) as [app2 r] eqn:Ed
  end.
  destruct r as [[]|e]; [|discriminate]. injection Hd as <-.
  destruct (App_delete_chunks_files _ _ _ Ed) as (Hdocs & Hk); [exact (proj1 Hwf)|].
  unfold App.chunks_object in Hk.
  cbn [App.data_chunks App.data_documents App.chunks_rebound
       App.collections_chunks Collection.files] in Hdocs, Hk.
  split.
  - rewrite Hdocs. apply dict_get_absent. rewrite keys_dict_del.
    now apply list_remove_nodup_absent.
  - intros k. rewrite Hk.
    assert (Hin : forall indexes chunk,
              In chunk (Collection.list_all scandir
                          (Collection.mk (App.data_chunks app) indexes))
              <-> dict_get (App.data_chunks app) (ChunkModel.id chunk)
                  = Some chunk).
    { intros indexes chunk.
      exact (Collection_list_all_in scandir
               (Collection.mk (App.data_chunks app) indexes) chunk Hperm Hwf). }
    match goal with
    | |- (if existsb _ ?l then _ else _) = _ =>
        destruct (existsb (N.eqb k) l) eqn:Ee
    end.
    + apply existsb_exists in Ee. destruct Ee as (k' & Hk' & E).
      apply N.eqb_eq in E. subst k'.
      apply in_map_iff in Hk'. destruct Hk' as (chunk & <- & Hc).
      apply filter_In in Hc. destruct Hc as (Hc & Hdoc).
      apply Hin in Hc. now rewrite Hc, Hdoc.
    + destruct (dict_get (App.data_chunks app) k) as [chunk|] eqn:Ek;
        [|reflexivity].
      destruct (N.eqb (ChunkModel.document_id chunk) document_id) eqn:Edoc;
        [|reflexivity].
      exfalso. assert (Hid : ChunkModel.id chunk = k).
      { exact (proj2 Hwf _ _ (dict_get_in _ _ _ Ek)). }
      match type of Ee with
      | existsb ?f ?l = false => assert (Hex : existsb f l = true)
      end; [|congruence].
      apply existsb_exists. exists k. split; [|apply N.eqb_refl].
      apply in_map_iff. exists chunk. split; [exact Hid|].
      apply filter_In. split; [|exact Edoc]. apply Hin. now rewrite Hid.
Qed.

Lemma delete_document_cascades_witness :
  dict_get
    (App.data_chunks
       (fst (App.delete_document same_order
               (App.mk [(1%N, chunk_a); (2%N, chunk_b)] [(7%N, document_d)]
                       [(30%N, library_l)] [] None) 7%N))) 1%N
  = None.
Proof.
  destruct (@delete_document_cascades first_rows same_order
              (App.mk [(1%N, chunk_a); (2%N, chunk_b)] [(7%N, document_d)]
                      [(30%N, library_l)] [] None)
              (fst (App.delete_document same_order
                      (App.mk [(1%N, chunk_a); (2%N, chunk_b)]
                              [(7%N, document_d)] [(30%N, library_l)] [] None)
                      7%N))
              7%N) as (_ & Hk).
  - intros l. apply Permutation_refl.
  - split.
    + cbn. constructor; [|constructor; [|constructor]].
      * intros [E|[]]. discriminate E.
      * intros [].
    + intros k x [E|[E|[]]]; injection E as <- <-; reflexivity.
  - cbn. constructor; [|constructor]. intros [].
  - vm_compute. reflexivity.
  - rewrite Hk. reflexivity.
Defined.
